(** * ngx: a shallow embedding of [src/index.ts]

    The program is a terminal front end over nginx's [sites-available] and
    [sites-enabled] directories.  Its logic lives in the class
    [NginxServer] (the three regular expressions of [reload], and
    [enable], [disable], [toggle]) and in the handlers of four buttons
    (new site, edit config, edit site, enable/disable).  This file embeds
    those parts and proves properties of them.

    Conventions of the embedding:
    - a JavaScript string is the list of its UTF-16 code units;
    - a value read out of a YAML document is a [jsval]; its numbers are
      integers, read as the Number nearest to them, and a Number that the
      program computes is an integer a double holds or Infinity;
    - the file system is a finite map from path strings to nodes, a path
      being read as it is written: a new entry asks for the directory in
      front of its last [/], a link is followed one step to the path it
      names, and nothing fails for want of room or of permission;
    - the widgets are left out, and so is the editor: a handler is a
      function of the text the editor returned and of the program state,
      and returns how it ended and the new state;
    - what the JavaScript engine and the YAML library provide
      ([Array.prototype.sort], [String.prototype.localeCompare],
      [YAML.parse], [YAML.stringify], the home directory) is a type class
      [Host]. *)

From Stdlib Require Import ZArith String Ascii DecimalPos.
From stdpp Require Import gmap list.

Local Open Scope bool_scope.

(** ** Strings and character classes *)

Abbreviation char := N.
Abbreviation jstr := (list N).

(** [u "abc"] is the JavaScript string with the same ASCII characters. *)
Definition u (s : string) : jstr := map N_of_ascii (list_ascii_of_string s).

Definition char_in (cs : list N) (c : char) : bool :=
  existsb (N.eqb c) cs.

(** LineTerminator: LF, CR, LS, PS. *)
Definition is_line_terminator (c : char) : bool :=
  char_in [10; 13; 8232; 8233]%N c.

(** What [\s] matches and what [trim] strips: WhiteSpace and LineTerminator. *)
Definition is_space (c : char) : bool :=
  char_in [9; 10; 11; 12; 13; 32; 160; 5760;
           8192; 8193; 8194; 8195; 8196; 8197; 8198; 8199; 8200; 8201; 8202;
           8232; 8233; 8239; 8287; 12288; 65279]%N c.

(** What [\d] matches. *)
Definition is_digit (c : char) : bool :=
  (48 <=? c)%N && (c <=? 57)%N.

(** What [.] matches (no [s] flag, no [u] flag). *)
Definition is_dot (c : char) : bool := negb (is_line_terminator c).

Fixpoint drop_while (p : char -> bool) (s : jstr) : jstr :=
  match s with
  | c :: s' => if p c then drop_while p s' else s
  | [] => []
  end.

Fixpoint take_while (p : char -> bool) (s : jstr) : jstr :=
  match s with
  | c :: s' => if p c then c :: take_while p s' else []
  | [] => []
  end.

(** [String.prototype.trim]. *)
Definition trim (s : jstr) : jstr :=
  rev (drop_while is_space (rev (drop_while is_space s))).

(** [s.startsWith(p)], returning what follows the prefix. *)
Fixpoint strip_prefix (p s : jstr) : option jstr :=
  match p, s with
  | [], _ => Some s
  | a :: p', b :: s' => if N.eqb a b then strip_prefix p' s' else None
  | _ :: _, [] => None
  end.

Definition starts_with (p s : jstr) : bool :=
  match strip_prefix p s with Some _ => true | None => false end.

Definition ends_with (p s : jstr) : bool := starts_with (rev p) (rev s).

(** [s.includes(p)]. *)
Fixpoint contains (p s : jstr) : bool :=
  starts_with p s || match s with [] => false | _ :: s' => contains p s' end.

(** [s.split(" ")] and the like: split at every occurrence of one
    character; the empty string splits into one empty piece. *)
Fixpoint split_char (sep : char) (s : jstr) : list jstr :=
  match s with
  | [] => [[]]
  | c :: s' =>
      if N.eqb c sep then [] :: split_char sep s'
      else match split_char sep s' with
           | h :: t => (c :: h) :: t
           | [] => [[c]]
           end
  end.

(** [lines.join(sep)]. *)
Fixpoint join (sep : jstr) (l : list jstr) : jstr :=
  match l with
  | [] => []
  | [x] => x
  | x :: l' => x ++ sep ++ join sep l'
  end.

Definition nl : jstr := [10%N].

(** ** Numbers and strings *)

Fixpoint uint_chars (d : Decimal.uint) : jstr :=
  match d with
  | Decimal.Nil => []
  | Decimal.D0 d => 48%N :: uint_chars d
  | Decimal.D1 d => 49%N :: uint_chars d
  | Decimal.D2 d => 50%N :: uint_chars d
  | Decimal.D3 d => 51%N :: uint_chars d
  | Decimal.D4 d => 52%N :: uint_chars d
  | Decimal.D5 d => 53%N :: uint_chars d
  | Decimal.D6 d => 54%N :: uint_chars d
  | Decimal.D7 d => 55%N :: uint_chars d
  | Decimal.D8 d => 56%N :: uint_chars d
  | Decimal.D9 d => 57%N :: uint_chars d
  end.

Fixpoint chars_uint (s : jstr) : option Decimal.uint :=
  match s with
  | [] => Some Decimal.Nil
  | c :: s' =>
      match chars_uint s' with
      | None => None
      | Some d =>
          match c with
          | 48%N => Some (Decimal.D0 d) | 49%N => Some (Decimal.D1 d)
          | 50%N => Some (Decimal.D2 d) | 51%N => Some (Decimal.D3 d)
          | 52%N => Some (Decimal.D4 d) | 53%N => Some (Decimal.D5 d)
          | 54%N => Some (Decimal.D6 d) | 55%N => Some (Decimal.D7 d)
          | 56%N => Some (Decimal.D8 d) | 57%N => Some (Decimal.D9 d)
          | _ => None
          end
      end
  end.

(** The decimal digits of a natural number. *)
Definition digits (n : Z) : jstr :=
  match n with
  | Zpos p => uint_chars (Pos.to_uint p)
  | _ => u "0"
  end.

(** A Number without a fraction: an integer that a double holds, or
    Infinity.  NaN is the [None] of an [option number]. *)
Inductive number :=
| Int (z : Z)
| Infinity.

Coercion Int : Z >-> number.

(** The double nearest to a natural number [n], ties going to the even
    significand: [n] itself below 2^53, and above it [n] rounded to 53
    significant bits. *)
Definition round53 (n : Z) : Z :=
  if (n <? 2 ^ 53)%Z then n
  else
    let e := (Z.log2 n - 52)%Z in
    let q := (n / 2 ^ e)%Z in
    let r := (n mod 2 ^ e)%Z in
    let q' := if ((2 ^ (e - 1) <? r) || ((r =? 2 ^ (e - 1)) && Z.odd q))%Z
              then (q + 1)%Z else q in
    (q' * 2 ^ e)%Z.

(** The Number value of a natural number: what rounds to 2^1024 is
    Infinity. *)
Definition number_of (n : Z) : number :=
  if (round53 n <? 2 ^ 1024)%Z then Int (round53 n) else Infinity.

(** Number::toString chooses digits [s] and a count [k] as small as
    possible with [s * 10^(n-k)] rounding to the Number, where [n] is the
    count of digits in front of the decimal point.  [candidate] is the
    value [s * unit] if [s] has [k] digits and the value rounds to [v]. *)
Definition candidate (v unit s : Z) (k : nat) : option Z :=
  if ((10 ^ Z.of_nat (k - 1) <=? s) && (s <? 10 ^ Z.of_nat k)
      && (round53 (s * unit) =? v))%Z
  then Some (s * unit)%Z else None.

(** The value with [k] digits that rounds to [v], if there is one: of two,
    the one nearer to [v], and the one with the even [s] if they are
    equally near. *)
Definition shortest_at (v : Z) (n k : nat) : option Z :=
  let unit := (10 ^ Z.of_nat (n - k))%Z in
  let s := (v / unit)%Z in
  match candidate v unit s k, candidate v unit (s + 1) k with
  | Some a, Some b =>
      Some (if (v - a <? b - v)%Z then a
            else if (b - v <? v - a)%Z then b
            else if Z.even s then a else b)
  | Some a, None => Some a
  | None, Some b => Some b
  | None, None => None
  end.

Fixpoint shortest_from (v : Z) (n : nat) (ks : list nat) : Z :=
  match ks with
  | [] => v
  | k :: ks' =>
      match shortest_at v n k with
      | Some y => y
      | None => shortest_from v n ks'
      end
  end.

(** The value whose digits stand for the Number [v]: the one with the
    fewest digits in front of its zeros.  It is the next power of ten
    when that is read as [v], as 10^23 is read as the Number below it. *)
Definition shortest (v : Z) : Z :=
  let n := length (digits v) in
  if (round53 (10 ^ Z.of_nat n) =? v)%Z then (10 ^ Z.of_nat n)%Z
  else shortest_from v n (seq 1 n).

(** [1.2345e+21]: the digits without the zeros at their end, a point
    behind the first, and the exponent. *)
Definition exponent_form (y : Z) : jstr :=
  let e := digits (Z.of_nat (length (digits y) - 1)) in
  match rev (drop_while (N.eqb 48) (rev (digits y))) with
  | [] => u "0"
  | [c] => [c] ++ u "e+" ++ e
  | c :: ds => [c] ++ u "." ++ ds ++ u "e+" ++ e
  end.

(** Number::toString of a Number that is not negative.  Below 2^53
    every integer is a Number, and no value with fewer digits rounds to
    it; from 10^21 on the exponent form is used. *)
Definition number_to_jstr (x : number) : jstr :=
  match x with
  | Infinity => u "Infinity"
  | Int v =>
      if (v <? 2 ^ 53)%Z then digits v
      else if (v <? 10 ^ 21)%Z then digits (shortest v)
      else exponent_form (shortest v)
  end.

(** [String(z)] for the Number that the integer [z] is read as. *)
Definition Z_to_jstr (z : Z) : jstr :=
  match z with
  | Z0 => u "0"
  | Zpos _ => number_to_jstr (number_of z)
  | Zneg p => u "-" ++ number_to_jstr (number_of (Zpos p))
  end.

(** Unary [+] on a string: [None] stands for NaN.  Exact on the strings
    that reach it here, which are runs of decimal digits: the run is read
    as a natural number and rounded to a Number.  The empty or blank
    string is 0 as in JavaScript.  Signs, fractions, exponents and radix
    prefixes are outside the model. *)
Definition to_number (s : jstr) : option number :=
  match chars_uint (trim s) with
  | Some d => Some (number_of (Z.of_N (N.of_uint d)))
  | None => None
  end.

(** ** Regular expressions

    The fragment of JavaScript's regular expressions the program uses:
    literal text, a greedy [*] or [+] over a character class, sequencing
    and capture groups.  Matching is by backtracking with a continuation,
    as in the language definition: a greedy repetition first takes as many
    characters as it can and gives them back one at a time. *)

Inductive cls := CSpace | CDigit | CDot.

Definition cls_match (c : cls) : char -> bool :=
  match c with
  | CSpace => is_space
  | CDigit => is_digit
  | CDot => is_dot
  end.

Inductive regex :=
| RLit (s : jstr)
| RStar (c : cls)
| RPlus (c : cls)
| RSeq (r1 r2 : regex)
| RGroup (r : regex).

(** A successful match: the unread rest of the input and the captures. *)
Definition mres : Type := jstr * list jstr.

Fixpoint star (p : char -> bool) (s : jstr) (k : jstr -> option mres)
  : option mres :=
  match s with
  | c :: s' =>
      if p c then
        match star p s' k with
        | Some r => Some r
        | None => k s
        end
      else k s
  | [] => k []
  end.

Fixpoint rmatch (r : regex) (s : jstr) (caps : list jstr)
    (k : jstr -> list jstr -> option mres) : option mres :=
  match r with
  | RLit l =>
      match strip_prefix l s with
      | Some s' => k s' caps
      | None => None
      end
  | RStar c => star (cls_match c) s (fun s' => k s' caps)
  | RPlus c =>
      match s with
      | x :: s' =>
          if cls_match c x then star (cls_match c) s' (fun s'' => k s'' caps)
          else None
      | [] => None
      end
  | RSeq r1 r2 => rmatch r1 s caps (fun s' caps' => rmatch r2 s' caps' k)
  | RGroup r1 =>
      rmatch r1 s caps
        (fun s' caps' => k s' (caps' ++ [take (length s - length s') s]))
  end.

(** A match attempt anchored at the head of [s]. *)
Definition exec (r : regex) (s : jstr) : option mres :=
  rmatch r s [] (fun s' caps => Some (s', caps)).

(** [s.match(r)] without the [g] flag: the captures of the leftmost match
    ([m.slice(1)]), or [None] for [null]. *)
Fixpoint search (r : regex) (s : jstr) : option (list jstr) :=
  match exec r s with
  | Some (_, caps) => Some caps
  | None =>
      match s with
      | [] => None
      | _ :: s' => search r s'
      end
  end.

(** [Array.from(s.matchAll(r))] with the [g] flag, each match reduced to
    its captures.  [skip] counts the characters still covered by the last
    match: the next attempt starts at [lastIndex], one further after an
    empty match. *)
Fixpoint matchAll_from (r : regex) (s : jstr) (skip : nat)
  : list (list jstr) :=
  match s with
  | [] =>
      match skip with
      | O => match exec r [] with Some (_, caps) => [caps] | None => [] end
      | S _ => []
      end
  | _ :: s' =>
      match skip with
      | S n => matchAll_from r s' n
      | O =>
          match exec r s with
          | Some (rest, caps) =>
              caps :: matchAll_from r s' (pred (length s - length rest))
          | None => matchAll_from r s' 0
          end
      end
  end.

Definition matchAll (r : regex) (s : jstr) : list (list jstr) :=
  matchAll_from r s 0.

(** [/server_name\s+(.+);/] *)
Definition re_server_name : regex :=
  RSeq (RLit (u "server_name"))
    (RSeq (RPlus CSpace) (RSeq (RGroup (RPlus CDot)) (RLit (u ";")))).

(** [/\s*listen\s+(\d+)/g] *)
Definition re_listen : regex :=
  RSeq (RStar CSpace)
    (RSeq (RLit (u "listen")) (RSeq (RPlus CSpace) (RGroup (RPlus CDigit)))).

(** [/root\s+(.+);/] *)
Definition re_root : regex :=
  RSeq (RLit (u "root"))
    (RSeq (RPlus CSpace) (RSeq (RGroup (RPlus CDot)) (RLit (u ";")))).

(** [m?.slice(1)[0] || ""] *)
Definition first_capture (m : option (list jstr)) : jstr :=
  match m with
  | Some (c :: _) => c
  | _ => []
  end.

(** The three right-hand sides of [NginxServer.reload]. *)
Definition parse_hosts (content : jstr) : list jstr :=
  split_char 32%N (first_capture (search re_server_name content)).

(** [+m[1]], where [m] is one match *)
Definition port_of_match (m : list jstr) : option number :=
  match m with
  | c :: _ => to_number c
  | [] => None
  end.

(** [.map(m => +m[1]).filter(a => !isNaN(a))] over all matches *)
Definition parse_ports (content : jstr) : list number :=
  omap port_of_match (matchAll re_listen content).

Definition parse_root (content : jstr) : jstr :=
  first_capture (search re_root content).

(** ** Values, errors and the file system *)

(** A scalar of a parsed YAML document; [VUndef] is what reading an absent
    key gives. *)
Inductive jsval :=
| VUndef
| VNull
| VBool (b : bool)
| VNum (z : Z)
| VStr (s : jstr).

(** ToBoolean. *)
Definition truthy (v : jsval) : bool :=
  match v with
  | VUndef | VNull => false
  | VBool b => b
  | VNum z => negb (Z.eqb z 0)
  | VStr s => match s with [] => false | _ => true end
  end.

(** ToString, as a template literal applies it. *)
Definition to_jstr (v : jsval) : jstr :=
  match v with
  | VUndef => u "undefined"
  | VNull => u "null"
  | VBool true => u "true"
  | VBool false => u "false"
  | VNum z => Z_to_jstr z
  | VStr s => s
  end.

Inductive errno := ENOENT | EEXIST | EISDIR | ENOTDIR.

Inductive error :=
| Error (message : jstr)          (* [throw new Error(message)] *)
| TypeError                       (* a string method called on a non-string *)
| FsError (code : errno) (path : jstr)
| YamlError.                      (* [YAML.parse] threw, or gave no object *)

Inductive result (A : Type) :=
| Ok (a : A)
| Err (e : error).
Arguments Ok {A} a.
Arguments Err {A} e.

Inductive node :=
| File (content : jstr)
| Dir
| Symlink (target : jstr).

Abbreviation fs := (gmap jstr node).

(** [existsSync] follows a symbolic link: a dangling link does not exist. *)
Definition existsSync (f : fs) (p : jstr) : bool :=
  match f !! p with
  | Some (Symlink t) => match f !! t with Some _ => true | None => false end
  | Some _ => true
  | None => false
  end.

Definition readFileSync (f : fs) (p : jstr) : result jstr :=
  match f !! p with
  | Some (File c) => Ok c
  | Some Dir => Err (FsError EISDIR p)
  | Some (Symlink t) =>
      match f !! t with
      | Some (File c) => Ok c
      | Some _ => Err (FsError EISDIR p)
      | None => Err (FsError ENOENT p)
      end
  | None => Err (FsError ENOENT p)
  end.

(** [path.dirname(p)]: what stands in front of the last [/] of [p], the
    root for a path directly below it; [None] for a path without [/],
    which is read in the working directory. *)
Definition dirname (p : jstr) : option jstr :=
  match drop_while (fun c => negb (N.eqb c 47)) (rev p) with
  | [] => None
  | _ :: d => Some (match d with [] => u "/" | _ => rev d end)
  end.

(** [d] is a directory, or a link to one.  The root and [/tmp] are
    directories of every machine the program runs on. *)
Definition is_directory (f : fs) (d : jstr) : bool :=
  bool_decide (d = u "/") || bool_decide (d = u "/tmp")
  || match f !! d with
     | Some Dir => true
     | Some (Symlink t) => match f !! t with Some Dir => true | _ => false end
     | _ => false
     end.

(** What making a new entry at [p] asks of the directory it is made in:
    ENOENT when nothing is there, ENOTDIR when it is not a directory. *)
Definition check_parent (f : fs) (p : jstr) : result unit :=
  match dirname p with
  | None => Ok tt
  | Some d =>
      if is_directory f d then Ok tt
      else match f !! d with
           | Some (File _) => Err (FsError ENOTDIR p)
           | _ => Err (FsError ENOENT p)
           end
  end.

(** A new entry at [p], in a directory that is there. *)
Definition create (f : fs) (p : jstr) (n : node) : result fs :=
  match check_parent f p with
  | Ok _ => Ok (<[p := n]> f)
  | Err e => Err e
  end.

(** [writeFileSync(p, content)]: an existing file is overwritten, through
    a link if [p] is one; a file that is not there is made. *)
Definition writeFileSync (f : fs) (p content : jstr) : result fs :=
  match f !! p with
  | Some Dir => Err (FsError EISDIR p)
  | Some (Symlink t) =>
      match f !! t with
      | Some Dir => Err (FsError EISDIR p)
      | Some (Symlink _) => Err (FsError ENOENT p)
      | Some (File _) => Ok (<[t := File content]> f)
      | None => create f t (File content)
      end
  | Some (File _) => Ok (<[p := File content]> f)
  | None => create f p (File content)
  end.

(** The directories above [p]: the proper prefixes of [p] that end in
    front of a [/]. *)
Fixpoint ancestors_from (before s : jstr) : list jstr :=
  match s with
  | [] => []
  | c :: s' =>
      (if N.eqb c 47 then match before with [] => [] | _ => [before] end else [])
      ++ ancestors_from (before ++ [c]) s'
  end.

Definition ancestors (p : jstr) : list jstr := ancestors_from [] p.

(** One directory of [mkdirSync(p, { recursive: true })]: it is made if
    nothing is there, and left alone if it is a directory; anything else
    in its place is the error [code]. *)
Definition mkdir_step (code : errno) (p : jstr) (f : fs) (q : jstr) : result fs :=
  match f !! q with
  | None => Ok (<[q := Dir]> f)
  | Some Dir => Ok f
  | Some (Symlink t) =>
      match f !! t with
      | Some Dir => Ok f
      | _ => Err (FsError code p)
      end
  | Some (File _) => Err (FsError code p)
  end.

Fixpoint mkdir_all (p : jstr) (f : fs) (qs : list jstr) : result fs :=
  match qs with
  | [] => Ok f
  | q :: qs' =>
      match mkdir_step ENOTDIR p f q with
      | Ok f' => mkdir_all p f' qs'
      | Err e => Err e
      end
  end.

(** [mkdirSync(p, { recursive: true })]: the directories above [p] are
    made as far as they are missing, then [p] itself. *)
Definition mkdirSync (f : fs) (p : jstr) : result fs :=
  match mkdir_all p f (ancestors p) with
  | Ok f' => mkdir_step EEXIST p f' p
  | Err e => Err e
  end.

(** [symlinkSync(target, p)] *)
Definition symlinkSync (f : fs) (target p : jstr) : result fs :=
  match f !! p with
  | Some _ => Err (FsError EEXIST p)
  | None => create f p (Symlink target)
  end.

(** [rmSync(p)] without options removes a file or a link, not a
    directory. *)
Definition rmSync (f : fs) (p : jstr) : result fs :=
  match f !! p with
  | None => Err (FsError ENOENT p)
  | Some Dir => Err (FsError EISDIR p)
  | Some _ => Ok (delete p f)
  end.

(** The entry name of [p] inside [dir], if [p] is directly inside it. *)
Definition entry_of (dir p : jstr) : option jstr :=
  match strip_prefix (dir ++ u "/") p with
  | Some n =>
      match n with
      | [] => None
      | _ => if contains (u "/") n then None else Some n
      end
  | None => None
  end.

(** [readdirSync(dir)].  The order of the entries is the file system's;
    here it is the order of the map. *)
Definition readdirSync (f : fs) (dir : jstr) : result (list jstr) :=
  match f !! dir with
  | Some Dir => Ok (omap (fun kv => entry_of dir (fst kv)) (map_to_list f))
  | Some _ => Err (FsError ENOTDIR dir)
  | None => Err (FsError ENOENT dir)
  end.

(** ** Configuration *)

(** The four settings.  The empty string stands for a setting that is not
    set: it is the one string [||=] replaces. *)
Record Config := {
  nginxPath : jstr;
  sitesAvailable : jstr;
  sitesEnabled : jstr;
  defaultVhosts : jstr;
}.

(** The parsed configuration document: per key, [None] when the key is
    absent, the empty string for a null value.  Values of other types than
    string are outside the model. *)
Record RawConfig := {
  raw_nginxPath : option jstr;
  raw_sitesAvailable : option jstr;
  raw_sitesEnabled : option jstr;
  raw_defaultVhosts : option jstr;
}.

(** [new Config()] *)
Definition empty_config : Config :=
  {| nginxPath := []; sitesAvailable := []; sitesEnabled := []; defaultVhosts := [] |}.

(** [a || b] on setting strings. *)
Definition or_default (a b : jstr) : jstr :=
  match a with [] => b | _ => a end.

(** [Object.assign(config, yamlConfig)] followed by the four [||=]. *)
Definition assign_config (c : Config) (y : RawConfig) : Config :=
  let np := or_default (default (nginxPath c) (raw_nginxPath y)) (u "/etc/nginx") in
  {| nginxPath := np;
     sitesAvailable :=
       or_default (default (sitesAvailable c) (raw_sitesAvailable y))
         (np ++ u "/sites-available");
     sitesEnabled :=
       or_default (default (sitesEnabled c) (raw_sitesEnabled y))
         (np ++ u "/sites-enabled");
     defaultVhosts :=
       or_default (default (defaultVhosts c) (raw_defaultVhosts y))
         (u "/var/www/html") |}.

(** ** Site records *)

Record NginxServer := {
  name : jstr;
  hosts : list jstr;
  port : list number;
  root : jstr;
  enabled : bool;
}.

(** A parsed new-site document, one value per key. *)
Record SiteData := {
  d_name : jsval;
  d_host : jsval;
  d_port : jsval;
  d_root : jsval;
  d_index : jsval;
  d_php : jsval;
  d_proxyUrl : jsval;
}.

(** ** What the engine and the YAML library provide *)

Class Host := {
  homedir : jstr;
  (** [a.localeCompare(b)] *)
  localeCompare : jstr -> jstr -> Z;
  (** [Array.prototype.sort] with a comparator.  The language fixes the
      resulting order only for a consistent comparator; in every case the
      array keeps its elements. *)
  array_sort : (NginxServer -> NginxServer -> Z) -> list NginxServer -> list NginxServer;
  array_sort_perm : forall c l, array_sort c l ≡ₚ l;
  yaml_stringify : RawConfig -> jstr;
  yaml_parse_config : jstr -> result RawConfig;
  (** [YAML.parse] of a new-site document, read through its seven keys.
      A document that is null, as the empty text is, has no key to read:
      reading the first one throws, and that [TypeError] is the error
      returned here. *)
  yaml_parse_site : jstr -> result SiteData;
}.

(** ** [class NginxServer] *)

(** [`${dir}/${n}`] *)
Definition path_in (dir n : jstr) : jstr := dir ++ u "/" ++ n.

Definition set_enabled (b : bool) (s : NginxServer) : NginxServer :=
  {| name := name s; hosts := hosts s; port := port s; root := root s;
     enabled := b |}.

(** [reload()]: every field but the name is overwritten. *)
Definition reload (c : Config) (f : fs) (this : NginxServer) : result NginxServer :=
  match readFileSync f (path_in (sitesAvailable c) (name this)) with
  | Ok content =>
      Ok {| name := name this;
            hosts := parse_hosts content;
            port := parse_ports content;
            root := parse_root content;
            enabled := existsSync f (path_in (sitesEnabled c) (name this)) |}
  | Err e => Err e
  end.

(** [new NginxServer(name)] *)
Definition createNginxServer (c : Config) (f : fs) (n : jstr) : result NginxServer :=
  reload c f {| name := n; hosts := []; port := []; root := []; enabled := false |}.

(** [enable()], [disable()], [toggle()]: the record and the file system
    after the call; an exception leaves both as they were. *)
Definition enable (c : Config) (f : fs) (this : NginxServer)
  : result (NginxServer * fs) :=
  if enabled this then Ok (this, f)
  else
    match symlinkSync f (path_in (sitesAvailable c) (name this))
            (path_in (sitesEnabled c) (name this)) with
    | Ok f' => Ok (set_enabled true this, f')
    | Err e => Err e
    end.

Definition disable (c : Config) (f : fs) (this : NginxServer)
  : result (NginxServer * fs) :=
  if negb (enabled this) then Ok (this, f)
  else
    match rmSync f (path_in (sitesEnabled c) (name this)) with
    | Ok f' => Ok (set_enabled false this, f')
    | Err e => Err e
    end.

Definition toggle (c : Config) (f : fs) (this : NginxServer)
  : result (NginxServer * fs) :=
  if enabled this then disable c f this else enable c f this.

(** ** Program state and the handlers' monad *)

Record State := {
  config : Config;
  files : fs;
  nginxServers : list NginxServer;
  lastFailedNewSiteContent : option jstr;
}.

Definition set_config (c : Config) (s : State) : State :=
  {| config := c; files := files s; nginxServers := nginxServers s;
     lastFailedNewSiteContent := lastFailedNewSiteContent s |}.

Definition set_files (f : fs) (s : State) : State :=
  {| config := config s; files := f; nginxServers := nginxServers s;
     lastFailedNewSiteContent := lastFailedNewSiteContent s |}.

Definition set_servers (l : list NginxServer) (s : State) : State :=
  {| config := config s; files := files s; nginxServers := l;
     lastFailedNewSiteContent := lastFailedNewSiteContent s |}.

Definition set_lastFailed (d : option jstr) (s : State) : State :=
  {| config := config s; files := files s; nginxServers := nginxServers s;
     lastFailedNewSiteContent := d |}.

(** A computation that may throw: the state it leaves is kept in both
    cases, as what was written before an exception stays written. *)
Definition M (A : Type) : Type := State -> State * result A.

Definition ret {A} (a : A) : M A := fun s => (s, Ok a).

Definition bind {A B} (m : M A) (k : A -> M B) : M B :=
  fun s =>
    match m s with
    | (s', Ok a) => k a s'
    | (s', Err e) => (s', Err e)
    end.

Notation "'let*' x ':=' m 'in' k" := (bind m (fun x => k))
  (at level 10, x name, m at level 100, k at level 200).

Definition throw {A} (e : error) : M A := fun s => (s, Err e).

Definition get : M State := fun s => (s, Ok s).

Definition modify (g : State -> State) : M unit := fun s => (g s, Ok tt).

(** [try { m } catch (e) { h e }] *)
Definition try_catch {A} (m : M A) (h : error -> M A) : M A :=
  fun s =>
    match m s with
    | (s', Ok a) => (s', Ok a)
    | (s', Err e) => h e s'
    end.

Definition lift {A} (r : result A) : M A := fun s => (s, r).

Definition fs_read {A} (op : fs -> result A) : M A :=
  fun s => (s, op (files s)).

Definition fs_write (op : fs -> result fs) : M unit :=
  fun s =>
    match op (files s) with
    | Ok f' => (set_files f' s, Ok tt)
    | Err e => (s, Err e)
    end.

Definition fs_exists (p : jstr) : M bool :=
  fun s => (s, Ok (existsSync (files s) p)).

Fixpoint map_result {A B} (g : A -> result B) (l : list A) : result (list B) :=
  match l with
  | [] => Ok []
  | x :: l' =>
      match g x with
      | Err e => Err e
      | Ok y =>
          match map_result g l' with
          | Err e => Err e
          | Ok ys => Ok (y :: ys)
          end
      end
  end.

(** ** [String.prototype.replace] with a global pattern *)

(** The replacement text of one match: [$$], [$&], [$`] and [$'] are
    expanded.  The patterns used here have no capture group, so [$1] and
    the like stand for themselves. *)
Fixpoint get_substitution (matched before after repl : jstr) : jstr :=
  match repl with
  | [] => []
  | c :: r =>
      match c, r with
      | 36%N, 36%N :: r' => 36%N :: get_substitution matched before after r'
      | 36%N, 38%N :: r' => matched ++ get_substitution matched before after r'
      | 36%N, 96%N :: r' => before ++ get_substitution matched before after r'
      | 36%N, 39%N :: r' => after ++ get_substitution matched before after r'
      | _, _ => c :: get_substitution matched before after r
      end
  end.

(** [s.replace(/pat/g, repl)] for a pattern [pat] that is literal text:
    [before] is what was read so far (reversed), [skip] the characters
    still covered by the last match. *)
Fixpoint replace_from (pat repl before s : jstr) (skip : nat) : jstr :=
  match s with
  | [] => []
  | c :: s' =>
      match skip with
      | S n => replace_from pat repl (c :: before) s' n
      | O =>
          match strip_prefix pat s with
          | Some after =>
              get_substitution pat (rev before) after repl
              ++ replace_from pat repl (c :: before) s' (pred (length pat))
          | None => c :: replace_from pat repl (c :: before) s' 0
          end
      end
  end.

Definition replace_all (pat repl s : jstr) : jstr :=
  replace_from pat repl [] s 0.

(** [s.replace(/\s/g, "_")] *)
Definition underscore_spaces (s : jstr) : jstr :=
  map (fun c => if is_space c then 95%N else c) s.

Section Program.
Context `{H : Host}.

(** [`${user.homedir}/.ngx/ngx.yaml`] *)
Definition configPath : jstr := homedir ++ u "/.ngx/ngx.yaml".

Definition default_raw_config : RawConfig :=
  {| raw_nginxPath := Some (u "/etc/nginx");
     raw_sitesAvailable := Some (u "/etc/nginx/sites-available");
     raw_sitesEnabled := Some (u "/etc/nginx/sites-enabled");
     raw_defaultVhosts := Some (u "/var/www/html") |}.

Definition refreshConfig : M unit :=
  let* present := fs_exists configPath in
  let* _ := (if present then ret tt
             else fs_write (fun f => writeFileSync f configPath
                                       (yaml_stringify default_raw_config))) in
  let* text := fs_read (fun f => readFileSync f configPath) in
  let* y := lift (yaml_parse_config text) in
  modify (fun s => set_config (assign_config (config s) y) s).

Definition loadNginxServers : M unit :=
  let* _ := modify (set_servers []) in
  let* s := get in
  let* entries := lift (readdirSync (files s) (sitesAvailable (config s))) in
  let* servers := lift (map_result (createNginxServer (config s) (files s)) entries) in
  modify (set_servers servers).

(** *** The "New Site" button *)

(** The document offered to the editor when no draft is kept. *)
Definition newSiteTemplate (c : Config) : jstr :=
  join nl
    [ u "### Required fields";
      u "# Site name";
      u "name: ";
      u "";
      u "# Server hostname (etc: example.com www.example.com)";
      u "host: ";
      u "";
      u "# Port to listen on";
      u "port: 80";
      u "";
      u "# Root directory ({name}, {host} will be replaced with site name and host respectively)";
      u "root: " ++ defaultVhosts c ++ u "/{name}";
      u "";
      u "";
      u "### Optional fields";
      u "# Index file (Default: index.html - PHP default: index.php))";
      u "index: ";
      u "";
      u "# PHP version (php7.4, php8.0)";
      u "php: ";
      u "";
      u "# Proxy URL (http://localhost:8080)";
      u "proxyUrl: ";
      u "" ].

(** [!data.name || !data.host || !data.port || !data.root] *)
Definition missing_required (d : SiteData) : bool :=
  negb (truthy (d_name d)) || negb (truthy (d_host d))
  || negb (truthy (d_port d)) || negb (truthy (d_root d)).

(** The two [replace] calls on [data.root] and the one that follows;
    [replace] is a method of strings only. *)
Definition substitute_root (d : SiteData) : result jstr :=
  match d_root d with
  | VStr r =>
      Ok (underscore_spaces
            (replace_all (u "{host}") (to_jstr (d_host d))
               (replace_all (u "{name}") (to_jstr (d_name d)) r)))
  | _ => Err TypeError
  end.

(** [if (existsSync(data.root)) data.root = `${data.root}/${data.name}`] *)
Definition resolve_root (f : fs) (d : SiteData) : result jstr :=
  match substitute_root d with
  | Ok r => Ok (if existsSync f r then r ++ u "/" ++ to_jstr (d_name d) else r)
  | Err e => Err e
  end.

(** [data.index?.trim() || (data.php ? "index.php" : "index.html")] *)
Definition resolve_index (d : SiteData) : result jstr :=
  let fallback := if truthy (d_php d) then u "index.php" else u "index.html" in
  match d_index d with
  | VUndef | VNull => Ok fallback
  | VStr i => Ok (match trim i with [] => fallback | t => t end)
  | _ => Err TypeError
  end.

(** The page written to [`${data.root}/${data.index}`]. *)
Definition scaffold_text (d : SiteData) (index : jstr) : jstr :=
  join nl
    [ u "<!DOCTYPE html>";
      u "<html>";
      u "<head>";
      u "  <title>" ++ to_jstr (d_name d) ++ u "</title>";
      u "</head>";
      u "<body>";
      u "  <h1>" ++ to_jstr (d_name d) ++ u "</h1>";
      u "</body>";
      u "</html>";
      if truthy (d_php d) && ends_with (u ".php") index
      then u "<?php phpinfo(); ?>" else u "" ].

Definition proxy_block (d : SiteData) : jstr :=
  join nl
    [ u "  location / {";
      u "    proxy_set_header X-Forwarded-For $remote_addr;";
      u "    proxy_set_header Host $http_host;";
      u "    proxy_set_header Upgrade $http_upgrade;";
      u "    proxy_set_header Connection " ++ [34%N] ++ u "upgrade" ++ [34%N] ++ u ";";
      u "    proxy_pass       " ++ to_jstr (d_proxyUrl d) ++ u ";";
      u "  }";
      u "" ].

Definition php_block (d : SiteData) (index : jstr) : jstr :=
  join nl
    [ u "  location ~ \.php {";
      u "    fastcgi_pass unix:/run/php/" ++ to_jstr (d_php d) ++ u "-fpm.sock;";
      u "    fastcgi_split_path_info ^((?U).+\.php)(/?.+)$;";
      u "    fastcgi_param SCRIPT_FILENAME $document_root$fastcgi_script_name;";
      u "    fastcgi_param PATH_INFO $fastcgi_path_info;";
      u "    fastcgi_param PATH_TRANSLATED $document_root$fastcgi_path_info;";
      u "    fastcgi_read_timeout 600s;";
      u "    fastcgi_send_timeout 600s;";
      u "    fastcgi_index " ++ (if ends_with (u ".php") index then index else u "index.php") ++ u ";";
      u "    include /etc/nginx/fastcgi_params;";
      u "  }";
      u "" ].

(** The text written to [`${config.sitesAvailable}/${data.name}`]: the
    array of lines, the two optional blocks dropped when [null]. *)
Definition config_text (d : SiteData) (root index : jstr) : jstr :=
  join nl
    ([ u "server {";
       u "  listen " ++ to_jstr (d_port d) ++ u ";";
       u "  server_name " ++ to_jstr (d_host d) ++ u ";";
       u "  root " ++ root ++ u ";";
       u "  index " ++ index ++ u ";";
       u "";
       u "  location / {";
       u "    try_files $uri $uri/ =404;";
       u "  }";
       u "" ]
     ++ (if truthy (d_proxyUrl d) then [proxy_block d] else [])
     ++ (if truthy (d_php d) then [php_block d index] else [])
     ++ [ u "}" ]).

(** [(a, b) => a.name.localeCompare(b.name)] *)
Definition by_name (a b : NginxServer) : Z := localeCompare (name a) (name b).

(** [(a, b) => a.enabled ? -1 : 1] *)
Definition by_enabled (a b : NginxServer) : Z := if enabled a then (-1)%Z else 1%Z.

(** The body of the handler's [try] block.  A record keeps its name as a
    string, as the class declares it: [createNginxServer] is given the
    string form of [data.name], and the comparator of the first sort
    finds [localeCompare] on every name.  What the handler does with a
    name that is a number or a boolean once it reaches the sorts is not
    modelled. *)
Definition newSite_try (text : jstr) : M unit :=
  let* d := lift (yaml_parse_site text) in
  let* _ := (if missing_required d
             then throw (Error (u "Missing one or more required fields"))
             else ret tt) in
  let* s := get in
  let* taken := fs_exists (path_in (sitesAvailable (config s)) (to_jstr (d_name d))) in
  let* _ := (if taken then throw (Error (u "Site already exists")) else ret tt) in
  let* root := fs_read (fun f => resolve_root f d) in
  let* index := lift (resolve_index d) in
  let* _ := fs_write (fun f => mkdirSync f root) in
  let* _ := fs_write (fun f => writeFileSync f (path_in root index) (scaffold_text d index)) in
  let* _ := fs_write (fun f => writeFileSync f
                         (path_in (sitesAvailable (config s)) (to_jstr (d_name d)))
                         (config_text d root index)) in
  let* server := fs_read (fun f => createNginxServer (config s) f (to_jstr (d_name d))) in
  let* _ := modify (fun s => set_servers (nginxServers s ++ [server]) s) in
  let* _ := modify (fun s => set_servers (array_sort by_name (nginxServers s)) s) in
  let* _ := modify (fun s => set_servers (array_sort by_enabled (nginxServers s)) s) in
  modify (set_lastFailed None).

(** How a handler ends: it found nothing to do, it did its work, or it
    reported an exception. *)
Inductive outcome :=
| Unchanged
| Done
| Failed (e : error).

(** The handler, given what the editor returned. *)
Definition newSite_press (text : jstr) (s : State) : outcome * State :=
  let initialContent := default (newSiteTemplate (config s)) (lastFailedNewSiteContent s) in
  if decide (trim text = trim initialContent) then (Unchanged, s)
  else
    match newSite_try text s with
    | (s', Ok _) => (Done, s')
    | (s', Err e) => (Failed e, set_lastFailed (Some text) s')
    end.

(** *** The "Edit Config" button *)

Definition editConfig_press (text : jstr) (s : State) : outcome * State :=
  match readFileSync (files s) configPath with
  | Err e => (Failed e, s)
  | Ok initialContent =>
      if decide (text = initialContent) then (Unchanged, s)
      else
        match (let* _ := fs_write (fun f => writeFileSync f configPath text) in
               let* _ := refreshConfig in
               loadNginxServers) s with
        | (s', Ok _) => (Done, s')
        | (s', Err e) =>
            match writeFileSync (files s') configPath initialContent with
            | Ok f => (Failed e, set_files f s')
            | Err e' => (Failed e', s')
            end
        end
  end.

(** *** The "Edit" button of the record at index [i] *)

Definition detailsEdit_press (i : nat) (text : jstr) (s : State)
  : option (outcome * State) :=
  match nginxServers s !! i with
  | None => None
  | Some server =>
      let p := path_in (sitesAvailable (config s)) (name server) in
      Some
        match readFileSync (files s) p with
        | Err e => (Failed e, s)
        | Ok data =>
            if decide (text = data) then (Unchanged, s)
            else
              match writeFileSync (files s) p text with
              | Err e => (Failed e, s)
              | Ok f =>
                  match reload (config s) f server with
                  | Err e => (Failed e, set_files f s)
                  | Ok server' =>
                      (Done, set_servers (<[i := server']> (nginxServers s)) (set_files f s))
                  end
              end
        end
  end.

(** *** The "Enable"/"Disable" button of the record at index [i] *)

Definition at_index (op : Config -> fs -> NginxServer -> result (NginxServer * fs))
    (i : nat) (s : State) : option (outcome * State) :=
  match nginxServers s !! i with
  | None => None
  | Some server =>
      Some
        match op (config s) (files s) server with
        | Err e => (Failed e, s)
        | Ok (server', f) =>
            (Done, set_servers (<[i := server']> (nginxServers s)) (set_files f s))
        end
  end.

Definition detailsToggle_press : nat -> State -> option (outcome * State) :=
  at_index toggle.

End Program.

(** ** Vocabulary of the proofs *)

Definition no_space (s : jstr) : bool := forallb (fun c => negb (is_space c)) s.

(** The keyword [kw] followed by one whitespace character, at the head. *)
Definition kw_ws (kw s : jstr) : bool :=
  match strip_prefix kw s with
  | Some (c :: _) => is_space c
  | _ => false
  end.

(** [tst] holds at a position inside [a], read in [a ++ b]. *)
Fixpoint hits (tst : jstr -> bool) (a b : jstr) : bool :=
  match a with
  | [] => false
  | _ :: a' => tst (a ++ b) || hits tst a' b
  end.

(** [tst] holds at some position of [s], the end included. *)
Fixpoint occ (tst : jstr -> bool) (s : jstr) : bool :=
  match s with
  | [] => tst []
  | _ :: s' => tst s || occ tst s'
  end.

(** What may follow a run of characters that are not whitespace without
    completing "keyword, whitespace": nothing, or a character that is
    neither whitespace nor part of the keyword. *)
Definition good_tail (kw b : jstr) : bool :=
  match b with
  | [] => true
  | d :: _ => negb (is_space d) && negb (char_in kw d)
  end.

(** A greedy repetition cannot go on at the head of [s]. *)
Definition stops (p : char -> bool) (s : jstr) : bool :=
  match s with
  | [] => true
  | c :: _ => negb (p c)
  end.

(** The shape shared by the three expressions: a keyword, [\s+], and more. *)
Definition after_kw (kw : jstr) (r : regex) : regex :=
  RSeq (RLit kw) (RSeq (RPlus CSpace) r).

(** [/kw\s+(.+);/] *)
Definition dir_re (kw : jstr) : regex :=
  after_kw kw (RSeq (RGroup (RPlus CDot)) (RLit (u ";"))).

(** [re_listen] without its leading [\s*]. *)
Definition re_listen_plain : regex :=
  after_kw (u "listen") (RGroup (RPlus CDigit)).

(** A line that holds the word [listen] once, followed by whitespace:
    what stands in front of the word, the whitespace behind it, and what
    follows up to the [;] that ends the line.  A directive has
    indentation in front of the word, a comment has its mark there. *)
Inductive line :=
| Listen (front sep value : jstr)
| Other (text : jstr).

Definition render_line (l : line) : jstr :=
  match l with
  | Listen front sep value => front ++ u "listen" ++ sep ++ value ++ u ";" ++ nl
  | Other text => text ++ nl
  end.

Definition render_lines (ls : list line) : jstr := concat (map render_line ls).

(** In a [Listen] line the word occurs where the line says and nowhere
    else, the whitespace behind it is not empty, and the value begins
    where the whitespace ends; an [Other] line does not hold the word. *)
Definition line_ok (l : line) : bool :=
  match l with
  | Listen front sep value =>
      negb (contains (u "listen") front)
      && negb (bool_decide (sep = [])) && forallb is_space sep
      && stops is_space value && negb (contains (u "listen") value)
  | Other text => negb (contains (u "listen") text)
  end.

(** The number a value begins with, if it begins with a digit. *)
Definition leading_number (value : jstr) : option number :=
  match take_while is_digit value with
  | [] => None
  | ds => to_number ds
  end.

Definition line_port (l : line) : option number :=
  match l with
  | Listen _ _ value => leading_number value
  | Other _ => None
  end.

(** *** The ports of a file, place by place *)

(** What the expression captures when it is tried at the head of [s]:
    [s] begins with [listen], whitespace follows, and a digit follows the
    whitespace; the capture is the run of digits there. *)
Definition listen_at (s : jstr) : option jstr :=
  match strip_prefix (u "listen") s with
  | Some t =>
      match take_while is_space t, take_while is_digit (drop_while is_space t) with
      | _ :: _, d :: ds => Some (d :: ds)
      | _, _ => None
      end
  | None => None
  end.

Definition port_at (s : jstr) : option number :=
  match listen_at s with
  | Some ds => to_number ds
  | None => None
  end.

(** [s] from each of its places on, the end included. *)
Fixpoint suffixes (s : jstr) : list jstr :=
  s :: match s with [] => [] | _ :: s' => suffixes s' end.

(** What follows the [index] line. *)
Definition config_tail (d : SiteData) (index : jstr) : jstr :=
  join nl
    ([ u "";
       u "  location / {";
       u "    try_files $uri $uri/ =404;";
       u "  }";
       u "" ]
     ++ (if truthy (d_proxyUrl d) then [proxy_block d] else [])
     ++ (if truthy (d_php d) then [php_block d index] else [])
     ++ [ u "}" ]).

(** The text from the [root] directive on, from the [server_name]
    directive on, and after the port. *)
Definition text_from_root (d : SiteData) (root index : jstr) : jstr :=
  u "root" ++ u " " ++ root ++ u ";" ++ nl
  ++ u "  index " ++ index ++ u ";" ++ nl ++ config_tail d index.

Definition text_from_server_name (d : SiteData) (root index : jstr) : jstr :=
  u "server_name" ++ u " " ++ to_jstr (d_host d) ++ u ";" ++ nl
  ++ u "  " ++ text_from_root d root index.

Definition text_after_port (d : SiteData) (root index : jstr) : jstr :=
  u ";" ++ nl ++ u "  " ++ text_from_server_name d root index.

(** [s] holds no line terminator. *)
Definition one_line (s : jstr) : bool := forallb is_dot s.

(** [kw] is nowhere in [s] followed by whitespace. *)
Definition never_spaced (kw s : jstr) : bool := negb (occ (kw_ws kw) s).

(** What the values of a request must be like for the generated text to
    read back as written: the name and the host hold no line break, the
    host does not begin with whitespace, the word [root] is nowhere in
    the host followed by whitespace, and the word [listen] is nowhere in
    a value followed by whitespace. *)
Definition reads_back (d : SiteData) (root index : jstr) : bool :=
  one_line (to_jstr (d_name d))
  && one_line (to_jstr (d_host d))
  && stops is_space (to_jstr (d_host d))
  && never_spaced (u "root") (to_jstr (d_host d))
  && forallb (never_spaced (u "listen"))
       [ to_jstr (d_host d); root; index; to_jstr (d_php d); to_jstr (d_proxyUrl d) ].

(** ** The properties under study *)



(** The operations on the registry, as the buttons trigger them. *)
Inductive op :=
| Create (text : jstr)
| Enable (i : nat)
| Disable (i : nat).



(** What [text] is compared with when the editor returns. *)
Definition initialContent (s : State) : jstr :=
  default (newSiteTemplate (config s)) (lastFailedNewSiteContent s).

(** The root resolution as the specification words it: each placeholder
    is replaced by the value itself, character for character. *)
Fixpoint substitute_from (pat v s : jstr) (skip : nat) : jstr :=
  match s with
  | [] => []
  | c :: s' =>
      match skip with
      | S n => substitute_from pat v s' n
      | O =>
          if starts_with pat s
          then v ++ substitute_from pat v s' (pred (length pat))
          else c :: substitute_from pat v s' 0
      end
  end.

Definition substitute (pat v s : jstr) : jstr := substitute_from pat v s 0.

Definition spec_resolve_root (f : fs) (d : SiteData) : result jstr :=
  match d_root d with
  | VStr r =>
      let resolved :=
        underscore_spaces
          (substitute (u "{host}") (to_jstr (d_host d))
             (substitute (u "{name}") (to_jstr (d_name d)) r)) in
      Ok (if existsSync f resolved
          then resolved ++ u "/" ++ to_jstr (d_name d) else resolved)
  | _ => Err TypeError
  end.

(** ** A host to run the examples on

    Code units are compared by their numbers, sorting is by insertion, and
    the YAML parser is a table from documents to their parsed form. *)

Fixpoint compare_units (a b : jstr) : Z :=
  match a, b with
  | [], [] => 0
  | [], _ :: _ => -1
  | _ :: _, [] => 1
  | x :: a', y :: b' =>
      match N.compare x y with
      | Lt => -1
      | Gt => 1
      | Eq => compare_units a' b'
      end
  end%Z.

Fixpoint insert_by (c : NginxServer -> NginxServer -> Z) (x : NginxServer)
    (l : list NginxServer) : list NginxServer :=
  match l with
  | [] => [x]
  | y :: l' => if (c x y <? 0)%Z then x :: l else y :: insert_by c x l'
  end.

(** The elements are taken from left to right, each put in front of the
    first one it is to precede. *)
Definition insertion_sort (c : NginxServer -> NginxServer -> Z)
    (l : list NginxServer) : list NginxServer :=
  fold_left (fun acc x => insert_by c x acc) l [].

Fixpoint table_lookup {A} (k : jstr) (t : list (jstr * A)) : result A :=
  match t with
  | [] => Err YamlError
  | (k', a) :: t' => if bool_decide (k = k') then Ok a else table_lookup k t'
  end.

Definition table_host (home : jstr) (configs : list (jstr * RawConfig))
    (sites : list (jstr * SiteData)) : Host.
Proof.
  refine {| homedir := home;
            localeCompare := compare_units;
            array_sort := insertion_sort;
            yaml_stringify := fun _ => [];
            yaml_parse_config := fun text => table_lookup text configs;
            yaml_parse_site := fun text => table_lookup text sites |}.
  intros c l. unfold insertion_sort.
  assert (Hins : forall x acc, insert_by c x acc ≡ₚ x :: acc).
  { intros x acc. induction acc as [|y acc IH]; [reflexivity|]. simpl.
    destruct (c x y <? 0)%Z; [reflexivity|].
    rewrite IH. apply Permutation_swap. }
  assert (Hacc : forall acc,
             fold_left (fun acc x => insert_by c x acc) l acc ≡ₚ l ++ acc).
  { induction l as [|x l IH]; intros acc; [reflexivity|]. simpl.
    rewrite IH, Hins. symmetry. apply Permutation_middle. }
  rewrite Hacc, app_nil_r. reflexivity.
Defined.

(** *** Example data *)

Definition example_config : Config :=
  {| nginxPath := u "/etc/nginx";
     sitesAvailable := u "/etc/nginx/sites-available";
     sitesEnabled := u "/etc/nginx/sites-enabled";
     defaultVhosts := u "/var/www/html" |}.

(** A machine with nginx installed and no site yet. *)
Definition fresh_files : fs :=
  {[ u "/etc" := Dir; u "/etc/nginx" := Dir;
     u "/etc/nginx/sites-available" := Dir;
     u "/etc/nginx/sites-enabled" := Dir;
     u "/var" := Dir; u "/var/www" := Dir; u "/var/www/html" := Dir;
     u "/root" := Dir ]}.

Definition fresh_state : State :=
  {| config := example_config; files := fresh_files; nginxServers := [];
     lastFailedNewSiteContent := None |}.

(** The request of the round-trip scenario and the document it is read
    from. *)
Definition blog : SiteData :=
  {| d_name := VStr (u "blog"); d_host := VStr (u "blog.test");
     d_port := VNum 80; d_root := VStr (u "/var/www/html/{name}");
     d_index := VStr (u ""); d_php := VUndef; d_proxyUrl := VUndef |}.

Definition blog_text : jstr :=
  u "name: blog" ++ nl ++ u "host: blog.test" ++ nl ++ u "port: 80" ++ nl
  ++ u "root: /var/www/html/{name}" ++ nl ++ u "index: ''" ++ nl.

(** A request with two host names, as the template's comment suggests. *)
Definition two_hosts : SiteData :=
  {| d_name := VStr (u "site"); d_host := VStr (u "example.com www.example.com");
     d_port := VNum 80; d_root := VStr (u "/var/www/html/{name}");
     d_index := VNull; d_php := VNull; d_proxyUrl := VNull |}.

(** A request without a name. *)
Definition nameless : SiteData :=
  {| d_name := VNull; d_host := VStr (u "blog.test");
     d_port := VNum 80; d_root := VStr (u "/var/www/html/{name}");
     d_index := VNull; d_php := VNull; d_proxyUrl := VNull |}.

Definition nameless_text : jstr :=
  u "name: " ++ nl ++ u "host: blog.test" ++ nl ++ u "port: 80" ++ nl
  ++ u "root: /var/www/html/{name}" ++ nl.

(** A request for the name [blog] without a host. *)
Definition blog_hostless : SiteData :=
  {| d_name := VStr (u "blog"); d_host := VNull;
     d_port := VNum 80; d_root := VStr (u "/var/www/html/{name}");
     d_index := VNull; d_php := VNull; d_proxyUrl := VNull |}.

Definition blog_hostless_text : jstr :=
  u "name: blog" ++ nl ++ u "host: " ++ nl ++ u "port: 80" ++ nl
  ++ u "root: /var/www/html/{name}" ++ nl.

(** A request whose name is a replacement pattern of [replace]. *)
Definition dollar_name : SiteData :=
  {| d_name := VStr (u "$&"); d_host := VStr (u "blog.test");
     d_port := VNum 80; d_root := VStr (u "/var/www/html/{name}");
     d_index := VNull; d_php := VNull; d_proxyUrl := VNull |}.

(** Two plain requests, for the sites [a] and [b]. *)
Definition site_a : SiteData :=
  {| d_name := VStr (u "a"); d_host := VStr (u "a.test");
     d_port := VNum 80; d_root := VStr (u "/var/www/html/{name}");
     d_index := VNull; d_php := VNull; d_proxyUrl := VNull |}.

Definition site_a_text : jstr :=
  u "name: a" ++ nl ++ u "host: a.test" ++ nl ++ u "port: 80" ++ nl
  ++ u "root: /var/www/html/{name}" ++ nl.

Definition site_b : SiteData :=
  {| d_name := VStr (u "b"); d_host := VStr (u "b.test");
     d_port := VNum 80; d_root := VStr (u "/var/www/html/{name}");
     d_index := VNull; d_php := VNull; d_proxyUrl := VNull |}.

Definition site_b_text : jstr :=
  u "name: b" ++ nl ++ u "host: b.test" ++ nl ++ u "port: 80" ++ nl
  ++ u "root: /var/www/html/{name}" ++ nl.

Definition example_host : Host :=
  table_host (u "/root") []
    [ (blog_text, blog); (nameless_text, nameless);
      (blog_hostless_text, blog_hostless);
      (site_a_text, site_a); (site_b_text, site_b) ].

(** Two calls end alike: with the same record, or with the same error. *)
Definition same_outcome (a b : result (NginxServer * fs)) : Prop :=
  match a, b with
  | Ok (r1, _), Ok (r2, _) => r1 = r2
  | Err e1, Err e2 => e1 = e2
  | _, _ => False
  end.

(** No [$] occurs in [s]. *)
Definition no_dollar (s : jstr) : bool := forallb (fun c => negb (N.eqb c 36)) s.

(** A record as it is before its file is read. *)
Definition site_record (n : jstr) : NginxServer :=
  {| name := n; hosts := []; port := []; root := []; enabled := false |}.

(** ** More of the program *)

(** Every setting is set. *)
Definition populated (c : Config) : bool :=
  negb (bool_decide (nginxPath c = []))
  && negb (bool_decide (sitesAvailable c = []))
  && negb (bool_decide (sitesEnabled c = []))
  && negb (bool_decide (defaultVhosts c = [])).

(** The flag of a record and the link in [sitesEnabled] tell the same:
    an enabled record has the link [enable] makes, a disabled one has
    nothing at that path. *)
Definition link_ok (c : Config) (f : fs) (this : NginxServer) : Prop :=
  f !! path_in (sitesEnabled c) (name this)
  = if enabled this
    then Some (Symlink (path_in (sitesAvailable c) (name this)))
    else None.

(** [q] is a directory, or a link to one. *)
Definition dir_ok (f : fs) (q : jstr) : Prop :=
  f !! q = Some Dir \/ exists t, f !! q = Some (Symlink t) /\ f !! t = Some Dir.

(** *** [tempEditor] *)

(** How the promise of [tempEditor] ends.  When the callback of
    [screen.exec] throws before it has called [resolve] or [reject], the
    promise is never settled and the handler awaiting it never goes on. *)
Inductive settled (A : Type) :=
| Resolved (a : A)
| Rejected (e : error)
| Unsettled (e : error).
Arguments Resolved {A} a.
Arguments Rejected {A} e.
Arguments Unsettled {A} e.

(** [`/tmp/${Date.now()}.${extension ? "tmp." + extension : "tmp"}`] *)
Definition tmpName (now : Z) (extension : option jstr) : jstr :=
  u "/tmp/" ++ Z_to_jstr now ++ u "."
  ++ match extension with
     | Some (c :: e) => u "tmp." ++ c :: e
     | _ => u "tmp"
     end.

(** [tempEditor({ extension, content })].  The editor is a process of its
    own: [editor] is what it does to the file system when started on a
    path, [err] the error it exits with, if any.  The result is the
    resolved [{ file, data }] and the file system left behind. *)
Definition tempEditor (now : Z) (extension content : option jstr)
    (editor : jstr -> fs -> fs) (err : option error) (f : fs)
  : settled (jstr * jstr) * fs :=
  let tmp := tmpName now extension in
  match writeFileSync f tmp (default [] content) with
  | Err e => (Rejected e, f)
  | Ok f1 =>
      let f2 := editor tmp f1 in
      match readFileSync f2 tmp with
      | Err e =>
          (match err with Some e' => Rejected e' | None => Unsettled e end, f2)
      | Ok data =>
          (match err with Some e' => Rejected e' | None => Resolved (tmp, data) end,
           match rmSync f2 tmp with Ok f3 => f3 | Err _ => f2 end)
      end
  end.

(** The "New Site" button from the click on: the editor is opened on the
    draft or the template, and the handler goes on with what it returns.
    [None] when the promise is rejected or never settled: the handler has
    no [catch] around the [await] and stops there. *)
Definition newSite_click `{Host} (now : Z) (editor : jstr -> fs -> fs)
    (err : option error) (s : State) : option outcome * State :=
  match tempEditor now (Some (u "yaml")) (Some (initialContent s)) editor err (files s) with
  | (Resolved (_, data), f) =>
      let (o, s') := newSite_press data (set_files f s) in (Some o, s')
  | (_, f) => (None, set_files f s)
  end.

(** An editor that saves [text] to the file it was started on and touches
    nothing else. *)
Definition saves (text : jstr) (path : jstr) (f : fs) : fs :=
  <[path := File text]> f.

(** *** More example data *)

(** A configuration document that moves the site files to a directory
    that does not exist, and a host whose YAML library reads it.  The
    table host prints every document as the empty text, which it reads
    back as the default document. *)
Definition moved_text : jstr := u "sitesAvailable: /srv/sites" ++ nl.

Definition moved_raw : RawConfig :=
  {| raw_nginxPath := None; raw_sitesAvailable := Some (u "/srv/sites");
     raw_sitesEnabled := None; raw_defaultVhosts := None |}.

Definition config_host : Host :=
  table_host (u "/root") [ ([], default_raw_config); (moved_text, moved_raw) ] [].


(** *** Start of the program *)

(** How the start ends: [process.exit(1)], an exception nobody catches,
    or the interface running on a state; in each case with the file
    system as the start leaves it. *)
Inductive boot :=
| Exit1 (f : fs)
| Crash (e : error) (f : fs)
| Up (s : State).

Definition boot_files (b : boot) : fs :=
  match b with
  | Exit1 f => f
  | Crash _ f => f
  | Up s => files s
  end.

(** The top-level statements in front of the interface: the check for
    [root], the directory, [refreshConfig] and [loadNginxServers] in their
    [try] blocks. *)
Definition startup `{Host} (username : jstr) (f : fs) : boot :=
  if negb (bool_decide (username = u "root")) then Exit1 f
  else
    match (if existsSync f (homedir ++ u "/.ngx") then Ok f
           else mkdirSync f (homedir ++ u "/.config/ngx")) with
    | Err e => Crash e f
    | Ok f1 =>
        match refreshConfig {| config := empty_config; files := f1;
                               nginxServers := [];
                               lastFailedNewSiteContent := None |} with
        | (s1, Err _) => Exit1 (files s1)
        | (s1, Ok _) =>
            match loadNginxServers s1 with
            | (s2, Err _) => Exit1 (files s2)
            | (s2, Ok _) => Up s2
            end
        end
    end.

(** A machine with one site, [blog], as the program writes it, the record
    read from it and the state with that record listed. *)
Definition blog_conf : jstr :=
  config_text blog (u "/var/www/html/blog") (u "index.html").

Definition blog_files : fs :=
  <[u "/etc/nginx/sites-available/blog" := File blog_conf]> fresh_files.

Definition blog_record : NginxServer :=
  {| name := u "blog"; hosts := [u "blog.test"]; port := [Int 80];
     root := u "/var/www/html/blog"; enabled := false |}.

Definition blog_state : State :=
  {| config := example_config; files := blog_files; nginxServers := [blog_record];
     lastFailedNewSiteContent := None |}.

(** The same machine with the directory of the program in the home of
    [root], and with the configuration file of the program in it, empty,
    which the table host reads as the default document. *)
Definition home_files : fs := <[u "/root/.ngx" := Dir]> blog_files.

Definition configured_state : State :=
  {| config := example_config;
     files := <[u "/root/.ngx/ngx.yaml" := File []]> home_files;
     nginxServers := [blog_record];
     lastFailedNewSiteContent := None |}.

(** A configuration that names one directory in both settings. *)
Definition one_directory : Config :=
  {| nginxPath := u "/etc/nginx";
     sitesAvailable := u "/etc/nginx/sites-available";
     sitesEnabled := u "/etc/nginx/sites-available";
     defaultVhosts := u "/var/www/html" |}.

(** A site file written by hand: two [server_name] directives, the first
    one with a comment behind it. *)
Definition two_directives : jstr :=
  (u "server {" ++ nl ++ u "  ")
  ++ u "server_name" ++ u " " ++ u "a.test b.test" ++ u ";" ++ u " # main"
  ++ (nl ++ u "  server_name c.test;" ++ nl ++ u "}").

(** A site file whose comment speaks of the root before the directive
    does. *)
Definition root_in_comment : jstr :=
  u "# the old " ++ u "root" ++ u " " ++ u "was /old" ++ u ";" ++ []
  ++ (nl ++ u "root /srv/x;" ++ nl).

(** A request whose root is a number, and a host that reads it. *)
Definition numeric_root : SiteData :=
  {| d_name := VStr (u "blog"); d_host := VStr (u "blog.test");
     d_port := VNum 80; d_root := VNum 8080;
     d_index := VNull; d_php := VNull; d_proxyUrl := VNull |}.

Definition numeric_root_text : jstr :=
  u "name: blog" ++ nl ++ u "host: blog.test" ++ nl ++ u "port: 80" ++ nl
  ++ u "root: 8080" ++ nl.

Definition numeric_root_host : Host :=
  table_host (u "/root") [] [ (numeric_root_text, numeric_root) ].

(** * Facts about strings *)

Lemma strip_prefix_app p s : strip_prefix p (p ++ s) = Some s.
Proof.
  induction p as [|a p IH]; simpl; [reflexivity|].
  rewrite N.eqb_refl. exact IH.
Qed.

Lemma strip_prefix_Some p s t : strip_prefix p s = Some t -> s = p ++ t.
Proof.
  revert s. induction p as [|a p IH]; intros [|b s]; simpl; try congruence.
  destruct (N.eqb_spec a b) as [->|]; [|congruence].
  intros E. f_equal. auto.
Qed.

Lemma hits_app tst a1 a2 b :
  hits tst (a1 ++ a2) b = hits tst a1 (a2 ++ b) || hits tst a2 b.
Proof.
  induction a1 as [|c a1 IH]; simpl; [reflexivity|].
  rewrite IH, <- !app_assoc, orb_assoc. reflexivity.
Qed.

Lemma occ_app tst a b : occ tst (a ++ b) = hits tst a b || occ tst b.
Proof.
  induction a as [|c a IH]; simpl; [reflexivity|].
  rewrite IH, orb_assoc. reflexivity.
Qed.

Lemma kw_ws_nil kw : kw_ws kw [] = false.
Proof. destruct kw; reflexivity. Qed.

Lemma kw_ws_cons k kw c s : kw_ws (k :: kw) (c :: s) = N.eqb k c && kw_ws kw s.
Proof. unfold kw_ws. simpl. destruct (N.eqb k c); reflexivity. Qed.

Lemma good_tail_cons k kw b :
  good_tail (k :: kw) b = true -> good_tail kw b = true.
Proof.
  destruct b as [|d b]; [reflexivity|]. simpl.
  intros Hb. apply andb_true_iff in Hb as [-> Hb]. simpl.
  apply negb_true_iff in Hb. apply orb_false_iff in Hb as [_ ->]. reflexivity.
Qed.

Lemma kw_ws_frame kw l x b :
  no_space x = true -> good_tail kw b = true ->
  kw_ws kw (l ++ x ++ b) = kw_ws kw l.
Proof.
  revert l x. induction kw as [|k kw IH]; intros l x Hx Hb.
  - destruct l as [|c l]; [|reflexivity].
    destruct x as [|c x]; simpl in *.
    + destruct b as [|d b]; [reflexivity|].
      unfold kw_ws; simpl. simpl in Hb.
      destruct (is_space d); [discriminate|reflexivity].
    + unfold kw_ws; simpl. destruct (is_space c); [discriminate|reflexivity].
  - pose proof (good_tail_cons _ _ _ Hb) as Hb'.
    destruct l as [|c l].
    + rewrite kw_ws_nil. destruct x as [|c x]; simpl in *.
      * destruct b as [|d b]; [apply kw_ws_nil|].
        rewrite kw_ws_cons. simpl in Hb.
        rewrite (N.eqb_sym k d).
        destruct (N.eqb d k); simpl in *; [|reflexivity].
        rewrite andb_false_r in Hb. discriminate.
      * rewrite kw_ws_cons.
        apply andb_true_iff in Hx as [_ Hx].
        pose proof (IH [] x Hx Hb') as E. simpl in E. rewrite E.
        rewrite kw_ws_nil. apply andb_false_r.
    + simpl. rewrite !kw_ws_cons. f_equal. apply IH; assumption.
Qed.

Lemma hits_frame kw l x b :
  no_space x = true -> good_tail kw b = true ->
  hits (kw_ws kw) l (x ++ b) = hits (kw_ws kw) l [].
Proof.
  intros Hx Hb. induction l as [|c l IH]; [reflexivity|].
  simpl hits. rewrite IH. f_equal.
  rewrite app_nil_r. apply (kw_ws_frame kw (c :: l) x b Hx Hb).
Qed.

Lemma no_space_app a b : no_space (a ++ b) = no_space a && no_space b.
Proof. apply forallb_app. Qed.

Lemma hits_no_space kw x b :
  no_space x = true -> good_tail kw b = true -> hits (kw_ws kw) x b = false.
Proof.
  intros Hx Hb. induction x as [|c x IH]; [reflexivity|].
  simpl hits. simpl in Hx. apply andb_true_iff in Hx as [Hc Hx].
  rewrite (IH Hx), orb_false_r.
  change (c :: x ++ b) with ([] ++ (c :: x) ++ b).
  rewrite kw_ws_frame; [apply kw_ws_nil| |assumption].
  simpl. rewrite Hc, Hx. reflexivity.
Qed.

(** * Facts about the matcher *)

Lemma star_stops p s k : stops p s = true -> star p s k = k s.
Proof.
  destruct s as [|c s]; [reflexivity|]. simpl.
  destruct (p c); [discriminate|reflexivity].
Qed.

Lemma star_app_some p a b k r :
  forallb p a = true -> star p b k = Some r -> star p (a ++ b) k = Some r.
Proof.
  intros Ha Hb. induction a as [|c a IH]; [exact Hb|].
  simpl in *. apply andb_true_iff in Ha as [-> Ha].
  rewrite (IH Ha). reflexivity.
Qed.

Lemma star_app_none p a b k :
  forallb p a = true -> star p b k = None ->
  (forall a1 a2, a = a1 ++ a2 -> a2 <> [] -> k (a2 ++ b) = None) ->
  star p (a ++ b) k = None.
Proof.
  intros Ha Hb. induction a as [|c a IH]; intros Hk; [exact Hb|].
  simpl in *. apply andb_true_iff in Ha as [-> Ha].
  rewrite IH; [|assumption|].
  - apply (Hk [] (c :: a)); [reflexivity|discriminate].
  - intros a1 a2 -> Hne. apply (Hk (c :: a1) a2); [reflexivity|assumption].
Qed.

Lemma is_line_terminator_space c : is_line_terminator c = true -> is_space c = true.
Proof.
  unfold is_line_terminator, char_in. simpl.
  rewrite !orb_true_iff.
  intros [E|[E|[E|[E|E]]]]; try discriminate;
    apply N.eqb_eq in E; subst c; reflexivity.
Qed.

Lemma not_space_dot c : is_space c = false -> is_dot c = true.
Proof.
  intros Hc. unfold is_dot. destruct (is_line_terminator c) eqn:E; [|reflexivity].
  apply is_line_terminator_space in E. congruence.
Qed.

Lemma no_space_dot s : no_space s = true -> forallb is_dot s = true.
Proof.
  induction s as [|c s IH]; [reflexivity|]. simpl.
  intros Hs. apply andb_true_iff in Hs as [Hc Hs].
  apply negb_true_iff in Hc. rewrite (not_space_dot _ Hc). auto.
Qed.

Lemma rmatch_no_kw_ws kw r s caps k :
  kw_ws kw s = false -> rmatch (after_kw kw r) s caps k = None.
Proof.
  unfold kw_ws. simpl. destruct (strip_prefix kw s) as [[|c t]|]; try reflexivity.
  simpl. intros ->. reflexivity.
Qed.

Lemma exec_no_kw_ws kw r s : kw_ws kw s = false -> exec (after_kw kw r) s = None.
Proof. apply rmatch_no_kw_ws. Qed.

(** [\s+] in front of a value that does not begin with whitespace takes
    exactly the whitespace. *)
Lemma rmatch_after_kw kw r sp v caps k res :
  sp <> [] -> forallb is_space sp = true -> stops is_space v = true ->
  rmatch r v caps k = Some res ->
  rmatch (after_kw kw r) (kw ++ sp ++ v) caps k = Some res.
Proof.
  intros Hne Hsp Hv Hr. simpl. rewrite strip_prefix_app.
  destruct sp as [|c sp]; [congruence|]. simpl in *.
  apply andb_true_iff in Hsp as [-> Hsp].
  apply star_app_some; [assumption|].
  rewrite star_stops; assumption.
Qed.

Lemma take_app_exact (a b c : jstr) :
  take (length (a ++ b ++ c) - length (b ++ c)) (a ++ b ++ c) = a.
Proof.
  rewrite !length_app.
  replace (length a + (length b + length c) - (length b + length c)) with (length a) by lia.
  apply take_app_length.
Qed.

(** The value of a directive: everything up to the last [;] of the line. *)
Lemma exec_dir_value kw sp v rest :
  sp <> [] -> forallb is_space sp = true ->
  v <> [] -> stops is_space v = true -> forallb is_dot v = true ->
  stops is_dot rest = true ->
  exec (dir_re kw) (kw ++ sp ++ v ++ u ";" ++ rest) = Some (rest, [v]).
Proof.
  intros Hne Hsp Hv Hhd Hdot Hrest. unfold exec, dir_re.
  apply rmatch_after_kw; try assumption.
  - destruct v; [congruence|exact Hhd].
  - destruct v as [|c v]; [congruence|]. simpl in Hdot.
    apply andb_true_iff in Hdot as [Hc Hdot].
    cbn [rmatch app cls_match]. rewrite Hc.
    apply star_app_some; [assumption|].
    change (u ";" ++ rest) with (59%N :: rest).
    cbn [star]. change (is_dot 59%N) with true. cbv iota.
    rewrite star_stops by assumption.
    replace (strip_prefix (u ";") rest) with (@None jstr).
    2:{ destruct rest as [|d rest]; [reflexivity|].
        simpl in Hrest. change (u ";") with [59%N]. cbn [strip_prefix].
        destruct (N.eqb_spec 59 d) as [<-|]; [discriminate|reflexivity]. }
    change (strip_prefix (u ";") (59%N :: rest)) with (Some rest).
    cbv iota beta. do 2 f_equal. simpl app at 1. f_equal.
    change (c :: v ++ 59%N :: rest) with ((c :: v) ++ [59%N] ++ rest).
    change (59%N :: rest) with ([59%N] ++ rest).
    apply take_app_exact.
Qed.

Lemma search_skip kw r a b :
  hits (kw_ws kw) a b = false ->
  search (after_kw kw r) (a ++ b) = search (after_kw kw r) b.
Proof.
  induction a as [|c a IH]; [reflexivity|].
  simpl hits. intros Hh. apply orb_false_iff in Hh as [Hc Ha].
  change ((c :: a) ++ b) with (c :: a ++ b).
  cbn [search]. rewrite (exec_no_kw_ws _ _ _ Hc). auto.
Qed.

Lemma search_none kw r s :
  occ (kw_ws kw) s = false -> search (after_kw kw r) s = None.
Proof.
  induction s as [|c s IH]; simpl occ; intros Ho.
  - cbn [search]. rewrite exec_no_kw_ws; [reflexivity|apply kw_ws_nil].
  - apply orb_false_iff in Ho as [Hc Hs].
    cbn [search]. rewrite (exec_no_kw_ws _ _ _ Hc). auto.
Qed.

(** A match never reads backwards: what is left is no longer than what
    the continuation was given. *)
Lemma star_len p s k n res :
  (forall s' res', k s' = Some res' -> length (fst res') + n <= length s') ->
  star p s k = Some res -> length (fst res) + n <= length s.
Proof.
  intros Hk. induction s as [|c s IH]; simpl.
  - apply Hk.
  - destruct (p c); [|apply Hk].
    destruct (star p s k) as [r|] eqn:E.
    + intros [= <-]. specialize (IH eq_refl). simpl. lia.
    + apply Hk.
Qed.

Lemma rmatch_len r : forall s caps k n res,
  (forall s' c' res', k s' c' = Some res' -> length (fst res') + n <= length s') ->
  rmatch r s caps k = Some res -> length (fst res) + n <= length s.
Proof.
  induction r as [l|c|c|r1 IH1 r2 IH2|r IH]; intros s caps k n res Hk; simpl.
  - destruct (strip_prefix l s) as [t|] eqn:E; [|discriminate].
    intros Hr. apply Hk in Hr. apply strip_prefix_Some in E. subst s.
    rewrite length_app. lia.
  - apply star_len. intros s' res'. apply Hk.
  - destruct s as [|x s]; [discriminate|].
    destruct (cls_match c x); [|discriminate].
    intros Hr. apply star_len with (n := n) in Hr; [simpl; lia|].
    intros s' res'. apply Hk.
  - apply IH1. intros s' c' res'. apply IH2. exact Hk.
  - apply IH. intros s' c' res'. apply Hk.
Qed.

Lemma rmatch_after_kw_len kw r s caps res :
  rmatch (after_kw kw r) s caps (fun s' c' => Some (s', c')) = Some res ->
  length (fst res) + length kw <= length s.
Proof.
  unfold after_kw. cbn [rmatch].
  destruct (strip_prefix kw s) as [t|] eqn:E; [|discriminate].
  apply strip_prefix_Some in E. subst s. intros Hr.
  change (rmatch (RSeq (RPlus CSpace) r) t caps (fun s' c' => Some (s', c')) = Some res) in Hr.
  apply rmatch_len with (n := 0) in Hr.
  - rewrite length_app. lia.
  - intros s' c' res' [= <-]. simpl. lia.
Qed.

Lemma exec_listen_eq s :
  exec re_listen s = star is_space s (fun s' => exec re_listen_plain s').
Proof. reflexivity. Qed.

Lemma exec_listen_plain_space c s :
  is_space c = true -> exec re_listen_plain (c :: s) = None.
Proof.
  intros Hc. apply exec_no_kw_ws. change (u "listen") with (108%N :: u "isten").
  rewrite kw_ws_cons. destruct (N.eqb_spec 108 c) as [<-|]; [discriminate|reflexivity].
Qed.

Lemma exec_listen_space c s :
  is_space c = true -> exec re_listen (c :: s) = exec re_listen s.
Proof.
  intros Hc. rewrite !exec_listen_eq. cbn [star]. rewrite Hc.
  rewrite (exec_listen_plain_space _ _ Hc).
  destruct (star is_space s _); reflexivity.
Qed.

Lemma exec_listen_not_space s :
  stops is_space s = true -> exec re_listen s = exec re_listen_plain s.
Proof. intros Hs. rewrite exec_listen_eq. apply star_stops. exact Hs. Qed.

Lemma exec_listen_len s rest caps :
  exec re_listen s = Some (rest, caps) -> length rest < length s.
Proof.
  rewrite exec_listen_eq. intros Hr.
  apply star_len with (n := 6) in Hr; [simpl in Hr; lia|].
  intros s' res' Hr'.
  apply (rmatch_after_kw_len (u "listen")) in Hr'. exact Hr'.
Qed.

(** The leading [\s*] moves where a match starts, not what it captures. *)
Lemma matchAll_listen_plain s : forall n,
  matchAll_from re_listen s n = matchAll_from re_listen_plain s n.
Proof.
  induction s as [|c s IH]; intros [|n]; try reflexivity.
  2:{ cbn [matchAll_from]. apply IH. }
  - cbn [matchAll_from]. destruct (is_space c) eqn:Hc.
    + rewrite (exec_listen_space _ _ Hc), (exec_listen_plain_space _ _ Hc).
      rewrite <- IH.
      destruct (exec re_listen s) as [[rest caps]|] eqn:E; [|reflexivity].
      pose proof (exec_listen_len _ _ _ E) as Hlen.
      destruct s as [|c' s]; [simpl in Hlen; lia|].
      cbn [matchAll_from]. rewrite E. f_equal.
      cbn [length] in *.
      replace (Nat.pred (S (S (length s)) - length rest)) with (S (Nat.pred (S (length s) - length rest))) by lia.
      reflexivity.
    + rewrite exec_listen_not_space by (simpl; rewrite Hc; reflexivity).
      destruct (exec re_listen_plain (c :: s)) as [[rest caps]|]; [f_equal|]; apply IH.
Qed.

Lemma matchAll_from_skip r a b :
  matchAll_from r (a ++ b) (length a) = matchAll_from r b 0.
Proof. induction a as [|c a IH]; [reflexivity|exact IH]. Qed.

Lemma matchAll_from_no_hit kw r a b :
  hits (kw_ws kw) a b = false ->
  matchAll_from (after_kw kw r) (a ++ b) 0 = matchAll_from (after_kw kw r) b 0.
Proof.
  induction a as [|c a IH]; [reflexivity|].
  simpl hits. intros Hh. apply orb_false_iff in Hh as [Hc Ha].
  change ((c :: a) ++ b) with (c :: a ++ b).
  cbn [matchAll_from]. rewrite (exec_no_kw_ws _ _ _ Hc). auto.
Qed.

Lemma matchAll_from_none kw r s : forall n,
  occ (kw_ws kw) s = false -> matchAll_from (after_kw kw r) s n = [].
Proof.
  induction s as [|c s IH]; intros n; simpl occ; intros Ho.
  - destruct n; [|reflexivity]. cbn [matchAll_from].
    rewrite exec_no_kw_ws; [reflexivity|apply kw_ws_nil].
  - apply orb_false_iff in Ho as [Hc Hs]. destruct n as [|n]; cbn [matchAll_from].
    + rewrite (exec_no_kw_ws _ _ _ Hc). auto.
    + auto.
Qed.

Lemma matchAll_from_hit r a b caps :
  a <> [] -> exec r (a ++ b) = Some (b, caps) ->
  matchAll_from r (a ++ b) 0 = caps :: matchAll_from r b 0.
Proof.
  destruct a as [|c a]; [congruence|]. intros _ He.
  change ((c :: a) ++ b) with (c :: a ++ b) in *.
  cbn [matchAll_from]. rewrite He. f_equal.
  cbn [length]. rewrite length_app.
  replace (Nat.pred (S (length a + length b) - length b)) with (length a) by lia.
  apply matchAll_from_skip.
Qed.

Lemma space_not_digit c : is_space c = true -> is_digit c = false.
Proof.
  intros Hc. unfold is_digit. apply not_true_is_false. intros Hd.
  apply andb_true_iff in Hd as [H1 H2]. apply N.leb_le in H1, H2.
  unfold is_space, char_in in Hc.
  apply existsb_exists in Hc as [y [Hy Hx]]. apply N.eqb_eq in Hx. subst y.
  repeat (destruct Hy as [Hy|Hy]; [lia|]). destruct Hy.
Qed.

(** [listen], whitespace, then a value: the leading digits are captured. *)
Lemma exec_listen_digits sp ds rest :
  sp <> [] -> forallb is_space sp = true ->
  ds <> [] -> forallb is_digit ds = true -> stops is_digit rest = true ->
  exec re_listen_plain (u "listen" ++ sp ++ ds ++ rest) = Some (rest, [ds]).
Proof.
  intros Hne Hsp Hds Hdig Hrest. unfold exec, re_listen_plain.
  destruct ds as [|c ds]; [congruence|]. simpl in Hdig.
  apply andb_true_iff in Hdig as [Hc Hdig].
  apply rmatch_after_kw; try assumption.
  - simpl. apply negb_true_iff. destruct (is_space c) eqn:E; [|reflexivity].
    apply space_not_digit in E. congruence.
  - cbn [rmatch app cls_match]. rewrite Hc.
    apply star_app_some; [assumption|].
    rewrite star_stops by assumption.
    do 2 f_equal. simpl app at 1. f_equal.
    change (c :: ds ++ rest) with ((c :: ds) ++ [] ++ rest).
    change rest with ([] ++ rest) at 3.
    apply take_app_exact.
Qed.

Lemma rmatch_after_kw_none kw r sp rest caps k :
  forallb is_space sp = true -> stops is_space rest = true ->
  (forall a1 a2, sp = a1 ++ a2 -> rmatch r (a2 ++ rest) caps k = None) ->
  rmatch (after_kw kw r) (kw ++ sp ++ rest) caps k = None.
Proof.
  intros Hsp Hrest Hr. unfold after_kw. cbn [rmatch]. rewrite strip_prefix_app.
  destruct sp as [|c sp].
  - destruct rest as [|d rest]; [reflexivity|]. simpl in *.
    apply negb_true_iff in Hrest. rewrite Hrest. reflexivity.
  - simpl in Hsp. apply andb_true_iff in Hsp as [Hc Hsp].
    change ((c :: sp) ++ rest) with (c :: sp ++ rest). cbn [cls_match]. rewrite Hc.
    apply star_app_none; [assumption| |].
    + rewrite star_stops by assumption. apply (Hr (c :: sp) []). symmetry. apply app_nil_r.
    + intros a1 a2 -> _. apply (Hr (c :: a1) a2). reflexivity.
Qed.

(** [listen], whitespace, then a value that does not begin with a digit:
    no match. *)
Lemma exec_listen_no_digit sp rest :
  forallb is_space sp = true ->
  stops is_space rest = true -> stops is_digit rest = true ->
  exec re_listen_plain (u "listen" ++ sp ++ rest) = None.
Proof.
  intros Hsp Hrs Hrd. unfold exec, re_listen_plain.
  apply rmatch_after_kw_none; try assumption.
  intros a1 a2 ->. rewrite forallb_app in Hsp. apply andb_true_iff in Hsp as [_ Hsp].
  destruct a2 as [|c a2].
  - destruct rest as [|d rest]; [reflexivity|]. simpl in *.
    apply negb_true_iff in Hrd. rewrite Hrd. reflexivity.
  - simpl in *. apply andb_true_iff in Hsp as [Hc _].
    rewrite (space_not_digit _ Hc). reflexivity.
Qed.

(** * Occurrences of a keyword *)

Lemma contains_occ p s : contains p s = occ (starts_with p) s.
Proof.
  induction s as [|c s IH]; simpl; [apply orb_false_r|]. rewrite IH. reflexivity.
Qed.

Lemma occ_hits tst s : occ tst s = false -> hits tst s [] = false.
Proof.
  induction s as [|c s IH]; [reflexivity|]. simpl.
  rewrite app_nil_r. intros Ho. apply orb_false_iff in Ho as [-> Ho]. auto.
Qed.

Lemma hits_mono (t1 t2 : jstr -> bool) a b :
  (forall s, t2 s = false -> t1 s = false) ->
  hits t2 a b = false -> hits t1 a b = false.
Proof.
  intros Ht. induction a as [|c a IH]; [reflexivity|]. simpl.
  intros Hh. apply orb_false_iff in Hh as [Hc Ha].
  rewrite (Ht _ Hc). auto.
Qed.

Lemma kw_ws_starts_with kw s : starts_with kw s = false -> kw_ws kw s = false.
Proof.
  unfold starts_with, kw_ws. destruct (strip_prefix kw s); [discriminate|reflexivity].
Qed.

Lemma starts_with_cons k kw c s :
  starts_with (k :: kw) (c :: s) = N.eqb k c && starts_with kw s.
Proof. unfold starts_with. simpl. destruct (N.eqb k c); reflexivity. Qed.

Lemma starts_with_frame kw l d b :
  char_in kw d = false -> starts_with kw (l ++ d :: b) = starts_with kw l.
Proof.
  revert l. induction kw as [|k kw IH]; intros l Hd; [reflexivity|].
  simpl in Hd. apply orb_false_iff in Hd as [Hk Hd].
  destruct l as [|c l].
  - simpl app. rewrite starts_with_cons, (N.eqb_sym k d), Hk. reflexivity.
  - change ((c :: l) ++ d :: b) with (c :: l ++ d :: b).
    rewrite !starts_with_cons, IH by assumption. reflexivity.
Qed.

(** A text without the keyword, then a character foreign to it: no
    occurrence starts inside, whatever follows. *)
Lemma hits_no_kw kw t d b :
  contains kw t = false -> char_in kw d = false ->
  hits (kw_ws kw) (t ++ [d]) b = false.
Proof.
  intros Ht Hd. apply (hits_mono _ (starts_with kw)); [apply kw_ws_starts_with|].
  rewrite contains_occ in Ht.
  induction t as [|c t IH].
  - simpl. rewrite orb_false_r.
    change (d :: b) with ([] ++ d :: b). rewrite starts_with_frame by assumption.
    simpl in Ht. exact Ht.
  - simpl in Ht. apply orb_false_iff in Ht as [Hc Ht].
    change ((c :: t) ++ [d]) with (c :: t ++ [d]). simpl hits.
    rewrite (IH Ht), orb_false_r.
    rewrite <- app_assoc. change (c :: t ++ [d] ++ b) with ((c :: t) ++ d :: b).
    rewrite starts_with_frame by assumption. exact Hc.
Qed.

(** No occurrence starts at a character other than the keyword's first. *)
Lemma hits_other_head k kw a b :
  forallb (fun c => negb (N.eqb k c)) a = true ->
  hits (kw_ws (k :: kw)) a b = false.
Proof.
  induction a as [|c a IH]; [reflexivity|]. simpl.
  intros Ha. apply andb_true_iff in Ha as [Hc Ha].
  rewrite kw_ws_cons. apply negb_true_iff in Hc. rewrite Hc. auto.
Qed.

Lemma contains_drop_while p kw v :
  contains kw v = false -> contains kw (drop_while p v) = false.
Proof.
  induction v as [|c v IH]; [trivial|]. intros Hv. simpl drop_while.
  destruct (p c); [|exact Hv]. simpl in Hv.
  apply orb_false_iff in Hv as [_ Hv]. auto.
Qed.

Lemma take_drop_while p (v : jstr) : take_while p v ++ drop_while p v = v.
Proof.
  induction v as [|c v IH]; [reflexivity|]. simpl.
  destruct (p c); [simpl; f_equal; exact IH|reflexivity].
Qed.

Lemma take_while_all p (v : jstr) : forallb p (take_while p v) = true.
Proof.
  induction v as [|c v IH]; [reflexivity|]. simpl.
  destruct (p c) eqn:E; [simpl; rewrite E; exact IH|reflexivity].
Qed.

Lemma drop_while_stops p (v : jstr) : stops p (drop_while p v) = true.
Proof.
  induction v as [|c v IH]; [reflexivity|]. simpl.
  destruct (p c) eqn:E; [exact IH|simpl; rewrite E; reflexivity].
Qed.

(** * A keyword in front of its first occurrence *)

Lemma starts_with_within kw : forall p r,
  length kw <= length p -> starts_with kw (p ++ r) = starts_with kw p.
Proof.
  unfold starts_with.
  induction kw as [|k kw IH]; intros p r Hl; [reflexivity|].
  destruct p as [|c p]; [cbn in Hl; lia|].
  cbn [app strip_prefix]. destruct (N.eqb k c); [|reflexivity].
  apply IH. cbn in Hl. lia.
Qed.

(** A keyword read across the beginning of its own occurrence is
    followed by one of its own characters. *)
Lemma kw_ws_overlap : forall kw p kw2 b,
  length p <= length kw -> length kw < length p + length kw2 ->
  no_space kw2 = true ->
  kw_ws kw (p ++ kw2 ++ b) = false.
Proof.
  induction kw as [|k kw IH]; intros p kw2 b Hp Hk Hs.
  - destruct p; [|cbn in Hp; lia].
    destruct kw2 as [|c kw2]; [cbn in Hk; lia|].
    cbn in Hs. apply andb_true_iff in Hs as [Hc _].
    unfold kw_ws. cbn. apply negb_true_iff in Hc. exact Hc.
  - destruct p as [|c p].
    + destruct kw2 as [|c kw2]; [cbn in Hk; lia|].
      cbn [app]. rewrite kw_ws_cons.
      cbn in Hs. apply andb_true_iff in Hs as [_ Hs].
      assert (E : kw_ws kw ([] ++ kw2 ++ b) = false)
        by (apply IH; [cbn; lia|cbn in *; lia|exact Hs]).
      cbn [app] in E. rewrite E. apply andb_false_r.
    + cbn [app]. rewrite kw_ws_cons.
      rewrite (IH p kw2 b); [apply andb_false_r|cbn in *; lia|cbn in *; lia|exact Hs].
Qed.

(** A keyword is found nowhere in front of its first occurrence. *)
Lemma hits_before_kw kw p b :
  no_space kw = true -> contains kw p = false ->
  hits (kw_ws kw) p (kw ++ b) = false.
Proof.
  intros Hs. induction p as [|c p IH]; [reflexivity|].
  cbn [contains hits]. intros Hc. apply orb_false_iff in Hc as [Hst Hc].
  rewrite (IH Hc), orb_false_r.
  destruct (le_lt_dec (length kw) (length (c :: p))) as [Hl|Hl].
  - apply kw_ws_starts_with. rewrite starts_with_within by assumption. exact Hst.
  - apply kw_ws_overlap; [lia|cbn in *; lia|exact Hs].
Qed.

(** * Port parsing over a file given line by line *)

Lemma hits_value_end v b :
  contains (u "listen") v = false ->
  hits (kw_ws (u "listen")) (v ++ u ";" ++ nl) b = false.
Proof.
  intros Hv. change (v ++ u ";" ++ nl) with (v ++ [59%N] ++ [10%N]).
  rewrite app_assoc, hits_app.
  rewrite hits_no_kw by (assumption || reflexivity).
  reflexivity.
Qed.

Lemma matchAll_plain_no_hit a b :
  hits (kw_ws (u "listen")) a b = false ->
  matchAll_from re_listen_plain (a ++ b) 0 = matchAll_from re_listen_plain b 0.
Proof. apply matchAll_from_no_hit. Qed.

Lemma hits_listen_spaces sp b :
  forallb is_space sp = true -> hits (kw_ws (u "listen")) sp b = false.
Proof.
  intros Hsp. apply (hits_other_head 108%N (u "isten")).
  induction sp as [|c sp IH]; [reflexivity|]. cbn [forallb] in *.
  apply andb_true_iff in Hsp as [Hc Hsp]. rewrite (IH Hsp), andb_true_r.
  destruct (N.eqb_spec 108 c) as [<-|]; [discriminate|reflexivity].
Qed.

Lemma matchAll_other t rest :
  contains (u "listen") t = false ->
  matchAll_from re_listen_plain (t ++ nl ++ rest) 0
  = matchAll_from re_listen_plain rest 0.
Proof.
  intros Ht. rewrite app_assoc. apply matchAll_plain_no_hit.
  apply hits_no_kw; [assumption|reflexivity].
Qed.

Lemma matchAll_listen_line front sep value rest :
  line_ok (Listen front sep value) = true ->
  matchAll_from re_listen_plain (render_line (Listen front sep value) ++ rest) 0
  = match take_while is_digit value with
    | [] => matchAll_from re_listen_plain rest 0
    | ds => [ds] :: matchAll_from re_listen_plain rest 0
    end.
Proof.
  unfold line_ok. rewrite !andb_true_iff, !negb_true_iff.
  intros [[[[Hi Hne] Hsp] Hv] Hc].
  apply bool_decide_eq_false in Hne.
  unfold render_line. rewrite <- !app_assoc.
  rewrite matchAll_plain_no_hit by (apply hits_before_kw; [reflexivity|assumption]).
  pose proof (take_drop_while is_digit value) as Hsplit.
  pose proof (take_while_all is_digit value) as Hds.
  pose proof (drop_while_stops is_digit value) as Hst.
  pose proof (contains_drop_while is_digit _ _ Hc) as Hc'.
  destruct (take_while is_digit value) as [|d ds].
  - (* no digit: the attempt at the keyword fails, and nothing follows *)
    simpl in Hsplit. rewrite Hsplit in *.
    assert (He : exec re_listen_plain
                   (u "listen" ++ sep ++ value ++ u ";" ++ nl ++ rest) = None).
    { apply exec_listen_no_digit; [assumption| |].
      - destruct value; [reflexivity|exact Hv].
      - destruct value; [reflexivity|exact Hst]. }
    change (u "listen" ++ sep ++ value ++ u ";" ++ nl ++ rest)
      with (108%N :: (u "isten" ++ sep ++ value ++ u ";" ++ nl ++ rest)) in *.
    cbn [matchAll_from]. rewrite He.
    replace (u "isten" ++ sep ++ value ++ u ";" ++ nl ++ rest)
      with ((u "isten" ++ sep ++ (value ++ u ";" ++ nl)) ++ rest)
      by (rewrite <- !app_assoc; reflexivity).
    apply matchAll_plain_no_hit.
    rewrite (hits_app _ (u "isten")), (hits_app _ sep).
    rewrite hits_value_end, (hits_listen_spaces sep) by assumption.
    rewrite (hits_other_head 108%N (u "isten") (u "isten")) by reflexivity.
    reflexivity.
  - replace (u "listen" ++ sep ++ value ++ u ";" ++ nl ++ rest)
      with ((u "listen" ++ sep ++ d :: ds)
            ++ (drop_while is_digit value ++ u ";" ++ nl) ++ rest).
    2:{ rewrite <- Hsplit at 2. rewrite <- !app_assoc. reflexivity. }
    rewrite (matchAll_from_hit _ _ _ [d :: ds]).
    + f_equal. apply matchAll_plain_no_hit. apply hits_value_end. assumption.
    + discriminate.
    + rewrite <- !app_assoc. apply exec_listen_digits; try assumption; try discriminate.
      destruct (drop_while is_digit value); [reflexivity|exact Hst].
Qed.

Lemma omap_cons {A B} (f : A -> option B) x l :
  omap f (x :: l) = match f x with Some y => y :: omap f l | None => omap f l end.
Proof. reflexivity. Qed.

Lemma matchAll_lines ls :
  forallb line_ok ls = true ->
  omap port_of_match (matchAll_from re_listen_plain (render_lines ls) 0)
  = omap line_port ls.
Proof.
  induction ls as [|l ls IH]; [reflexivity|]. cbn [forallb].
  intros Hok. apply andb_true_iff in Hok as [Hl Hls].
  specialize (IH Hls). unfold render_lines in *. cbn [map concat].
  rewrite (omap_cons line_port).
  destruct l as [front sep value|text].
  - rewrite (matchAll_listen_line _ _ _ _ Hl).
    cbn [line_port]. unfold leading_number.
    destruct (take_while is_digit value) as [|d ds]; [exact IH|].
    rewrite omap_cons. cbn [port_of_match]. rewrite IH. reflexivity.
  - cbn [line_ok] in Hl. apply negb_true_iff in Hl.
    cbn [render_line line_port]. rewrite <- app_assoc, matchAll_other by assumption.
    exact IH.
Qed.

(** * Numbers *)

Lemma chars_uint_chars d : chars_uint (uint_chars d) = Some d.
Proof. induction d; simpl; try rewrite IHd; reflexivity. Qed.

Lemma uint_chars_digits d : forallb is_digit (uint_chars d) = true.
Proof. induction d; simpl; try rewrite IHd; reflexivity. Qed.

Lemma uint_chars_nil d : uint_chars d = [] -> d = Decimal.Nil.
Proof. destruct d; simpl; congruence. Qed.

Lemma digit_not_space c : is_digit c = true -> is_space c = false.
Proof.
  intros Hd. destruct (is_space c) eqn:E; [|reflexivity].
  apply space_not_digit in E. congruence.
Qed.

Lemma digits_no_space s : forallb is_digit s = true -> no_space s = true.
Proof.
  induction s as [|c s IH]; [reflexivity|]. simpl.
  intros Hs. apply andb_true_iff in Hs as [Hc Hs].
  rewrite (digit_not_space _ Hc). auto.
Qed.

Lemma drop_while_no_space s : no_space s = true -> drop_while is_space s = s.
Proof.
  destruct s as [|c s]; [reflexivity|]. simpl.
  intros Hs. apply andb_true_iff in Hs as [Hc _].
  apply negb_true_iff in Hc. rewrite Hc. reflexivity.
Qed.

Lemma no_space_rev s : no_space (rev s) = no_space s.
Proof.
  unfold no_space. induction s as [|c s IH]; [reflexivity|].
  cbn [rev forallb]. rewrite forallb_app. cbn [forallb]. rewrite IH, andb_true_r. apply andb_comm.
Qed.

Lemma trim_no_space s : no_space s = true -> trim s = s.
Proof.
  intros Hs. unfold trim. rewrite (drop_while_no_space s Hs).
  rewrite drop_while_no_space by (rewrite no_space_rev; exact Hs).
  apply rev_involutive.
Qed.

Lemma digits_shape y : digits y <> [] /\ forallb is_digit (digits y) = true.
Proof.
  destruct y as [|p|p]; try (split; [discriminate|reflexivity]).
  split; [|apply uint_chars_digits].
  cbn [digits]. intros E. apply uint_chars_nil in E.
  exact (DecimalPos.Unsigned.to_uint_nonnil p E).
Qed.

(** A run of digits is read as the Number nearest to what it denotes. *)
Lemma to_number_digits y : (0 < y)%Z -> to_number (digits y) = Some (number_of y).
Proof.
  destruct y as [|p|p]; try lia. intros _. unfold to_number. cbn [digits].
  rewrite trim_no_space by (apply digits_no_space, uint_chars_digits).
  rewrite chars_uint_chars. unfold N.of_uint.
  rewrite DecimalPos.Unsigned.of_to. reflexivity.
Qed.

Lemma round53_small n : (n < 2 ^ 53)%Z -> round53 n = n.
Proof. intros Hn. unfold round53. rewrite (proj2 (Z.ltb_lt _ _) Hn). reflexivity. Qed.

Lemma candidate_sound v unit s k y :
  (0 < unit)%Z -> candidate v unit s k = Some y -> round53 y = v /\ (0 < y)%Z.
Proof.
  intros Hu. unfold candidate.
  destruct (10 ^ Z.of_nat (k - 1) <=? s)%Z eqn:E1; [|discriminate].
  destruct (s <? 10 ^ Z.of_nat k)%Z; [|discriminate].
  destruct (round53 (s * unit) =? v)%Z eqn:E3; [|discriminate].
  cbn. intros [= <-]. apply Z.eqb_eq in E3. apply Z.leb_le in E1.
  split; [exact E3|].
  assert (0 < 10 ^ Z.of_nat (k - 1))%Z by (apply Z.pow_pos_nonneg; lia).
  apply Z.mul_pos_pos; lia.
Qed.

Lemma shortest_at_sound v n k y :
  shortest_at v n k = Some y -> round53 y = v /\ (0 < y)%Z.
Proof.
  unfold shortest_at.
  assert (Hu : (0 < 10 ^ Z.of_nat (n - k))%Z) by (apply Z.pow_pos_nonneg; lia).
  destruct (candidate v _ (v / _) k) as [a|] eqn:Ea;
    destruct (candidate v _ (v / _ + 1) k) as [b|] eqn:Eb; try discriminate;
    intros [= <-];
    try (apply (candidate_sound _ _ _ _ _ Hu) in Ea);
    try (apply (candidate_sound _ _ _ _ _ Hu) in Eb);
    repeat match goal with |- context [if ?c then _ else _] => destruct c end;
    assumption.
Qed.

(** The digits shown for a Number stand for a value that rounds to it. *)
Lemma shortest_sound v :
  (0 < v)%Z -> round53 v = v -> round53 (shortest v) = v /\ (0 < shortest v)%Z.
Proof.
  intros Hv Hr. unfold shortest.
  destruct (round53 (10 ^ Z.of_nat (length (digits v))) =? v)%Z eqn:Ep.
  { apply Z.eqb_eq in Ep. split; [exact Ep|]. apply Z.pow_pos_nonneg; lia. }
  induction (seq 1 (length (digits v))) as [|k ks IH]; cbn [shortest_from]; [auto|].
  destruct (shortest_at v _ k) as [y|] eqn:E; [|exact IH].
  exact (shortest_at_sound _ _ _ _ E).
Qed.

(** A Number below 10^21 is printed as the digits of a value that is
    read back as that Number. *)
Lemma Z_to_jstr_reads_back z :
  (0 < z < 10 ^ 21)%Z -> round53 z = z ->
  exists y, (0 < y)%Z /\ Z_to_jstr z = digits y /\ to_number (digits y) = Some (Int z).
Proof.
  intros [Hz Hlt] Hr.
  assert (Hbig : (10 ^ 21 < 2 ^ 1024)%Z) by reflexivity.
  assert (Hn : number_of z = Int z).
  { unfold number_of. rewrite Hr.
    rewrite (proj2 (Z.ltb_lt _ _)) by lia. reflexivity. }
  destruct z as [|p|p]; try lia.
  unfold Z_to_jstr. rewrite Hn. cbn [number_to_jstr].
  destruct (Z.pos p <? 2 ^ 53)%Z.
  - exists (Z.pos p). split; [lia|]. split; [reflexivity|].
    rewrite to_number_digits by lia. rewrite Hn. reflexivity.
  - rewrite (proj2 (Z.ltb_lt _ _) Hlt).
    destruct (shortest_sound (Z.pos p) Hz Hr) as [Hs Hpos].
    exists (shortest (Z.pos p)). split; [exact Hpos|]. split; [reflexivity|].
    rewrite to_number_digits by exact Hpos.
    unfold number_of. rewrite Hs.
    rewrite (proj2 (Z.ltb_lt _ _)) by lia. reflexivity.
Qed.

Lemma exponent_form_nonempty y : exponent_form y <> [].
Proof.
  unfold exponent_form.
  destruct (rev (drop_while (N.eqb 48) (rev (digits y)))) as [|c [|c' ds]];
    discriminate.
Qed.

Lemma number_to_jstr_nonempty x : number_to_jstr x <> [].
Proof.
  destruct x as [v|]; [|discriminate]. cbn [number_to_jstr].
  destruct (v <? 2 ^ 53)%Z; [apply digits_shape|].
  destruct (v <? 10 ^ 21)%Z; [apply digits_shape|apply exponent_form_nonempty].
Qed.

Lemma Z_to_jstr_nonempty z : Z_to_jstr z <> [].
Proof.
  destruct z as [|p|p]; [discriminate|apply number_to_jstr_nonempty|discriminate].
Qed.

(** * The ports of a file, place by place *)

Lemma kw_ws_app kw t :
  kw_ws kw (kw ++ t) = match t with c :: _ => is_space c | [] => false end.
Proof. unfold kw_ws. rewrite strip_prefix_app. reflexivity. Qed.

Lemma take_while_nil_stops p (s : jstr) : take_while p s = [] -> stops p s = true.
Proof.
  destruct s as [|c s]; [reflexivity|]. cbn. destruct (p c); [discriminate|reflexivity].
Qed.

(** An attempt of the expression at the head of [s] succeeds where
    [listen_at] says, with the capture it says. *)
Lemma exec_listen_at s :
  match listen_at s with
  | Some ds =>
      exists sp rest,
        s = u "listen" ++ sp ++ ds ++ rest
        /\ forallb is_space sp = true /\ forallb is_digit ds = true
        /\ exec re_listen_plain s = Some (rest, [ds])
  | None => exec re_listen_plain s = None
  end.
Proof.
  unfold listen_at. destruct (strip_prefix (u "listen") s) as [t|] eqn:E.
  2:{ unfold exec, re_listen_plain, after_kw. cbn [rmatch]. rewrite E. reflexivity. }
  apply strip_prefix_Some in E. subst s.
  pose proof (take_drop_while is_space t) as Ht.
  pose proof (take_while_all is_space t) as Hsp.
  pose proof (drop_while_stops is_space t) as Hst.
  destruct (take_while is_space t) as [|c sp] eqn:Esp.
  { apply exec_no_kw_ws. rewrite kw_ws_app.
    apply take_while_nil_stops in Esp. destruct t; [reflexivity|].
    cbn in Esp. apply negb_true_iff. exact Esp. }
  pose proof (take_drop_while is_digit (drop_while is_space t)) as Hd.
  pose proof (take_while_all is_digit (drop_while is_space t)) as Hdig.
  pose proof (drop_while_stops is_digit (drop_while is_space t)) as Hstd.
  destruct (take_while is_digit (drop_while is_space t)) as [|d ds] eqn:Eds.
  - rewrite <- Ht. apply exec_listen_no_digit; try assumption.
    apply take_while_nil_stops. exact Eds.
  - exists (c :: sp), (drop_while is_digit (drop_while is_space t)).
    rewrite Hd, Ht. repeat split; try assumption.
    rewrite <- Ht at 1. rewrite <- Hd at 1.
    apply exec_listen_digits; try assumption; discriminate.
Qed.

Lemma listen_at_head c s : N.eqb c 108 = false -> listen_at (c :: s) = None.
Proof.
  intros Hc. unfold listen_at. change (u "listen") with (108%N :: u "isten").
  cbn [strip_prefix]. rewrite N.eqb_sym, Hc. reflexivity.
Qed.

Lemma space_not_l c : is_space c = true -> N.eqb c 108 = false.
Proof.
  intros Hc. destruct (N.eqb_spec c 108) as [->|]; [discriminate|reflexivity].
Qed.

Lemma digit_not_l c : is_digit c = true -> N.eqb c 108 = false.
Proof.
  intros Hc. destruct (N.eqb_spec c 108) as [->|]; [discriminate|reflexivity].
Qed.

(** No attempt succeeds inside a match behind its first character. *)
Lemma suffixes_inside {B} (g : option jstr -> option B) a b :
  g None = None ->
  forallb (fun c => negb (N.eqb c 108)) a = true ->
  omap (fun x => g (listen_at x)) (suffixes (a ++ b))
  = omap (fun x => g (listen_at x)) (suffixes b).
Proof.
  intros Hg. induction a as [|c a IH]; [reflexivity|].
  cbn [forallb]. intros Ha. apply andb_true_iff in Ha as [Hc Ha].
  apply negb_true_iff in Hc.
  change ((c :: a) ++ b) with (c :: a ++ b). cbn [suffixes].
  rewrite omap_cons, (listen_at_head _ _ Hc), Hg. exact (IH Ha).
Qed.

Lemma forallb_impl (p q : char -> bool) (s : jstr) :
  (forall c, p c = true -> q c = true) -> forallb p s = true -> forallb q s = true.
Proof.
  intros Hpq. induction s as [|c s IH]; [reflexivity|]. cbn [forallb].
  intros Hs. apply andb_true_iff in Hs as [Hc Hs]. rewrite (Hpq _ Hc), (IH Hs). reflexivity.
Qed.

(** The matches of the expression are the captures at the places where
    an attempt succeeds, in order. *)
Lemma matchAll_listen_suffixes s :
  matchAll_from re_listen_plain s 0
  = omap (fun x => option_map (fun ds => [ds]) (listen_at x)) (suffixes s).
Proof.
  remember (length s) as n eqn:Hn. revert s Hn.
  induction n as [n IH] using lt_wf_ind. intros s Hn.
  destruct s as [|c s].
  { reflexivity. }
  pose proof (exec_listen_at (c :: s)) as He.
  cbn [suffixes]. rewrite omap_cons. destruct (listen_at (c :: s)) as [ds|] eqn:El.
  - destruct He as (sp & rest & Hs & Hsp & Hdig & He).
    cbn [option_map]. rewrite Hs at 1.
    rewrite !app_assoc. rewrite (matchAll_from_hit _ _ _ [ds]).
    + f_equal. rewrite (IH (length rest)); [|subst n; rewrite Hs, !length_app; cbn; lia|reflexivity].
      assert (Hs' : s = u "isten" ++ sp ++ ds ++ rest).
      { change (u "listen") with (108%N :: u "isten") in Hs.
        cbn [app] in Hs. congruence. }
      rewrite Hs', !app_assoc.
      symmetry. apply (suffixes_inside (option_map (fun ds => [ds]))); [reflexivity|].
      rewrite !forallb_app. apply andb_true_intro. split; [apply andb_true_intro; split|].
      * reflexivity.
      * apply (forallb_impl is_space); [|exact Hsp].
        intros x Hx. rewrite (space_not_l _ Hx). reflexivity.
      * apply (forallb_impl is_digit); [|exact Hdig].
        intros x Hx. rewrite (digit_not_l _ Hx). reflexivity.
    + discriminate.
    + rewrite <- !app_assoc, <- Hs. exact He.
  - cbn [matchAll_from]. rewrite He.
    apply (IH (length s)); [subst n; cbn; lia|reflexivity].
Qed.

Lemma omap_omap {A B C} (g : A -> option B) (f : B -> option C) (l : list A) :
  omap f (omap g l) = omap (fun x => match g x with Some y => f y | None => None end) l.
Proof.
  induction l as [|x l IH]; [reflexivity|]. rewrite !omap_cons.
  destruct (g x) as [y|]; [|exact IH]. rewrite omap_cons, IH. reflexivity.
Qed.

(** The ports of a file are the numbers at the places where [listen] is
    followed by whitespace and a digit. *)
Lemma parse_ports_suffixes content : parse_ports content = omap port_at (suffixes content).
Proof.
  unfold parse_ports, matchAll.
  rewrite matchAll_listen_plain, matchAll_listen_suffixes, omap_omap.
  induction (suffixes content) as [|x l IH]; [reflexivity|]. rewrite !omap_cons.
  rewrite IH. unfold port_at. destruct (listen_at x); reflexivity.
Qed.

Lemma split_char_absent sep s :
  forallb (fun c => negb (N.eqb c sep)) s = true -> split_char sep s = [s].
Proof.
  induction s as [|c s IH]; [reflexivity|]. cbn [forallb split_char].
  intros Hs. apply andb_true_iff in Hs as [Hc Hs].
  apply negb_true_iff in Hc. rewrite Hc, (IH Hs). reflexivity.
Qed.

Lemma split_space_no_space s : no_space s = true -> split_char 32%N s = [s].
Proof.
  intros Hs. apply split_char_absent.
  induction s as [|c s IH]; [reflexivity|]. cbn [forallb no_space] in *.
  apply andb_true_iff in Hs as [Hc Hs]. rewrite (IH Hs), andb_true_r.
  destruct (N.eqb_spec c 32) as [->|]; [discriminate|reflexivity].
Qed.

(** * The generated configuration read back *)

(** No occurrence starts inside a text that is free of the keyword and
    is followed by a character foreign to it. *)
Lemma hits_free kw x d b :
  contains kw x = false -> char_in kw d = false ->
  hits (kw_ws kw) x (d :: b) = false.
Proof.
  intros Hx Hd. pose proof (hits_no_kw kw x d b Hx Hd) as Hh.
  rewrite hits_app in Hh. apply orb_false_iff in Hh as [Hh _]. exact Hh.
Qed.

(** Nor inside a text in which the keyword is nowhere followed by
    whitespace, if the character behind the text is not whitespace
    either. *)
Lemma kw_ws_inside kw : forall x d b,
  is_space d = false -> char_in kw d = false ->
  kw_ws kw (x ++ d :: b) = true -> kw_ws kw x = true.
Proof.
  induction kw as [|k kw IH]; intros x d b Hd Hk.
  - destruct x as [|c x]; unfold kw_ws; cbn [strip_prefix app]; [congruence|trivial].
  - destruct x as [|c x].
    + cbn [app]. rewrite kw_ws_cons. unfold char_in in Hk. cbn [existsb] in Hk.
      apply orb_false_iff in Hk as [Hk _]. rewrite (N.eqb_sym k d), Hk. discriminate.
    + cbn [app]. rewrite !kw_ws_cons. intros Hx.
      apply andb_true_iff in Hx as [-> Hx]. cbn.
      apply (IH x d b); [assumption| |assumption].
      unfold char_in in *. cbn [existsb] in Hk.
      apply orb_false_iff in Hk as [_ Hk]. exact Hk.
Qed.

Lemma hits_never_spaced kw x d b :
  occ (kw_ws kw) x = false -> is_space d = false -> char_in kw d = false ->
  hits (kw_ws kw) x (d :: b) = false.
Proof.
  intros Hx Hd Hk. induction x as [|c x IH]; [reflexivity|].
  cbn [occ] in Hx. apply orb_false_iff in Hx as [Hc Hx].
  cbn [hits]. rewrite (IH Hx), orb_false_r.
  destruct (kw_ws kw ((c :: x) ++ d :: b)) eqn:E; [|reflexivity].
  apply kw_ws_inside in E; [congruence|assumption|assumption].
Qed.

Ltac no_hit_atom :=
  first [ apply hits_no_space; [assumption | reflexivity]
        | apply hits_free; [assumption | reflexivity]
        | apply hits_never_spaced; [assumption | reflexivity | reflexivity]
        | reflexivity ].

Ltac no_hits :=
  repeat match goal with
         | |- occ _ (?a ++ ?b) = false =>
             rewrite (occ_app _ a b); apply orb_false_intro; [no_hit_atom|]
         | |- hits _ (?a ++ ?b) ?c = false =>
             rewrite (hits_app _ a b c); apply orb_false_intro;
             [rewrite <- ?app_assoc; no_hit_atom|]
         end;
  try no_hit_atom.

Lemma config_text_eq d root index :
  config_text d root index
  = u "server {" ++ nl ++ u "  " ++ u "listen" ++ u " " ++ to_jstr (d_port d)
    ++ text_after_port d root index.
Proof.
  unfold config_text, text_after_port, text_from_server_name, text_from_root,
    config_tail.
  cbn [app join]. rewrite <- !app_assoc. reflexivity.
Qed.

Lemma config_text_server_name d root index :
  config_text d root index
  = (u "server {" ++ nl ++ u "  listen " ++ to_jstr (d_port d) ++ u ";" ++ nl ++ u "  ")
    ++ text_from_server_name d root index.
Proof.
  rewrite config_text_eq. unfold text_after_port.
  rewrite <- !app_assoc. reflexivity.
Qed.

Lemma config_text_root d root index :
  config_text d root index
  = (u "server {" ++ nl ++ u "  listen " ++ to_jstr (d_port d) ++ u ";" ++ nl
     ++ u "  server_name " ++ to_jstr (d_host d) ++ u ";" ++ nl ++ u "  ")
    ++ text_from_root d root index.
Proof.
  rewrite config_text_server_name. unfold text_from_server_name.
  rewrite <- !app_assoc. reflexivity.
Qed.

Lemma config_tail_no_listen d index :
  occ (kw_ws (u "listen")) index = false ->
  occ (kw_ws (u "listen")) (to_jstr (d_php d)) = false ->
  occ (kw_ws (u "listen")) (to_jstr (d_proxyUrl d)) = false ->
  occ (kw_ws (u "listen")) (config_tail d index) = false.
Proof.
  intros Hi Hphp Hproxy. unfold config_tail.
  assert (Hfi : occ (kw_ws (u "listen"))
                  (if ends_with (u ".php") index then index else u "index.php") = false).
  { destruct (ends_with (u ".php") index); [assumption|reflexivity]. }
  destruct (truthy (d_proxyUrl d)), (truthy (d_php d));
    unfold proxy_block, php_block; cbn [app join]; rewrite <- ?app_assoc.
  all: no_hits.
Qed.

Lemma truthy_nonempty v : truthy v = true -> to_jstr v <> [].
Proof.
  destruct v as [| |[|]|z|[|c s]]; cbn [truthy to_jstr]; try discriminate.
  intros _. apply Z_to_jstr_nonempty.
Qed.

Lemma no_space_stops s : no_space s = true -> stops is_space s = true.
Proof.
  destruct s as [|c s]; [reflexivity|]. simpl.
  intros Hs. apply andb_true_iff in Hs as [-> _]. reflexivity.
Qed.

Lemma search_hit r s rest caps :
  exec r s = Some (rest, caps) -> search r s = Some caps.
Proof. intros He. destruct s; cbn [search]; rewrite He; reflexivity. Qed.

Section ReadBack.
Variables (d : SiteData) (z : Z) (root index : jstr).
Hypothesis Hport : d_port d = VNum z.
Hypothesis Hz : (0 < z < 10 ^ 21)%Z.
Hypothesis Hnumber : round53 z = z.
Hypothesis Hhost : truthy (d_host d) = true.
Hypothesis Hhost_hd : stops is_space (to_jstr (d_host d)) = true.
Hypothesis Hhost_line : one_line (to_jstr (d_host d)) = true.
Hypothesis Hhost_root : occ (kw_ws (u "root")) (to_jstr (d_host d)) = false.
Hypothesis Hhost_listen : occ (kw_ws (u "listen")) (to_jstr (d_host d)) = false.
Hypothesis Hroot : root <> [].
Hypothesis Hroot_hd : stops is_space root = true.
Hypothesis Hroot_line : one_line root = true.
Hypothesis Hroot_listen : occ (kw_ws (u "listen")) root = false.
Hypothesis Hindex_listen : occ (kw_ws (u "listen")) index = false.
Hypothesis Hphp_listen : occ (kw_ws (u "listen")) (to_jstr (d_php d)) = false.
Hypothesis Hproxy_listen : occ (kw_ws (u "listen")) (to_jstr (d_proxyUrl d)) = false.

Lemma port_digits :
  exists y, (0 < y)%Z /\ to_jstr (d_port d) = digits y
            /\ to_number (digits y) = Some (Int z).
Proof. rewrite Hport. apply Z_to_jstr_reads_back; assumption. Qed.

Lemma port_no_space : no_space (to_jstr (d_port d)) = true.
Proof.
  destruct port_digits as (y & _ & -> & _). apply digits_no_space, digits_shape.
Qed.

Lemma read_back_hosts :
  parse_hosts (config_text d root index) = split_char 32%N (to_jstr (d_host d)).
Proof.
  pose proof port_no_space as Hp.
  unfold parse_hosts. rewrite config_text_server_name.
  change re_server_name with (after_kw (u "server_name") (RSeq (RGroup (RPlus CDot)) (RLit (u ";")))).
  rewrite search_skip by no_hits.
  fold (dir_re (u "server_name")). unfold text_from_server_name.
  erewrite search_hit.
  2:{ apply exec_dir_value; try assumption; try reflexivity; try discriminate.
      apply truthy_nonempty. assumption. }
  reflexivity.
Qed.

Lemma read_back_root : parse_root (config_text d root index) = root.
Proof.
  pose proof port_no_space as Hp.
  unfold parse_root. rewrite config_text_root.
  change re_root with (after_kw (u "root") (RSeq (RGroup (RPlus CDot)) (RLit (u ";")))).
  rewrite search_skip by no_hits.
  fold (dir_re (u "root")). unfold text_from_root.
  erewrite search_hit.
  2:{ apply exec_dir_value; try assumption; try reflexivity; discriminate. }
  reflexivity.
Qed.

Lemma read_back_ports : parse_ports (config_text d root index) = [Int z].
Proof.
  destruct port_digits as (y & Hy & Hp & Hback).
  unfold parse_ports, matchAll. rewrite matchAll_listen_plain, config_text_eq, Hp.
  rewrite !(app_assoc (u "server {")), (app_assoc (u "server {" ++ nl)).
  rewrite matchAll_plain_no_hit by reflexivity.
  rewrite !(app_assoc (u "listen")), (app_assoc (u "listen" ++ u " ")).
  rewrite (matchAll_from_hit _ _ _ [digits y]).
  - rewrite omap_cons. cbn [port_of_match]. rewrite Hback.
    unfold re_listen_plain. rewrite matchAll_from_none; [reflexivity|].
    pose proof (config_tail_no_listen d index Hindex_listen Hphp_listen Hproxy_listen) as Ht.
    unfold text_after_port, text_from_server_name, text_from_root.
    rewrite <- ?app_assoc.
    repeat match goal with
           | |- occ _ (config_tail _ _) = false => exact Ht
           | |- occ _ (?a ++ ?b) = false =>
               rewrite (occ_app _ a b); apply orb_false_intro; [no_hit_atom|]
           end.
  - discriminate.
  - rewrite <- !app_assoc. apply exec_listen_digits; try reflexivity; try discriminate.
    + apply digits_shape.
    + apply digits_shape.
Qed.
End ReadBack.

(** * Stepping through a handler *)

Lemma bind_ok {A B} (m : M A) (k : A -> M B) s s' b :
  bind m k s = (s', Ok b) ->
  exists s1 a, m s = (s1, Ok a) /\ k a s1 = (s', Ok b).
Proof.
  unfold bind. destruct (m s) as [s1 [a|e]]; [eauto|discriminate].
Qed.

Lemma lift_ok {A} (r : result A) s s' a : lift r s = (s', Ok a) -> s' = s /\ r = Ok a.
Proof. unfold lift. intros [= -> ->]. auto. Qed.

Lemma fs_write_ok op s s' x :
  fs_write op s = (s', Ok x) -> exists f, op (files s) = Ok f /\ s' = set_files f s.
Proof.
  unfold fs_write. destruct (op (files s)) as [f|e]; [|discriminate].
  intros [= <- _]. eauto.
Qed.

Lemma fs_read_ok {A} (op : fs -> result A) s s' a :
  fs_read op s = (s', Ok a) -> s' = s /\ op (files s) = Ok a.
Proof. unfold fs_read. intros [= -> ->]. auto. Qed.

Lemma guard_ok (b : bool) e s s' x :
  (if b then throw e else ret tt) s = (s', Ok x) -> b = false /\ s' = s.
Proof. destruct b; unfold throw, ret; intros [= <-]; auto. Qed.

(** * Making an entry *)

Lemma create_ok f p n f' :
  create f p n = Ok f' -> check_parent f p = Ok tt /\ f' = <[p := n]> f.
Proof.
  unfold create. destruct (check_parent f p) as [[]|e]; [|discriminate].
  intros [= <-]. auto.
Qed.

Lemma create_parent f p n : check_parent f p = Ok tt -> create f p n = Ok (<[p := n]> f).
Proof. unfold create. intros ->. reflexivity. Qed.

Lemma writeFileSync_exists f p text f' :
  writeFileSync f p text = Ok f' -> existsSync f' p = true.
Proof.
  unfold writeFileSync, existsSync.
  destruct (f !! p) as [[c| |t]|] eqn:Ep.
  - intros [= <-]. rewrite lookup_insert_eq. reflexivity.
  - discriminate.
  - destruct (f !! t) as [[c'| |t']|] eqn:Et; try discriminate;
      intros Hw; try (apply create_ok in Hw as [_ Hw]); try injection Hw as Hw;
      subst f'; destruct (decide (t = p)) as [->|Hne];
      rewrite ?lookup_insert_eq; try reflexivity;
      rewrite lookup_insert_ne, Ep, ?lookup_insert_eq by assumption; reflexivity.
  - intros Hw. apply create_ok in Hw as [_ ->]. rewrite lookup_insert_eq. reflexivity.
Qed.

(** Whether a new entry can be made at [p] is the same after the content
    of a file has changed. *)
Lemma is_directory_file_content f a c1 c2 d :
  f !! a = Some (File c1) ->
  is_directory (<[a := File c2]> f) d = is_directory f d.
Proof.
  intros Ha. unfold is_directory. f_equal.
  destruct (decide (d = a)) as [->|Hd].
  - rewrite lookup_insert_eq, Ha. reflexivity.
  - rewrite lookup_insert_ne by congruence.
    destruct (f !! d) as [[c| |t]|]; try reflexivity.
    destruct (decide (t = a)) as [->|Ht].
    + rewrite lookup_insert_eq, Ha. reflexivity.
    + rewrite lookup_insert_ne by congruence. reflexivity.
Qed.

Lemma check_parent_file_content f a c1 c2 p :
  f !! a = Some (File c1) ->
  check_parent (<[a := File c2]> f) p = check_parent f p.
Proof.
  intros Ha. unfold check_parent. destruct (dirname p) as [d|]; [|reflexivity].
  rewrite (is_directory_file_content f a c1 c2 d Ha).
  destruct (is_directory f d); [reflexivity|].
  destruct (decide (d = a)) as [->|Hd].
  - rewrite lookup_insert_eq, Ha. reflexivity.
  - rewrite lookup_insert_ne by congruence. reflexivity.
Qed.

Section Handlers.
Context `{H : Host}.

Lemma newSite_press_changed text s :
  trim text <> trim (initialContent s) ->
  newSite_press text s
  = match newSite_try text s with
    | (s', Ok _) => (Done, s')
    | (s', Err e) => (Failed e, set_lastFailed (Some text) s')
    end.
Proof.
  intros Hne. unfold newSite_press. fold (initialContent s).
  destruct (decide (trim text = trim (initialContent s))); [contradiction|reflexivity].
Qed.

Lemma newSite_try_missing text s d :
  yaml_parse_site text = Ok d -> missing_required d = true ->
  newSite_try text s = (s, Err (Error (u "Missing one or more required fields"))).
Proof.
  intros Hp Hm. unfold newSite_try, bind, lift. rewrite Hp, Hm. reflexivity.
Qed.

Lemma newSite_try_taken text s d :
  yaml_parse_site text = Ok d -> missing_required d = false ->
  existsSync (files s) (path_in (sitesAvailable (config s)) (to_jstr (d_name d))) = true ->
  newSite_try text s = (s, Err (Error (u "Site already exists"))).
Proof.
  intros Hp Hm He. unfold newSite_try, bind, lift, get, fs_exists.
  rewrite Hp, Hm. cbn. rewrite He. reflexivity.
Qed.

(** What a successful creation leaves behind. *)
Lemma newSite_try_done text s s' x :
  newSite_try text s = (s', Ok x) ->
  exists d server,
    yaml_parse_site text = Ok d
    /\ missing_required d = false
    /\ config s' = config s
    /\ existsSync (files s') (path_in (sitesAvailable (config s)) (to_jstr (d_name d))) = true
    /\ name server = to_jstr (d_name d)
    /\ nginxServers s' ≡ₚ nginxServers s ++ [server]
    /\ lastFailedNewSiteContent s' = None.
Proof.
  unfold newSite_try. intros Ht.
  apply bind_ok in Ht as (s1 & d & Hd & Ht). apply lift_ok in Hd as [-> Hd].
  apply bind_ok in Ht as (s1 & [] & Hg & Ht). apply guard_ok in Hg as [Hm ->].
  apply bind_ok in Ht as (s1 & s0 & Hg & Ht). injection Hg as <- <-.
  apply bind_ok in Ht as (s1 & taken & Hg & Ht). injection Hg as <- <-.
  apply bind_ok in Ht as (s1 & [] & Hg & Ht). apply guard_ok in Hg as [Htaken ->].
  apply bind_ok in Ht as (s1 & root & Hg & Ht). apply fs_read_ok in Hg as [-> Hroot].
  apply bind_ok in Ht as (s1 & index & Hg & Ht). apply lift_ok in Hg as [-> Hindex].
  apply bind_ok in Ht as (s1 & [] & Hg & Ht). apply fs_write_ok in Hg as (f1 & Hf1 & ->).
  apply bind_ok in Ht as (s2 & [] & Hg & Ht). apply fs_write_ok in Hg as (f2 & Hf2 & ->).
  apply bind_ok in Ht as (s3 & [] & Hg & Ht). apply fs_write_ok in Hg as (f3 & Hf3 & ->).
  apply bind_ok in Ht as (s4 & server & Hg & Ht). apply fs_read_ok in Hg as [-> Hserver].
  apply bind_ok in Ht as (s5 & [] & Hg & Ht). injection Hg as <-.
  apply bind_ok in Ht as (s6 & [] & Hg & Ht). injection Hg as <-.
  apply bind_ok in Ht as (s7 & [] & Hg & Ht). injection Hg as <-.
  injection Ht as <- _.
  exists d, server. cbn in *.
  repeat split; try assumption; try reflexivity.
  - apply (writeFileSync_exists _ _ _ _ Hf3).
  - unfold createNginxServer, reload in Hserver. cbn in Hserver.
    destruct (readFileSync f3 _); [|discriminate]. injection Hserver as <-. reflexivity.
  - rewrite !array_sort_perm. reflexivity.
Qed.

End Handlers.

(** * Facts about [enable] and [disable] *)

Lemma path_in_inj dir1 dir2 n : path_in dir1 n = path_in dir2 n -> dir1 = dir2.
Proof. unfold path_in. apply app_inv_tail. Qed.

Lemma enable_frame c f this r f' :
  enable c f this = Ok (r, f') ->
  name r = name this /\ hosts r = hosts this /\ port r = port this
  /\ root r = root this
  /\ (forall p, p <> path_in (sitesEnabled c) (name this) -> f' !! p = f !! p)
  /\ (enabled this = true -> r = this /\ f' = f).
Proof.
  unfold enable. destruct (enabled this) eqn:Een.
  - intros [= <- <-]. repeat split.
  - unfold symlinkSync. destruct (f !! _); [discriminate|].
    destruct (create f _ _) as [f1|e] eqn:Ec; [|discriminate].
    apply create_ok in Ec as [_ ->].
    intros [= <- <-]. repeat split; try discriminate.
    intros p Hp. apply lookup_insert_ne. congruence.
Qed.

Lemma disable_frame c f this r f' :
  disable c f this = Ok (r, f') ->
  name r = name this /\ hosts r = hosts this /\ port r = port this
  /\ root r = root this
  /\ (forall p, p <> path_in (sitesEnabled c) (name this) -> f' !! p = f !! p)
  /\ (enabled this = false -> r = this /\ f' = f).
Proof.
  unfold disable. destruct (enabled this) eqn:Een; cbn [negb].
  - unfold rmSync. destruct (f !! _) as [[| |]|]; try discriminate;
      intros [= <- <-]; repeat split; try discriminate;
      intros p Hp; apply lookup_delete_ne; congruence.
  - intros [= <- <-]. repeat split.
Qed.

Lemma enable_reads_link_only c f g this :
  g !! path_in (sitesEnabled c) (name this) = f !! path_in (sitesEnabled c) (name this) ->
  check_parent g (path_in (sitesEnabled c) (name this))
  = check_parent f (path_in (sitesEnabled c) (name this)) ->
  same_outcome (enable c g this) (enable c f this).
Proof.
  intros Hl Hd. unfold enable, symlinkSync, create. destruct (enabled this); [reflexivity|].
  rewrite Hl, Hd. destruct (f !! _); [reflexivity|].
  destruct (check_parent f _); reflexivity.
Qed.

Lemma disable_reads_link_only c f g this :
  g !! path_in (sitesEnabled c) (name this) = f !! path_in (sitesEnabled c) (name this) ->
  same_outcome (disable c g this) (disable c f this).
Proof.
  intros Hl. unfold disable, rmSync. destruct (negb (enabled this)); [reflexivity|].
  rewrite Hl. destruct (f !! _) as [[| |]|]; reflexivity.
Qed.






(** * The model at work *)

Example parse_hosts_two :
  parse_hosts (u "server_name a.test www.a.test;") = [u "a.test"; u "www.a.test"].
Proof. vm_compute. reflexivity. Qed.

Example parse_ports_two :
  parse_ports (u "  listen 80;  listen 443 ssl;") = [Int 80; Int 443].
Proof. vm_compute. reflexivity. Qed.

Example parse_root_one :
  parse_root (u "  root /var/www/html/blog;") = u "/var/www/html/blog".
Proof. vm_compute. reflexivity. Qed.

Example replace_all_plain :
  replace_all (u "{name}") (u "blog") (u "/srv/{name}/{name}x") = u "/srv/blog/blogx".
Proof. vm_compute. reflexivity. Qed.

(** * The claims *)

(** ** C1: ordering of the registry *)

(** The comparator of the second sort never answers "equal", not even
    for a record and itself: it is not a consistent comparator, and the
    order the sort leaves is the engine's choice. *)
Lemma by_enabled_never_zero a b : by_enabled a b <> 0%Z.
Proof. unfold by_enabled. destruct (enabled a); discriminate. Qed.




(** ** C2: the round-trip scenario *)

(** C2, as the code has it: the request [blog] on a fresh machine gives a
    file with the four lines, and reading the file back gives the host,
    the port and the root without the semicolon that ends the directive. *)
Theorem blog_round_trip :
  resolve_root fresh_files blog = Ok (u "/var/www/html/blog")
  /\ resolve_index blog = Ok (u "index.html")
  /\ config_text blog (u "/var/www/html/blog") (u "index.html")
     = join nl
         [ u "server {";
           u "  listen 80;";
           u "  server_name blog.test;";
           u "  root /var/www/html/blog;";
           u "  index index.html;";
           u "";
           u "  location / {";
           u "    try_files $uri $uri/ =404;";
           u "  }";
           u "";
           u "}" ]
  /\ (exists s',
        newSite_press (H := example_host) blog_text fresh_state = (Done, s')
        /\ files s' !! u "/etc/nginx/sites-available/blog"
           = Some (File (config_text blog (u "/var/www/html/blog") (u "index.html")))
        /\ nginxServers s'
           = [ {| name := u "blog"; hosts := [u "blog.test"]; port := [Int 80];
                  root := u "/var/www/html/blog"; enabled := false |} ])
  /\ parse_hosts (config_text blog (u "/var/www/html/blog") (u "index.html"))
     = [u "blog.test"]
  /\ parse_ports (config_text blog (u "/var/www/html/blog") (u "index.html"))
     = [Int 80]
  /\ parse_root (config_text blog (u "/var/www/html/blog") (u "index.html"))
     = u "/var/www/html/blog".
Proof.
  repeat split; try (vm_compute; reflexivity).
  eexists. repeat split; vm_compute; reflexivity.
Qed.

(** C2 fails as stated: the root read back does not end in a semicolon. *)
Lemma blog_root_has_no_semicolon :
  parse_root (config_text blog (u "/var/www/html/blog") (u "index.html"))
  <> u "/var/www/html/blog;".
Proof. vm_compute. discriminate. Qed.

(** ** C3: reading back what was generated *)

Lemma underscore_spaces_no_space s : no_space (underscore_spaces s) = true.
Proof.
  induction s as [|c s IH]; [reflexivity|]. cbn [underscore_spaces map no_space forallb].
  fold (underscore_spaces s). fold (no_space (underscore_spaces s)). rewrite IH, andb_true_r.
  destruct (is_space c) eqn:E; [reflexivity|]. rewrite E. reflexivity.
Qed.

Lemma no_space_one_line s : no_space s = true -> one_line s = true.
Proof. apply no_space_dot. Qed.

(** The resolved root holds no line break and, unless empty, does not
    begin with whitespace. *)
Lemma resolve_root_shape f d root :
  one_line (to_jstr (d_name d)) = true ->
  resolve_root f d = Ok root ->
  one_line root = true /\ stops is_space root = true.
Proof.
  intros Hn Hr. unfold resolve_root in Hr.
  destruct (substitute_root d) as [r|] eqn:Es; [|discriminate].
  assert (Hsp : no_space r = true).
  { unfold substitute_root in Es. destruct (d_root d); try discriminate.
    injection Es as <-. apply underscore_spaces_no_space. }
  pose proof (no_space_one_line _ Hsp) as Hl.
  pose proof (no_space_stops _ Hsp) as Hs.
  destruct (existsSync f r); injection Hr as <-; [|auto].
  split.
  - unfold one_line in *. rewrite forallb_app, Hl.
    apply andb_true_intro. split; [reflexivity|].
    apply andb_true_intro. split; [reflexivity|exact Hn].
  - destruct r; [reflexivity|exact Hs].
Qed.

Lemma missing_required_false d :
  missing_required d = false ->
  truthy (d_name d) = true /\ truthy (d_host d) = true
  /\ truthy (d_port d) = true /\ truthy (d_root d) = true.
Proof.
  unfold missing_required.
  destruct (truthy (d_name d)), (truthy (d_host d)), (truthy (d_port d)),
    (truthy (d_root d)); simpl; intros; try discriminate; auto.
Qed.

(** C3, as the code has it: for a valid request whose port is a positive
    integer Number below 10^21, whose resolved root is not empty and whose
    values are fit to be read back (no line break in the name or the
    host, no whitespace at the head of the host, the word [root] nowhere
    in the host followed by whitespace, the word [listen] nowhere in a
    value followed by whitespace), reading the generated text back gives
    the host split at its spaces, which is the host alone when it holds
    no whitespace, the port and the resolved root. *)
Theorem generated_config_reads_back f d z root index :
  missing_required d = false ->
  d_port d = VNum z -> (0 < z < 10 ^ 21)%Z -> round53 z = z ->
  resolve_root f d = Ok root -> root <> [] ->
  resolve_index d = Ok index ->
  reads_back d root index = true ->
  parse_hosts (config_text d root index) = split_char 32%N (to_jstr (d_host d))
  /\ (no_space (to_jstr (d_host d)) = true ->
      parse_hosts (config_text d root index) = [to_jstr (d_host d)])
  /\ parse_ports (config_text d root index) = [Int z]
  /\ parse_root (config_text d root index) = root.
Proof.
  intros Hm Hport Hz Hnum Hroot Hne Hindex Hrb.
  apply missing_required_false in Hm as (_ & Hh & _ & _).
  unfold reads_back, never_spaced in Hrb. cbn [forallb] in Hrb.
  rewrite !andb_true_iff, !negb_true_iff in Hrb.
  destruct Hrb as ((((Hnl & Hhl) & Hhs) & Hhr) & Hl1 & Hl2 & Hl3 & Hl4 & Hl5 & _).
  destruct (resolve_root_shape _ _ _ Hnl Hroot) as [Hrl Hrs].
  assert (Hhosts : parse_hosts (config_text d root index)
                   = split_char 32%N (to_jstr (d_host d))).
  { apply (read_back_hosts d z); assumption. }
  split; [exact Hhosts|]. split; [|split].
  - intros Hsp. rewrite Hhosts. apply split_space_no_space. exact Hsp.
  - apply read_back_ports; assumption.
  - apply (read_back_root d z); assumption.
Qed.

Lemma generated_config_reads_back_two_hosts :
  parse_hosts (config_text two_hosts (u "/var/www/html/site") (u "index.html"))
  = split_char 32%N (to_jstr (d_host two_hosts))
  /\ (no_space (to_jstr (d_host two_hosts)) = true ->
      parse_hosts (config_text two_hosts (u "/var/www/html/site") (u "index.html"))
      = [to_jstr (d_host two_hosts)])
  /\ parse_ports (config_text two_hosts (u "/var/www/html/site") (u "index.html"))
     = [Int 80]
  /\ parse_root (config_text two_hosts (u "/var/www/html/site") (u "index.html"))
     = u "/var/www/html/site".
Proof.
  apply (generated_config_reads_back fresh_files two_hosts 80);
    first [reflexivity | discriminate | lia | vm_compute; reflexivity].
Defined.

(** C3 fails as stated: a valid request with two host names, separated by
    a space as the template suggests, reads back as two hosts. *)
Lemma two_hosts_read_back_as_two :
  missing_required two_hosts = false
  /\ resolve_root fresh_files two_hosts = Ok (u "/var/www/html/site")
  /\ resolve_index two_hosts = Ok (u "index.html")
  /\ parse_hosts (config_text two_hosts (u "/var/www/html/site") (u "index.html"))
     = [u "example.com"; u "www.example.com"]
  /\ parse_hosts (config_text two_hosts (u "/var/www/html/site") (u "index.html"))
     <> [to_jstr (d_host two_hosts)].
Proof.
  repeat split; try (vm_compute; reflexivity).
  vm_compute. discriminate.
Qed.

(** ** C4: a file without [server_name] *)

Lemma occ_mono (t1 t2 : jstr -> bool) s :
  (forall x, t2 x = false -> t1 x = false) -> occ t2 s = false -> occ t1 s = false.
Proof.
  intros Ht. induction s as [|c s IH]; simpl.
  - apply Ht.
  - intros Ho. apply orb_false_iff in Ho as [Hc Hs]. rewrite (Ht _ Hc). auto.
Qed.

Lemma search_no_keyword kw r s :
  contains kw s = false -> search (after_kw kw r) s = None.
Proof.
  intros Hc. apply search_none.
  apply (occ_mono _ (starts_with kw)); [apply kw_ws_starts_with|].
  rewrite <- contains_occ. exact Hc.
Qed.

(** C4, as the code has it: a file in which [server_name] is nowhere
    followed by whitespace is read without error, and its hosts are the
    one-element sequence holding the empty string. *)
Theorem no_server_name_one_empty_host c f this content :
  readFileSync f (path_in (sitesAvailable c) (name this)) = Ok content ->
  never_spaced (u "server_name") content = true ->
  parse_hosts content = [[]]
  /\ exists s, reload c f this = Ok s /\ hosts s = [[]].
Proof.
  intros Hr Hc. apply negb_true_iff in Hc.
  assert (Hh : parse_hosts content = [[]]).
  { unfold parse_hosts.
    change re_server_name
      with (after_kw (u "server_name") (RSeq (RGroup (RPlus CDot)) (RLit (u ";")))).
    rewrite search_none by assumption. reflexivity. }
  split; [exact Hh|].
  unfold reload. rewrite Hr. eexists. split; [reflexivity|exact Hh].
Qed.

Lemma no_server_name_one_empty_host_example :
  parse_hosts (u "server { listen 80; server_name_in_redirect off; }") = [[]]
  /\ exists s,
       reload example_config
         (<[ u "/etc/nginx/sites-available/x"
             := File (u "server { listen 80; server_name_in_redirect off; }") ]>
            fresh_files)
         {| name := u "x"; hosts := []; port := []; root := []; enabled := false |}
       = Ok s /\ hosts s = [[]].
Proof.
  apply (no_server_name_one_empty_host example_config
           (<[ u "/etc/nginx/sites-available/x"
               := File (u "server { listen 80; server_name_in_redirect off; }") ]>
              fresh_files)
           {| name := u "x"; hosts := []; port := []; root := []; enabled := false |});
    vm_compute; reflexivity.
Defined.

(** C4 fails as stated: the hosts of such a file are not the empty
    sequence. *)
Lemma no_server_name_hosts_not_empty :
  contains (u "server_name") (u "server { listen 80; }") = false
  /\ parse_hosts (u "server { listen 80; }") <> [].
Proof. split; [vm_compute; reflexivity|vm_compute; discriminate]. Qed.

(** ** C5: a request with a required field missing *)

Lemma missing_required_true d :
  truthy (d_name d) = false \/ truthy (d_host d) = false
  \/ truthy (d_port d) = false \/ truthy (d_root d) = false ->
  missing_required d = true.
Proof.
  unfold missing_required.
  intros [E | [E | [E | E]]]; rewrite E; simpl; rewrite ?orb_true_r; reflexivity.
Qed.

(** C5, as the code has it: a text that is not, once trimmed, the text
    the editor was opened on, and that is read as a document in which
    one of the four required values is missing, empty or zero, is
    refused with the one message the handler has for it, which names no
    field; no file is written, the registry is as it was, and the text
    is kept as the draft. *)
Theorem missing_field_rejected `{H : Host} text s d :
  trim text <> trim (initialContent s) ->
  yaml_parse_site text = Ok d ->
  truthy (d_name d) = false \/ truthy (d_host d) = false
  \/ truthy (d_port d) = false \/ truthy (d_root d) = false ->
  newSite_press text s
  = (Failed (Error (u "Missing one or more required fields")),
     set_lastFailed (Some text) s)
  /\ files (snd (newSite_press text s)) = files s
  /\ nginxServers (snd (newSite_press text s)) = nginxServers s.
Proof.
  intros Hne Hp Hm. apply missing_required_true in Hm.
  rewrite (newSite_press_changed _ _ Hne), (newSite_try_missing _ _ _ Hp Hm).
  repeat split.
Qed.

Lemma missing_field_rejected_nameless :
  newSite_press (H := example_host) nameless_text fresh_state
  = (Failed (Error (u "Missing one or more required fields")),
     set_lastFailed (Some nameless_text) fresh_state)
  /\ files (snd (newSite_press (H := example_host) nameless_text fresh_state))
     = files fresh_state
  /\ nginxServers (snd (newSite_press (H := example_host) nameless_text fresh_state))
     = nginxServers fresh_state.
Proof.
  apply (missing_field_rejected (H := example_host) nameless_text fresh_state nameless).
  - vm_compute. discriminate.
  - vm_compute. reflexivity.
  - left. reflexivity.
Defined.

(** C5 fails as stated: for a request without a name the message does
    not name the field. *)
Lemma missing_name_not_listed :
  truthy (d_name nameless) = false
  /\ fst (newSite_press (H := example_host) nameless_text fresh_state)
     = Failed (Error (u "Missing one or more required fields"))
  /\ contains (u "name") (u "Missing one or more required fields") = false.
Proof. repeat split; vm_compute; reflexivity. Qed.

(** ** C6: a name that is taken *)

(** C6, as the code has it: a text that is not, once trimmed, the text
    the editor was opened on, that passes validation, and whose name
    [existsSync] finds in [sitesAvailable], be it there from before or
    from a creation that just succeeded, is refused with "Site already
    exists"; no file is touched and the registry is as it was. *)
Theorem taken_name_rejected `{H : Host} text s d :
  trim text <> trim (initialContent s) ->
  yaml_parse_site text = Ok d ->
  missing_required d = false ->
  existsSync (files s) (path_in (sitesAvailable (config s)) (to_jstr (d_name d))) = true
  \/ (exists text0 s0 d0,
        newSite_press text0 s0 = (Done, s)
        /\ yaml_parse_site text0 = Ok d0
        /\ to_jstr (d_name d0) = to_jstr (d_name d)) ->
  newSite_press text s
  = (Failed (Error (u "Site already exists")), set_lastFailed (Some text) s)
  /\ files (snd (newSite_press text s)) = files s
  /\ nginxServers (snd (newSite_press text s)) = nginxServers s.
Proof.
  intros Hne Hp Hm Hex.
  assert (He : existsSync (files s)
                 (path_in (sitesAvailable (config s)) (to_jstr (d_name d))) = true).
  { destruct Hex as [He|(text0 & s0 & d0 & Hdone & Hp0 & Hn)]; [exact He|].
    unfold newSite_press in Hdone. destruct (decide _); [discriminate|].
    destruct (newSite_try text0 s0) as [s1 [[]|e]] eqn:Et; [|discriminate].
    injection Hdone as ->.
    apply newSite_try_done in Et as (d1 & server & Hd1 & _ & Hc & Hx & _).
    rewrite Hp0 in Hd1. injection Hd1 as <-. rewrite Hc, <- Hn. exact Hx. }
  rewrite (newSite_press_changed _ _ Hne), (newSite_try_taken _ _ _ Hp Hm He).
  repeat split.
Qed.

Lemma taken_name_rejected_twice :
  exists s1,
    newSite_press (H := example_host) blog_text fresh_state = (Done, s1)
    /\ newSite_press (H := example_host) blog_text s1
       = (Failed (Error (u "Site already exists")), set_lastFailed (Some blog_text) s1)
    /\ files (snd (newSite_press (H := example_host) blog_text s1)) = files s1
    /\ nginxServers (snd (newSite_press (H := example_host) blog_text s1))
       = nginxServers s1.
Proof.
  eexists. split; [vm_compute; reflexivity|].
  apply (taken_name_rejected (H := example_host) blog_text _ blog).
  - vm_compute. discriminate.
  - vm_compute. reflexivity.
  - reflexivity.
  - left. vm_compute. reflexivity.
Defined.

(** C6 fails as stated: a request for a taken name that lacks a host is
    refused for the missing field, not for the name. *)
Lemma taken_name_missing_host :
  exists s1,
    newSite_press (H := example_host) blog_text fresh_state = (Done, s1)
    /\ d_name blog_hostless = d_name blog
    /\ existsSync (files s1) (u "/etc/nginx/sites-available/blog") = true
    /\ fst (newSite_press (H := example_host) blog_hostless_text s1)
       = Failed (Error (u "Missing one or more required fields"))
    /\ fst (newSite_press (H := example_host) blog_hostless_text s1)
       <> Failed (Error (u "Site already exists")).
Proof.
  eexists. split; [vm_compute; reflexivity|].
  repeat split; try (vm_compute; reflexivity).
  vm_compute. discriminate.
Qed.

(** ** C7: root resolution *)

Lemma get_substitution_plain matched before after repl :
  no_dollar repl = true -> get_substitution matched before after repl = repl.
Proof.
  induction repl as [|c r IH]; [reflexivity|]. cbn [no_dollar forallb].
  intros Hr. apply andb_true_iff in Hr as [Hc Hr].
  apply negb_true_iff, N.eqb_neq in Hc.
  cbn [get_substitution]. rewrite (IH Hr).
  destruct c as [|p]; [reflexivity|].
  repeat (destruct p as [p|p|]; try reflexivity); congruence.
Qed.

Lemma replace_from_substitute pat repl s : forall before skip,
  no_dollar repl = true ->
  replace_from pat repl before s skip = substitute_from pat repl s skip.
Proof.
  induction s as [|c s IH]; intros before skip Hr; [reflexivity|].
  cbn [replace_from substitute_from]. destruct skip as [|n]; [|apply IH; assumption].
  unfold starts_with. destruct (strip_prefix pat (c :: s)) as [after|].
  - rewrite get_substitution_plain, IH by assumption. reflexivity.
  - rewrite IH by assumption. reflexivity.
Qed.

(** X1: where neither the name nor the host holds a [$], the handler
    resolves the root as the specification says. *)
Theorem resolve_root_meets_spec f d :
  no_dollar (to_jstr (d_name d)) = true ->
  no_dollar (to_jstr (d_host d)) = true ->
  resolve_root f d = spec_resolve_root f d.
Proof.
  intros Hn Hh. unfold resolve_root, spec_resolve_root, substitute_root.
  destruct (d_root d); try reflexivity.
  unfold replace_all, substitute. rewrite !replace_from_substitute by assumption.
  reflexivity.
Qed.

Lemma resolve_root_meets_spec_blog :
  resolve_root fresh_files blog = spec_resolve_root fresh_files blog.
Proof. apply resolve_root_meets_spec; reflexivity. Defined.

(** C7 at the name [$&]: [replace] reads the name as a replacement
    pattern and puts the placeholder back, where the specification puts
    the name. *)
Theorem dollar_name_keeps_placeholder :
  missing_required dollar_name = false
  /\ resolve_root fresh_files dollar_name = Ok (u "/var/www/html/{name}")
  /\ spec_resolve_root fresh_files dollar_name = Ok (u "/var/www/html/$&").
Proof. repeat split; vm_compute; reflexivity. Qed.

(** ** C8: cancelling an edit *)

(** C8, as the code has it: the two flows that edit an existing file stop
    without a change exactly when the editor returns the text it was
    given; the new-site flow stops exactly when the two texts are equal
    once trimmed. *)
Theorem cancellation_by_comparison `{H : Host} :
  (forall text s initial,
      readFileSync (files s) configPath = Ok initial ->
      (fst (editConfig_press text s) = Unchanged <-> text = initial)
      /\ (text = initial -> snd (editConfig_press text s) = s))
  /\ (forall i text s server data o s',
         nginxServers s !! i = Some server ->
         readFileSync (files s) (path_in (sitesAvailable (config s)) (name server))
         = Ok data ->
         detailsEdit_press i text s = Some (o, s') ->
         (o = Unchanged <-> text = data) /\ (text = data -> s' = s))
  /\ (forall text s,
         (fst (newSite_press text s) = Unchanged
          <-> trim text = trim (initialContent s))
         /\ (trim text = trim (initialContent s) -> snd (newSite_press text s) = s)).
Proof.
  split; [|split].
  - intros text s initial Hr. unfold editConfig_press. rewrite Hr.
    destruct (decide (text = initial)) as [->|Hne].
    + split; [split; reflexivity|reflexivity].
    + split; [|contradiction]. split; [|contradiction].
      match goal with |- fst (match ?x with _ => _ end) = _ -> _ =>
        destruct x as [s1 [[]|e]] end; [discriminate|].
      destruct (writeFileSync _ _ _); discriminate.
  - intros i text s server data o s' Hi Hr. unfold detailsEdit_press.
    rewrite Hi, Hr. destruct (decide (text = data)) as [->|Hne].
    + intros [= <- <-]. split; [split; reflexivity|reflexivity].
    + intros Hp. split; [|contradiction]. split; [|contradiction].
      destruct (writeFileSync _ _ _); [|congruence].
      destruct (reload _ _ _); congruence.
  - intros text s. unfold newSite_press. fold (initialContent s).
    destruct (decide (trim text = trim (initialContent s))) as [E|Hne].
    + split; [split; auto|reflexivity].
    + split; [|contradiction]. split; [|contradiction].
      destruct (newSite_try text s) as [s1 [[]|e]]; discriminate.
Qed.

Lemma cancellation_by_comparison_example :
  (fst (editConfig_press (H := config_host) [] configured_state) = Unchanged
   /\ snd (editConfig_press (H := config_host) [] configured_state) = configured_state
   /\ fst (editConfig_press (H := config_host) moved_text configured_state) <> Unchanged)
  /\ ((exists o s',
          detailsEdit_press 0 blog_conf blog_state = Some (o, s')
          /\ o = Unchanged /\ s' = blog_state)
      /\ (exists o s',
             detailsEdit_press 0 (blog_conf ++ nl) blog_state = Some (o, s')
             /\ o <> Unchanged))
  /\ (fst (newSite_press (H := example_host) (newSiteTemplate example_config ++ nl)
             fresh_state) = Unchanged
      /\ snd (newSite_press (H := example_host) (newSiteTemplate example_config ++ nl)
                fresh_state) = fresh_state
      /\ fst (newSite_press (H := example_host) site_a_text fresh_state) <> Unchanged).
Proof.
  assert (Er : readFileSync (files configured_state) (configPath (H := config_host)) = Ok [])
    by (vm_compute; reflexivity).
  assert (Ei : nginxServers blog_state !! 0 = Some blog_record) by reflexivity.
  assert (Ed : readFileSync (files blog_state)
                 (path_in (sitesAvailable (config blog_state)) (name blog_record))
               = Ok blog_conf) by (vm_compute; reflexivity).
  assert (E1 : detailsEdit_press 0 blog_conf blog_state = Some (Unchanged, blog_state))
    by (vm_compute; reflexivity).
  assert (E2 : detailsEdit_press 0 (blog_conf ++ nl) blog_state
               = Some (Done,
                       set_files (<[u "/etc/nginx/sites-available/blog"
                                    := File (blog_conf ++ nl)]> blog_files) blog_state))
    by (vm_compute; reflexivity).
  assert (Et : trim (newSiteTemplate example_config ++ nl)
               = trim (initialContent fresh_state)) by (vm_compute; reflexivity).
  destruct (cancellation_by_comparison (H := config_host)) as (Hc & _ & _).
  destruct (cancellation_by_comparison (H := example_host)) as (_ & He & Hn).
  split; [|split].
  - destruct (Hc [] configured_state [] Er) as [Hiff Hs].
    destruct (Hc moved_text configured_state [] Er) as [Hiff' _].
    split; [apply Hiff; reflexivity|]. split; [apply Hs; reflexivity|].
    intros E. apply Hiff' in E. vm_compute in E. discriminate.
  - split.
    + exists Unchanged, blog_state. split; [exact E1|].
      destruct (He 0 blog_conf blog_state blog_record blog_conf _ _ Ei Ed E1) as [Hiff Hs].
      split; [apply Hiff; reflexivity|apply Hs; reflexivity].
    + eexists _, _. split; [exact E2|].
      destruct (He 0 (blog_conf ++ nl) blog_state blog_record blog_conf _ _ Ei Ed E2)
        as [Hiff _].
      intros E. apply Hiff in E. apply (f_equal (@length _)) in E.
      rewrite length_app in E. cbn [length nl] in E. lia.
  - destruct (Hn (newSiteTemplate example_config ++ nl) fresh_state) as [Hiff Hs].
    destruct (Hn site_a_text fresh_state) as [Hiff' _].
    split; [apply Hiff; exact Et|]. split; [apply Hs; exact Et|].
    intros E. apply Hiff' in E. vm_compute in E. discriminate.
Defined.

(** C8 fails as stated: in the new-site flow a text that differs from the
    one offered by a trailing line break counts as unchanged. *)
Lemma trailing_newline_is_no_change :
  newSiteTemplate example_config ++ nl <> initialContent fresh_state
  /\ newSite_press (H := example_host) (newSiteTemplate example_config ++ nl) fresh_state
     = (Unchanged, fresh_state).
Proof.
  split; [vm_compute; discriminate|].
  vm_compute. reflexivity.
Qed.

(** ** C9: port parsing *)

(** C9, as the code has it: the ports of a file are the numbers found at
    the places where the word [listen] is followed by whitespace and the
    whitespace by a digit: the run of digits there, read as a Number.
    Every such place counts, whether a directive stands there or not, in
    the order of the file, duplicates included; a place where no digit
    follows the whitespace contributes nothing.  In particular a file
    with [listen 80;] and [listen 443;] gives 80 and 443. *)
Theorem ports_at_every_listen content :
  parse_ports content = omap port_at (suffixes content)
  /\ parse_ports (u "  listen 80;" ++ nl ++ u "  listen 443;" ++ nl) = [Int 80; Int 443].
Proof.
  split; [apply parse_ports_suffixes|vm_compute; reflexivity].
Qed.

(** C9 fails as stated: a directive that is commented out is no
    directive, and its port is read all the same. *)
Lemma commented_listen_is_a_port :
  parse_ports (u "listen 80;" ++ nl ++ u "# listen 443 ssl;" ++ nl) = [Int 80; Int 443]
  /\ parse_ports (u "listen 80;" ++ nl) = [Int 80].
Proof. split; vm_compute; reflexivity. Qed.

(** In a file given line by line, each line holding the word at most
    once, the ports are the numbers the values of the lines with the
    word begin with, in file order, duplicates included; a line whose
    value does not begin with a digit contributes nothing. *)
Corollary ports_of_listen_lines ls :
  forallb line_ok ls = true ->
  parse_ports (render_lines ls) = omap line_port ls.
Proof.
  intros Hok. unfold parse_ports, matchAll.
  rewrite matchAll_listen_plain. apply matchAll_lines. exact Hok.
Qed.

Example listen_lines :
  parse_ports
    (render_lines
       [ Other (u "server {");
         Listen (u "  ") (u " ") (u "80");
         Listen (u "  ") (u " ") (u "[::]:80");
         Listen (u "  # ") (u " ") (u "443 ssl");
         Listen (u "  ") (u " ") (u "80");
         Other (u "}") ])
  = [Int 80; Int 443; Int 80].
Proof. vm_compute. reflexivity. Qed.

(** ** C10: what [enable] and [disable] touch *)

(** C10, as the code has it: [enable] and [disable] keep the name, the
    hosts, the ports and the root of the record, and they change the file
    system at the path of the link in [sitesEnabled] and nowhere else.
    Where [sitesAvailable] and [sitesEnabled] are two directories, the
    configuration file of the site is not read, the calls ending alike
    whatever the file holds, and it is not written.  On a record that
    already is in the state asked for they change nothing. *)
Theorem toggle_touches_flag_and_link c f this :
  (forall r f',
      enable c f this = Ok (r, f') \/ disable c f this = Ok (r, f') ->
      name r = name this /\ hosts r = hosts this /\ port r = port this
      /\ root r = root this
      /\ (forall p, p <> path_in (sitesEnabled c) (name this) -> f' !! p = f !! p))
  /\ (sitesAvailable c <> sitesEnabled c ->
      (forall text text',
          f !! path_in (sitesAvailable c) (name this) = Some (File text) ->
          same_outcome
            (enable c (<[path_in (sitesAvailable c) (name this) := File text']> f) this)
            (enable c f this)
          /\ same_outcome
               (disable c (<[path_in (sitesAvailable c) (name this) := File text']> f)
                  this)
               (disable c f this))
      /\ (forall r f',
             enable c f this = Ok (r, f') \/ disable c f this = Ok (r, f') ->
             f' !! path_in (sitesAvailable c) (name this)
             = f !! path_in (sitesAvailable c) (name this)))
  /\ (enabled this = true -> enable c f this = Ok (this, f))
  /\ (enabled this = false -> disable c f this = Ok (this, f)).
Proof.
  assert (Hpath : sitesAvailable c <> sitesEnabled c ->
                  path_in (sitesAvailable c) (name this)
                  <> path_in (sitesEnabled c) (name this)).
  { intros Hne E. apply Hne. exact (path_in_inj _ _ _ E). }
  split; [|split; [|split]].
  - intros r f' [He|He];
      [apply enable_frame in He|apply disable_frame in He];
      destruct He as (? & ? & ? & ? & ? & _); auto.
  - intros Hne. split.
    + intros text text' Hf. split.
      * apply enable_reads_link_only.
        -- apply lookup_insert_ne; auto.
        -- apply (check_parent_file_content _ _ text). exact Hf.
      * apply disable_reads_link_only. apply lookup_insert_ne; auto.
    + intros r f' [He|He];
        [apply enable_frame in He|apply disable_frame in He];
        destruct He as (_ & _ & _ & _ & Hf & _); apply Hf; auto.
  - intros E. unfold enable. rewrite E. reflexivity.
  - intros E. unfold disable. rewrite E. reflexivity.
Qed.

Lemma toggle_touches_flag_and_link_example :
  (name (set_enabled true blog_record) = name blog_record
   /\ hosts (set_enabled true blog_record) = hosts blog_record
   /\ port (set_enabled true blog_record) = port blog_record
   /\ root (set_enabled true blog_record) = root blog_record
   /\ (forall p,
          p <> path_in (sitesEnabled example_config) (name blog_record) ->
          <[u "/etc/nginx/sites-enabled/blog"
            := Symlink (u "/etc/nginx/sites-available/blog")]> blog_files !! p
          = blog_files !! p))
  /\ same_outcome
       (enable example_config
          (<[path_in (sitesAvailable example_config) (name blog_record) := File []]>
             blog_files) blog_record)
       (enable example_config blog_files blog_record)
  /\ <[u "/etc/nginx/sites-enabled/blog"
       := Symlink (u "/etc/nginx/sites-available/blog")]> blog_files
     !! path_in (sitesAvailable example_config) (name blog_record)
     = blog_files !! path_in (sitesAvailable example_config) (name blog_record)
  /\ disable example_config blog_files blog_record = Ok (blog_record, blog_files).
Proof.
  assert (Ee : enable example_config blog_files blog_record
               = Ok (set_enabled true blog_record,
                     <[u "/etc/nginx/sites-enabled/blog"
                       := Symlink (u "/etc/nginx/sites-available/blog")]> blog_files))
    by (vm_compute; reflexivity).
  assert (Hne : sitesAvailable example_config <> sitesEnabled example_config)
    by (intros E; vm_compute in E; discriminate).
  assert (Hf : blog_files !! path_in (sitesAvailable example_config) (name blog_record)
               = Some (File blog_conf)) by (vm_compute; reflexivity).
  destruct (toggle_touches_flag_and_link example_config blog_files blog_record)
    as (Hframe & Hfile & _ & Hoff).
  destruct (Hfile Hne) as [Hread Hwrite].
  split; [exact (Hframe _ _ (or_introl Ee))|].
  split; [exact (proj1 (Hread blog_conf [] Hf))|].
  split; [exact (Hwrite _ _ (or_introl Ee))|].
  apply Hoff. reflexivity.
Defined.

(** C10 fails as stated: where one directory is named in both settings,
    the configuration file of a site is its link; the record is read as
    enabled, and [disable] deletes the file. *)
Lemma one_directory_disable_deletes_site :
  exists r f',
    createNginxServer one_directory blog_files (u "blog") = Ok r
    /\ enabled r = true
    /\ blog_files !! path_in (sitesAvailable one_directory) (name r)
       = Some (File blog_conf)
    /\ disable one_directory blog_files r = Ok (set_enabled false r, f')
    /\ f' !! path_in (sitesAvailable one_directory) (name r) = None.
Proof.
  eexists _, _. repeat split; vm_compute; reflexivity.
Qed.

(** ** Further properties *)

(** X2: enabling a disabled record and disabling it again gives back the
    record and the file system as they were. *)
Theorem enable_then_disable c f this r f' :
  enabled this = false ->
  enable c f this = Ok (r, f') ->
  disable c f' r = Ok (this, f).
Proof.
  intros Hd. unfold enable. rewrite Hd. unfold symlinkSync.
  destruct (f !! path_in (sitesEnabled c) (name this)) eqn:El; [discriminate|].
  destruct (create f _ _) as [f1|e] eqn:Ec; [|discriminate].
  apply create_ok in Ec as [_ ->].
  intros [= <- <-]. unfold disable, rmSync. cbn.
  rewrite lookup_insert_eq, delete_insert_eq, delete_id by assumption.
  destruct this as [n h p r e]. cbn in *. subst e. reflexivity.
Qed.

Lemma enable_then_disable_example :
  exists r f',
    enable example_config fresh_files
      {| name := u "a"; hosts := []; port := []; root := []; enabled := false |}
    = Ok (r, f')
    /\ disable example_config f' r
       = Ok ({| name := u "a"; hosts := []; port := []; root := []; enabled := false |},
             fresh_files).
Proof.
  eexists _, _. split; [vm_compute; reflexivity|].
  apply (enable_then_disable example_config fresh_files
           {| name := u "a"; hosts := []; port := []; root := []; enabled := false |});
    [reflexivity|vm_compute; reflexivity].
Defined.


(** * More of the program: configuration, registry, handlers *)

(** ** [refreshConfig] *)

Lemma or_default_nonempty a b : b <> [] -> or_default a b <> [].
Proof. destruct a; [trivial|discriminate]. Qed.

Lemma nonempty_populated (s : jstr) : s <> [] -> negb (bool_decide (s = [])) = true.
Proof. intros Hs. rewrite bool_decide_eq_false_2 by assumption. reflexivity. Qed.

Lemma assign_config_populated c y : populated (assign_config c y) = true.
Proof.
  unfold populated, assign_config. cbn.
  rewrite !nonempty_populated; [reflexivity|..]; apply or_default_nonempty;
    try discriminate.
  - destruct (or_default _ _); discriminate.
  - destruct (or_default _ _); discriminate.
Qed.

Lemma writeFileSync_read f p text f' :
  writeFileSync f p text = Ok f' -> readFileSync f' p = Ok text.
Proof.
  unfold writeFileSync, readFileSync.
  destruct (f !! p) as [[c| |t]|] eqn:Ep.
  - intros [= <-]. rewrite lookup_insert_eq. reflexivity.
  - discriminate.
  - destruct (decide (t = p)) as [->|Hne].
    + rewrite Ep. discriminate.
    + destruct (f !! t) as [[c'| |t']|] eqn:Et; try discriminate;
        intros Hw; try (apply create_ok in Hw as [_ Hw]); try injection Hw as Hw;
        subst f'; rewrite lookup_insert_ne, Ep, lookup_insert_eq by assumption;
        reflexivity.
  - intros Hw. apply create_ok in Hw as [_ ->]. rewrite lookup_insert_eq. reflexivity.
Qed.

(** A write puts one file in, at a place that held a file or nothing. *)
Lemma writeFileSync_shape f p text f' :
  writeFileSync f p text = Ok f' ->
  exists k, f' = <[k := File text]> f
            /\ forall n, f !! k = Some n -> exists c, n = File c.
Proof.
  unfold writeFileSync.
  destruct (f !! p) as [[c| |t]|] eqn:Ep; try discriminate.
  - intros [= <-]. exists p. split; [reflexivity|].
    intros n. rewrite Ep. intros [= <-]. eauto.
  - destruct (f !! t) as [[c'| |t']|] eqn:Et; try discriminate;
      intros Hw; try (apply create_ok in Hw as [_ Hw]); try injection Hw as Hw;
      subst f'; exists t; (split; [reflexivity|]);
      intros n; rewrite Et; intros [= <-]; eauto.
  - intros Hw. apply create_ok in Hw as [_ ->]. exists p. split; [reflexivity|].
    intros n. rewrite Ep. discriminate.
Qed.

Section Settings.
Context `{H : Host}.

(** X3: [refreshConfig] touches neither the registry nor the draft, and
    not the file system when the configuration file exists.  When it
    returns, each of the four settings is set; when it throws, the
    settings are as they were. *)
Theorem refreshConfig_settings s :
  let (s', r) := refreshConfig s in
  nginxServers s' = nginxServers s
  /\ lastFailedNewSiteContent s' = lastFailedNewSiteContent s
  /\ (existsSync (files s) configPath = true -> files s' = files s)
  /\ match r with
     | Ok _ => populated (config s') = true
     | Err _ => config s' = config s
     end.
Proof.
  unfold refreshConfig, bind, fs_exists, fs_write, fs_read, lift, modify, ret.
  destruct (existsSync (files s) configPath) eqn:Ee.
  - destruct (readFileSync (files s) configPath) as [text|e]; [|auto].
    destruct (yaml_parse_config text) as [y|e]; [|auto].
    cbn. repeat split; auto. apply assign_config_populated.
  - destruct (writeFileSync (files s) configPath _) as [f'|e];
      [|repeat split; auto; discriminate].
    cbn. destruct (readFileSync f' configPath) as [text|e];
      [|repeat split; auto; discriminate].
    destruct (yaml_parse_config text) as [y|e]; cbn; repeat split; auto;
      try discriminate.
    apply assign_config_populated.
Qed.

(** X5: on a machine without the configuration file, when the file can
    be written and the YAML library reads the default document back as
    it printed it, [refreshConfig] writes that document and sets the
    four default paths, whatever the settings were. *)
Theorem refreshConfig_first_run s f' :
  existsSync (files s) configPath = false ->
  writeFileSync (files s) configPath (yaml_stringify default_raw_config) = Ok f' ->
  yaml_parse_config (yaml_stringify default_raw_config) = Ok default_raw_config ->
  refreshConfig s
  = (set_config
       {| nginxPath := u "/etc/nginx";
          sitesAvailable := u "/etc/nginx/sites-available";
          sitesEnabled := u "/etc/nginx/sites-enabled";
          defaultVhosts := u "/var/www/html" |}
       (set_files f' s), Ok tt)
  /\ readFileSync f' configPath = Ok (yaml_stringify default_raw_config).
Proof.
  intros He Hw Hy. pose proof (writeFileSync_read _ _ _ _ Hw) as Hr.
  split; [|exact Hr].
  unfold refreshConfig, bind, fs_exists, fs_write, fs_read, lift, modify.
  rewrite He, Hw. cbn. rewrite Hr, Hy. reflexivity.
Qed.

(** What a successful [refreshConfig] leaves. *)
Lemma refreshConfig_ok s s' x :
  refreshConfig s = (s', Ok x) ->
  exists text y,
    readFileSync (files s') configPath = Ok text
    /\ yaml_parse_config text = Ok y
    /\ existsSync (files s') configPath = true
    /\ s' = set_config (assign_config (config s) y) (set_files (files s') s)
    /\ (files s' = files s
        \/ exists k c, files s' = <[k := File c]> (files s)
                       /\ forall n, files s !! k = Some n -> exists c', n = File c').
Proof.
  unfold refreshConfig, bind, fs_exists, fs_write, fs_read, lift, modify, ret.
  destruct (existsSync (files s) configPath) eqn:Ee.
  - destruct (readFileSync (files s) configPath) as [text|e] eqn:Er; [|discriminate].
    destruct (yaml_parse_config text) as [y|e] eqn:Ey; [|discriminate].
    intros [= <-]. exists text, y. cbn. repeat split; auto.
  - destruct (writeFileSync (files s) configPath _) as [f'|e] eqn:Ew; [|discriminate].
    cbn. rewrite (writeFileSync_read _ _ _ _ Ew).
    destruct (yaml_parse_config _) as [y|e] eqn:Ey; [|discriminate].
    intros [= <-]. eexists _, y. cbn.
    split; [apply (writeFileSync_read _ _ _ _ Ew)|].
    split; [exact Ey|]. split; [apply (writeFileSync_exists _ _ _ _ Ew)|].
    split; [reflexivity|]. right.
    destruct (writeFileSync_shape _ _ _ _ Ew) as (k & -> & Hk). eauto.
Qed.

Lemma refreshConfig_frame s :
  existsSync (files s) configPath = true ->
  files (fst (refreshConfig s)) = files s
  /\ lastFailedNewSiteContent (fst (refreshConfig s)) = lastFailedNewSiteContent s
  /\ nginxServers (fst (refreshConfig s)) = nginxServers s.
Proof.
  intros He. unfold refreshConfig, bind, fs_exists, fs_read, lift, modify, ret.
  rewrite He. destruct (readFileSync (files s) configPath) as [text|e]; [|auto].
  destruct (yaml_parse_config text); auto.
Qed.

End Settings.

Lemma refreshConfig_first_run_fresh :
  exists f',
    readFileSync f' (u "/root/.ngx/ngx.yaml") = Ok []
    /\ refreshConfig (H := config_host)
         {| config := empty_config; files := home_files; nginxServers := [];
            lastFailedNewSiteContent := None |}
       = ({| config := example_config; files := f'; nginxServers := [];
             lastFailedNewSiteContent := None |}, Ok tt).
Proof.
  exists (<[u "/root/.ngx/ngx.yaml" := File []]> home_files).
  destruct (refreshConfig_first_run (H := config_host)
              {| config := empty_config; files := home_files; nginxServers := [];
                 lastFailedNewSiteContent := None |}
              (<[u "/root/.ngx/ngx.yaml" := File []]> home_files)) as [Hr Hf];
    [vm_compute; reflexivity ..|].
  split; [exact Hf|exact Hr].
Defined.

(** X4: a key that the configuration document does not hold keeps the
    value it has in memory: once the settings are set, [refreshConfig]
    does not bring an absent key back to its default, and the two site
    directories do not follow a new [nginxPath]. *)
Theorem assign_config_keeps c y :
  populated c = true ->
  (raw_nginxPath y = None -> nginxPath (assign_config c y) = nginxPath c)
  /\ (raw_sitesAvailable y = None ->
      sitesAvailable (assign_config c y) = sitesAvailable c)
  /\ (raw_sitesEnabled y = None -> sitesEnabled (assign_config c y) = sitesEnabled c)
  /\ (raw_defaultVhosts y = None ->
      defaultVhosts (assign_config c y) = defaultVhosts c).
Proof.
  unfold populated. rewrite !andb_true_iff, !negb_true_iff, !bool_decide_eq_false.
  intros (((Hn & Ha) & He) & Hv).
  unfold assign_config; cbn.
  repeat split; intros ->; cbn.
  - destruct (nginxPath c); [contradiction|reflexivity].
  - destruct (sitesAvailable c); [contradiction|reflexivity].
  - destruct (sitesEnabled c); [contradiction|reflexivity].
  - destruct (defaultVhosts c); [contradiction|reflexivity].
Qed.

Lemma assign_config_keeps_moved :
  nginxPath (assign_config example_config moved_raw) = u "/etc/nginx"
  /\ sitesAvailable (assign_config example_config moved_raw) = u "/srv/sites"
  /\ sitesEnabled (assign_config example_config moved_raw) = u "/etc/nginx/sites-enabled".
Proof.
  destruct (assign_config_keeps example_config moved_raw eq_refl) as (Hn & _ & He & _).
  split; [exact (Hn eq_refl)|]. split; [reflexivity|exact (He eq_refl)].
Defined.

(** ** [loadNginxServers] *)

Lemma map_result_ok {A B} (g : A -> result B) l ys :
  map_result g l = Ok ys -> Forall2 (fun x y => g x = Ok y) l ys.
Proof.
  revert ys. induction l as [|x l IH]; intros ys; cbn.
  - intros [= <-]. constructor.
  - destruct (g x) as [y|] eqn:Eg; [|discriminate].
    destruct (map_result g l) as [ys'|]; [|discriminate].
    intros [= <-]. constructor; auto.
Qed.

Lemma createNginxServer_ok c f n r :
  createNginxServer c f n = Ok r -> name r = n /\ reload c f r = Ok r.
Proof.
  unfold createNginxServer, reload. cbn.
  destruct (readFileSync f (path_in (sitesAvailable c) n)) as [content|] eqn:Er;
    [|discriminate].
  intros [= <-]. cbn. rewrite Er. split; reflexivity.
Qed.

Lemma created_names c f entries servers :
  Forall2 (fun n r => createNginxServer c f n = Ok r) entries servers ->
  entries = map name servers
  /\ Forall (fun r => reload c f r = Ok r) servers.
Proof.
  induction 1 as [|n r entries servers Hnr _ [IHn IHr]]; [split; constructor|].
  apply createNginxServer_ok in Hnr as [<- Hr]. cbn. rewrite <- IHn.
  split; [reflexivity|constructor; assumption].
Qed.

Lemma loadNginxServers_ok s s' x :
  loadNginxServers s = (s', Ok x) ->
  exists entries servers,
    readdirSync (files s) (sitesAvailable (config s)) = Ok entries
    /\ Forall2 (fun n r => createNginxServer (config s) (files s) n = Ok r)
         entries servers
    /\ s' = set_servers servers s.
Proof.
  unfold loadNginxServers, bind, modify, get, lift. cbn.
  destruct (readdirSync _ _) as [entries|]; [|discriminate].
  destruct (map_result _ _) as [servers|] eqn:Em; [|discriminate].
  intros [= <-]. exists entries, servers.
  split; [reflexivity|]. split; [exact (map_result_ok _ _ _ Em)|].
  destruct s; reflexivity.
Qed.

Lemma loadNginxServers_frame s :
  files (fst (loadNginxServers s)) = files s
  /\ lastFailedNewSiteContent (fst (loadNginxServers s)) = lastFailedNewSiteContent s
  /\ config (fst (loadNginxServers s)) = config s.
Proof.
  unfold loadNginxServers, bind, modify, get, lift. cbn.
  destruct (readdirSync _ _); [|auto].
  destruct (map_result _ _); auto.
Qed.

(** X6: when [loadNginxServers] throws, because the directory cannot be
    listed or one of its entries cannot be read as a file, the registry
    is left empty: the records it held are gone, and nothing else is
    changed. *)
Theorem loadNginxServers_failure s s' e :
  loadNginxServers s = (s', Err e) -> s' = set_servers [] s.
Proof.
  unfold loadNginxServers, bind, modify, get, lift. cbn.
  destruct (readdirSync _ _) as [entries|]; [|intros [= <- _]; reflexivity].
  destruct (map_result _ _); [discriminate|]. intros [= <- _]. reflexivity.
Qed.

Lemma loadNginxServers_failure_no_directory :
  loadNginxServers
    {| config := example_config; files := ∅; nginxServers := [blog_record];
       lastFailedNewSiteContent := None |}
  = ({| config := example_config; files := ∅; nginxServers := [];
        lastFailedNewSiteContent := None |},
     Err (FsError ENOENT (u "/etc/nginx/sites-available"))).
Proof.
  assert (E : snd (loadNginxServers
    {| config := example_config; files := ∅; nginxServers := [blog_record];
       lastFailedNewSiteContent := None |})
     = Err (FsError ENOENT (u "/etc/nginx/sites-available"))) by reflexivity.
  destruct (loadNginxServers _) as [s' r] eqn:El.
  cbn in E. subst r.
  rewrite (loadNginxServers_failure _ _ _ El). reflexivity.
Defined.

(** X7: when [loadNginxServers] returns, the registry lists the entries
    of [sitesAvailable], one record per entry and in the order of the
    directory listing, and every record is what [reload] reads from the
    file system: hosts, ports, root and flag are those of the files.
    The file system and the settings are untouched. *)
Theorem loadNginxServers_success s s' :
  loadNginxServers s = (s', Ok tt) ->
  readdirSync (files s) (sitesAvailable (config s)) = Ok (map name (nginxServers s'))
  /\ Forall (fun r => reload (config s) (files s) r = Ok r) (nginxServers s')
  /\ files s' = files s /\ config s' = config s.
Proof.
  intros Hl. apply loadNginxServers_ok in Hl as (entries & servers & Hd & Hc & ->).
  apply created_names in Hc as [-> Hr]. cbn. auto.
Qed.

Lemma loadNginxServers_success_blog :
  loadNginxServers (set_servers [] blog_state) = (blog_state, Ok tt)
  /\ readdirSync blog_files (u "/etc/nginx/sites-available") = Ok [u "blog"].
Proof.
  assert (E : loadNginxServers (set_servers [] blog_state) = (blog_state, Ok tt))
    by (vm_compute; reflexivity).
  split; [exact E|].
  destruct (loadNginxServers_success _ _ E) as (Hd & _). exact Hd.
Defined.

(** ** [toggle] and its button *)

(** The directory in front of the last [/] of a path is a shorter path,
    or the root directory. *)
Lemma drop_while_length (p : char -> bool) (s : jstr) :
  length (drop_while p s) <= length s.
Proof.
  induction s as [|c s IH]; [reflexivity|]. cbn. destruct (p c); cbn; lia.
Qed.

Lemma dirname_shorter p d : dirname p = Some d -> d = u "/" \/ length d < length p.
Proof.
  unfold dirname.
  pose proof (drop_while_length (fun c => negb (N.eqb c 47)) (rev p)) as Hl.
  destruct (drop_while _ (rev p)) as [|c [|c' d']]; [discriminate| |];
    intros [= <-]; [left; reflexivity|right].
  rewrite length_rev in Hl. cbn [rev length] in *.
  rewrite ?length_app, ?length_rev. cbn [length]. lia.
Qed.

(** Taking a link away leaves the directories as they are. *)
Lemma check_parent_delete_link f p t :
  f !! p = Some (Symlink t) ->
  check_parent f p = Ok tt -> check_parent (delete p f) p = Ok tt.
Proof.
  intros Hp. unfold check_parent.
  destruct (dirname p) as [d|] eqn:Ed; [|reflexivity].
  destruct (is_directory f d) eqn:Hd; [intros _|destruct (f !! d) as [[]|]; discriminate].
  assert (Hd' : is_directory (delete p f) d = true); [|rewrite Hd'; reflexivity].
  revert Hd. unfold is_directory.
  destruct (bool_decide (d = u "/") || bool_decide (d = u "/tmp")) eqn:Hfix;
    [reflexivity|]. cbn [orb].
  apply orb_false_iff in Hfix as [Hroot _]. apply bool_decide_eq_false in Hroot.
  destruct (dirname_shorter _ _ Ed) as [?|Hlen]; [contradiction|].
  assert (Hne : d <> p) by (intros ->; lia).
  rewrite lookup_delete_ne by congruence.
  destruct (f !! d) as [[c| |t']|]; try discriminate; [reflexivity|].
  destruct (decide (t' = p)) as [->|Ht].
  - rewrite Hp. discriminate.
  - rewrite lookup_delete_ne by congruence. trivial.
Qed.

(** On a record whose flag tells what the link tells, and with the
    directory of the link in place, [toggle] cannot fail, and a second
    [toggle] undoes the first. *)
Lemma toggle_twice c f this :
  link_ok c f this ->
  check_parent f (path_in (sitesEnabled c) (name this)) = Ok tt ->
  exists r f',
    toggle c f this = Ok (r, f')
    /\ enabled r = negb (enabled this)
    /\ link_ok c f' r
    /\ toggle c f' r = Ok (this, f).
Proof.
  unfold link_ok, toggle, enable, disable, symlinkSync, rmSync, create.
  destruct this as [n h p r e]. cbn. destruct e; cbn; intros Hl Hd; rewrite Hl.
  - eexists _, _. split; [reflexivity|]. cbn.
    rewrite lookup_delete_eq, (check_parent_delete_link _ _ _ Hl Hd). repeat split.
    rewrite insert_delete_id by assumption. reflexivity.
  - rewrite Hd. eexists _, _. split; [reflexivity|]. cbn.
    rewrite lookup_insert_eq. repeat split.
    rewrite delete_insert_eq, delete_id by assumption. reflexivity.
Qed.



(** X9: the "Enable"/"Disable" button pressed twice.  On a record whose
    flag and link agree, with the directory of the link in place, the
    first press succeeds, flips the flag and leaves flag and link in
    agreement; the second press gives back the state, file system
    included, as it was before the first. *)
Theorem detailsToggle_press_twice i s server :
  nginxServers s !! i = Some server ->
  link_ok (config s) (files s) server ->
  check_parent (files s) (path_in (sitesEnabled (config s)) (name server)) = Ok tt ->
  exists s1,
    detailsToggle_press i s = Some (Done, s1)
    /\ (exists r, nginxServers s1 !! i = Some r
                  /\ enabled r = negb (enabled server)
                  /\ link_ok (config s1) (files s1) r)
    /\ detailsToggle_press i s1 = Some (Done, s).
Proof.
  intros Hi Hl Hd. destruct (toggle_twice _ _ _ Hl Hd) as (r & f' & Ht & He & Hl' & Hb).
  unfold detailsToggle_press, at_index. rewrite Hi, Ht.
  eexists. split; [reflexivity|]. cbn.
  assert (Hr : <[i := r]> (nginxServers s) !! i = Some r).
  { apply list_lookup_insert_eq. apply lookup_lt_Some in Hi. exact Hi. }
  split; [exists r; auto|].
  rewrite Hr, Hb. unfold set_servers, set_files. cbn.
  rewrite list_insert_insert_eq, list_insert_id by assumption.
  destruct s. reflexivity.
Qed.

Lemma detailsToggle_press_twice_blog :
  exists s1,
    detailsToggle_press 0 blog_state = Some (Done, s1)
    /\ (exists r, nginxServers s1 !! 0%nat = Some r
                  /\ enabled r = negb (enabled blog_record)
                  /\ link_ok (config s1) (files s1) r)
    /\ detailsToggle_press 0 s1 = Some (Done, blog_state).
Proof.
  apply (detailsToggle_press_twice 0 blog_state blog_record);
    vm_compute; reflexivity.
Defined.

(** X25: the "Enable"/"Disable" button has no [catch]: when [toggle]
    throws, the state is as it was.  Disabling throws ENOENT when nothing
    is at the path of the link and EISDIR when a directory is; enabling
    throws EEXIST when something is at that path already and, when
    nothing is, the error of a link that cannot be made because the
    directory it is to lie in is not there.  In the first three cases
    the flag of the record does not tell what the link tells. *)
Theorem detailsToggle_press_failure i s e s' :
  detailsToggle_press i s = Some (Failed e, s') ->
  s' = s
  /\ exists server,
       nginxServers s !! i = Some server
       /\ match enabled server,
                files s !! path_in (sitesEnabled (config s)) (name server) with
          | true, None =>
              e = FsError ENOENT (path_in (sitesEnabled (config s)) (name server))
          | true, Some n =>
              n = Dir
              /\ e = FsError EISDIR (path_in (sitesEnabled (config s)) (name server))
          | false, Some _ =>
              e = FsError EEXIST (path_in (sitesEnabled (config s)) (name server))
          | false, None =>
              check_parent (files s) (path_in (sitesEnabled (config s)) (name server))
              = Err e
          end
       /\ (link_ok (config s) (files s) server ->
           enabled server = false
           /\ check_parent (files s) (path_in (sitesEnabled (config s)) (name server))
              = Err e).
Proof.
  unfold detailsToggle_press, at_index.
  destruct (nginxServers s !! i) as [server|] eqn:Ei; [|discriminate].
  destruct (toggle (config s) (files s) server) as [[r f']|e0] eqn:Et; [discriminate|].
  intros [= <- <-]. split; [reflexivity|]. exists server. split; [reflexivity|].
  revert Et. unfold link_ok, toggle, enable, disable, symlinkSync, rmSync, create.
  destruct (enabled server); cbn [negb];
    destruct (files s !! path_in (sitesEnabled (config s)) (name server))
      as [[c| |t]|]; try discriminate;
    try (intros [= <-]; split; [auto|discriminate]).
  destruct (check_parent (files s) _) as [[]|e1]; [discriminate|].
  intros [= <-]. auto.
Qed.

Lemma detailsToggle_press_failure_stale :
  exists e,
    detailsToggle_press 0 (set_servers [set_enabled true blog_record] blog_state)
    = Some (Failed e, set_servers [set_enabled true blog_record] blog_state)
    /\ e = FsError ENOENT (u "/etc/nginx/sites-enabled/blog").
Proof.
  exists (FsError ENOENT (u "/etc/nginx/sites-enabled/blog")).
  assert (E : detailsToggle_press 0
                (set_servers [set_enabled true blog_record] blog_state)
              = Some (Failed (FsError ENOENT (u "/etc/nginx/sites-enabled/blog")),
                      set_servers [set_enabled true blog_record] blog_state))
    by (vm_compute; reflexivity).
  split; [exact E|].
  destruct (detailsToggle_press_failure _ _ _ _ E) as (_ & server & _ & _ & _).
  reflexivity.
Defined.

(** ** The "Edit" button of a record *)

(** A file that was read can be written, and writing back the text that
    was read puts the file system back. *)
Lemma write_after_read f p initial text :
  readFileSync f p = Ok initial ->
  exists f1, writeFileSync f p text = Ok f1 /\ writeFileSync f1 p initial = Ok f.
Proof.
  unfold readFileSync, writeFileSync.
  destruct (f !! p) as [[c| |t]|] eqn:Ep; try discriminate.
  - intros [= ->]. eexists. split; [reflexivity|].
    rewrite lookup_insert_eq, insert_insert_eq, insert_id by assumption. reflexivity.
  - destruct (f !! t) as [[c'| |t']|] eqn:Et; try discriminate.
    intros [= ->]. eexists. split; [reflexivity|].
    assert (t <> p) by congruence.
    rewrite lookup_insert_ne, Ep, lookup_insert_eq, insert_insert_eq, insert_id
      by assumption.
    reflexivity.
Qed.

(** X10: how the "Edit" button of a record ends.  When it reports
    success, the site file reads as the text the editor returned, the
    record at that index has the hosts, ports and root parsed from that
    text and the flag read from the link, and every other record, the
    settings and the draft are as they were.  In every other case, an
    unchanged text or an exception, the whole state is as it was: the
    [catch] around [reload] is never entered after the write succeeded,
    since the file just written can be read. *)
Theorem detailsEdit_press_outcome i text s o s' :
  detailsEdit_press i text s = Some (o, s') ->
  match o with
  | Done =>
      exists server,
        nginxServers s !! i = Some server
        /\ readFileSync (files s') (path_in (sitesAvailable (config s)) (name server))
           = Ok text
        /\ nginxServers s'
           = <[i := {| name := name server;
                       hosts := parse_hosts text;
                       port := parse_ports text;
                       root := parse_root text;
                       enabled := existsSync (files s')
                                    (path_in (sitesEnabled (config s)) (name server)) |}]>
               (nginxServers s)
        /\ config s' = config s
        /\ lastFailedNewSiteContent s' = lastFailedNewSiteContent s
  | _ => s' = s
  end.
Proof.
  unfold detailsEdit_press.
  destruct (nginxServers s !! i) as [server|] eqn:Ei; [|discriminate].
  destruct (readFileSync (files s) _) as [data|e] eqn:Er; [|intros [= <- <-]; reflexivity].
  destruct (decide (text = data)); [intros [= <- <-]; reflexivity|].
  destruct (writeFileSync (files s) _ text) as [f|e] eqn:Ew;
    [|intros [= <- <-]; reflexivity].
  pose proof (writeFileSync_read _ _ _ _ Ew) as Hread.
  unfold reload. rewrite Hread. intros [= <- <-].
  exists server. cbn. repeat split; assumption.
Qed.

Lemma detailsEdit_press_outcome_blog :
  exists s',
    detailsEdit_press 0 two_directives blog_state = Some (Done, s')
    /\ nginxServers s'
       = [ {| name := u "blog"; hosts := [u "a.test"; u "b.test"]; port := [];
              root := []; enabled := false |} ]
    /\ readFileSync (files s') (u "/etc/nginx/sites-available/blog") = Ok two_directives.
Proof.
  set (s' := {| config := example_config;
                files := <[u "/etc/nginx/sites-available/blog" := File two_directives]>
                           blog_files;
                nginxServers :=
                  [ {| name := u "blog"; hosts := [u "a.test"; u "b.test"]; port := [];
                       root := []; enabled := false |} ];
                lastFailedNewSiteContent := None |}).
  assert (E : detailsEdit_press 0 two_directives blog_state = Some (Done, s'))
    by (vm_compute; reflexivity).
  exists s'. split; [exact E|]. split; [reflexivity|].
  destruct (detailsEdit_press_outcome _ _ _ _ _ E) as (server & Hi & Hread & _).
  injection Hi as <-. exact Hread.
Defined.

(** ** The "Edit Config" button *)

Section EditConfig.
Context `{H : Host}.

(** X11: when the "Edit Config" button reports a failure, the file
    system is as it was before the press: the text of the editor was
    written, and the [catch] block wrote the former text back.  The
    draft of the new-site flow is untouched as well. *)
Theorem editConfig_press_restores text s e s' :
  editConfig_press text s = (Failed e, s') ->
  files s' = files s
  /\ lastFailedNewSiteContent s' = lastFailedNewSiteContent s.
Proof.
  unfold editConfig_press.
  destruct (readFileSync (files s) configPath) as [initial|e0] eqn:Er;
    [|intros [= _ <-]; auto].
  destruct (decide (text = initial)); [discriminate|].
  destruct (write_after_read _ _ _ text Er) as (f1 & Hw & Hback).
  unfold bind at 1. unfold fs_write. rewrite Hw.
  destruct (refreshConfig_frame (set_files f1 s)
              (writeFileSync_exists _ _ _ _ Hw)) as (Hrf & Hrd & _).
  unfold bind.
  destruct (refreshConfig (set_files f1 s)) as [s1 [[]|e1]] eqn:Erf; cbn in Hrf, Hrd.
  - destruct (loadNginxServers_frame s1) as (Hlf & Hld & _).
    destruct (loadNginxServers s1) as [s2 [[]|e2]] eqn:El; [discriminate|].
    cbn in Hlf, Hld. rewrite Hlf, Hrf, Hback. intros [= _ <-]. cbn.
    split; [reflexivity|congruence].
  - rewrite Hrf, Hback. intros [= _ <-]. cbn. split; [reflexivity|exact Hrd].
Qed.

(** X12: the [catch] block restores the file and nothing else.  When
    the edited document parses and names a [sitesAvailable] that is not
    there, the button reports the failed listing, the file is as it was,
    but the settings in memory are those of the edited document and the
    registry is empty. *)
Theorem editConfig_press_keeps_new_settings text s initial y :
  readFileSync (files s) configPath = Ok initial ->
  text <> initial ->
  yaml_parse_config text = Ok y ->
  files s !! sitesAvailable (assign_config (config s) y) = None ->
  editConfig_press text s
  = (Failed (FsError ENOENT (sitesAvailable (assign_config (config s) y))),
     set_servers [] (set_config (assign_config (config s) y) s)).
Proof.
  intros Er Hne Hy Hdir. unfold editConfig_press. rewrite Er.
  destruct (decide (text = initial)); [contradiction|].
  destruct (write_after_read _ _ _ text Er) as (f1 & Hw & Hback).
  pose proof (writeFileSync_read _ _ _ _ Hw) as Hread.
  assert (Hdir1 : f1 !! sitesAvailable (assign_config (config s) y) = None).
  { revert Er Hw. unfold readFileSync, writeFileSync.
    destruct (files s !! configPath) as [[c| |t]|] eqn:Ep; try discriminate.
    - intros _ [= <-]. rewrite lookup_insert_ne by congruence. exact Hdir.
    - destruct (files s !! t) as [[c'| |t']|] eqn:Et; try discriminate;
        intros _ [= <-]; rewrite lookup_insert_ne by congruence; exact Hdir. }
  unfold bind, fs_write, refreshConfig, bind, fs_exists, fs_read, lift, modify, ret.
  rewrite Hw. cbn [files set_files].
  rewrite (writeFileSync_exists _ _ _ _ Hw). cbn [files set_files].
  rewrite Hread, Hy.
  unfold loadNginxServers, bind, modify, get, lift, readdirSync.
  cbn [files config set_files set_config set_servers].
  rewrite Hdir1. cbn [files config set_files set_config set_servers].
  rewrite Hback. destruct s; reflexivity.
Qed.

(** X26: what a successful "Edit Config" leaves.  The configuration
    file reads as the text of the editor; the settings are those in
    memory overlaid with the document, each of the four set; and the
    registry was loaded anew from the [sitesAvailable] of the new
    settings: it lists the entries of that directory, every record as
    [reload] reads it. *)
Theorem editConfig_press_done text s s' :
  editConfig_press text s = (Done, s') ->
  readFileSync (files s') configPath = Ok text
  /\ (exists y, yaml_parse_config text = Ok y
                /\ config s' = assign_config (config s) y)
  /\ populated (config s') = true
  /\ readdirSync (files s') (sitesAvailable (config s'))
     = Ok (map name (nginxServers s'))
  /\ Forall (fun r => reload (config s') (files s') r = Ok r) (nginxServers s')
  /\ lastFailedNewSiteContent s' = lastFailedNewSiteContent s.
Proof.
  unfold editConfig_press.
  destruct (readFileSync (files s) configPath) as [initial|e0] eqn:Er; [|discriminate].
  destruct (decide (text = initial)); [discriminate|].
  destruct (write_after_read _ _ _ text Er) as (f1 & Hw & Hback).
  pose proof (writeFileSync_read _ _ _ _ Hw) as Hread.
  pose proof (writeFileSync_exists _ _ _ _ Hw) as Hex.
  unfold bind at 1. unfold fs_write. rewrite Hw.
  destruct (refreshConfig_frame (set_files f1 s) Hex) as (Hrf & Hrd & _).
  unfold bind.
  destruct (refreshConfig (set_files f1 s)) as [s1 [[]|e1]] eqn:Erf; cbn in Hrf, Hrd.
  2:{ destruct (writeFileSync (files s1) configPath initial); discriminate. }
  destruct (loadNginxServers s1) as [s2 [[]|e2]] eqn:El.
  2:{ destruct (writeFileSync (files s2) configPath initial); discriminate. }
  intros [= <-].
  apply refreshConfig_ok in Erf as (text' & y & Hread' & Hy & _ & Hs1 & _).
  rewrite Hrf in Hread'. rewrite Hread in Hread'. injection Hread' as <-.
  apply loadNginxServers_ok in El as (entries & servers & Hdir & Hc & ->).
  apply created_names in Hc as [-> Hr]. cbn.
  split; [rewrite Hrf; exact Hread|].
  split; [exists y; split; [exact Hy|rewrite Hs1; reflexivity]|].
  split; [rewrite Hs1; apply assign_config_populated|].
  split; [exact Hdir|]. split; [exact Hr|exact Hrd].
Qed.

End EditConfig.

Lemma editConfig_press_restores_unparsable :
  exists e s',
    editConfig_press (H := config_host) (u "nginxPath: [") configured_state
    = (Failed e, s')
    /\ files s' = files configured_state.
Proof.
  exists YamlError, configured_state.
  assert (E : editConfig_press (H := config_host) (u "nginxPath: [") configured_state
              = (Failed YamlError, configured_state)) by (vm_compute; reflexivity).
  split; [exact E|].
  destruct (editConfig_press_restores (H := config_host) _ _ _ _ E) as [Hf _].
  exact Hf.
Defined.

Lemma editConfig_press_keeps_new_settings_moved :
  editConfig_press (H := config_host) moved_text configured_state
  = (Failed (FsError ENOENT (u "/srv/sites")),
     {| config := {| nginxPath := u "/etc/nginx";
                     sitesAvailable := u "/srv/sites";
                     sitesEnabled := u "/etc/nginx/sites-enabled";
                     defaultVhosts := u "/var/www/html" |};
        files := files configured_state;
        nginxServers := [];
        lastFailedNewSiteContent := None |}).
Proof.
  apply (editConfig_press_keeps_new_settings (H := config_host)
           moved_text configured_state [] moved_raw).
  - vm_compute. reflexivity.
  - discriminate.
  - vm_compute. reflexivity.
  - vm_compute. reflexivity.
Defined.

Lemma editConfig_press_done_moved :
  exists s',
    editConfig_press (H := config_host) moved_text
      (set_files (<[u "/srv/sites" := Dir]> (files configured_state)) configured_state)
    = (Done, s')
    /\ sitesAvailable (config s') = u "/srv/sites"
    /\ nginxServers s' = []
    /\ readFileSync (files s') (u "/root/.ngx/ngx.yaml") = Ok moved_text.
Proof.
  set (s' := {| config := {| nginxPath := u "/etc/nginx";
                             sitesAvailable := u "/srv/sites";
                             sitesEnabled := u "/etc/nginx/sites-enabled";
                             defaultVhosts := u "/var/www/html" |};
                files := <[u "/root/.ngx/ngx.yaml" := File moved_text]>
                           (<[u "/srv/sites" := Dir]> (files configured_state));
                nginxServers := [];
                lastFailedNewSiteContent := None |}).
  assert (E : editConfig_press (H := config_host) moved_text
                (set_files (<[u "/srv/sites" := Dir]> (files configured_state))
                   configured_state)
              = (Done, s')) by (vm_compute; reflexivity).
  exists s'. split; [exact E|]. split; [reflexivity|]. split; [reflexivity|].
  destruct (editConfig_press_done (H := config_host) _ _ _ E) as (Hread & _).
  exact Hread.
Defined.

(** ** The "New Site" button *)



Lemma insert_file_exists (f : fs) k c q :
  existsSync f q = true -> existsSync (<[k := File c]> f) q = true.
Proof.
  unfold existsSync. destruct (decide (k = q)) as [->|Hk].
  - rewrite lookup_insert_eq. reflexivity.
  - rewrite lookup_insert_ne by assumption.
    destruct (f !! q) as [[x| |t]|]; try (intros; assumption).
    destruct (decide (k = t)) as [->|Ht].
    + rewrite lookup_insert_eq. reflexivity.
    + rewrite lookup_insert_ne by assumption. trivial.
Qed.

Lemma writeFileSync_keeps_exists f p c f' q :
  writeFileSync f p c = Ok f' -> existsSync f q = true -> existsSync f' q = true.
Proof.
  intros Hw. destruct (writeFileSync_shape _ _ _ _ Hw) as (k & -> & _).
  apply insert_file_exists.
Qed.

Lemma mkdir_step_exists code p f q f' :
  mkdir_step code p f q = Ok f' -> existsSync f' q = true.
Proof.
  unfold mkdir_step, existsSync.
  destruct (f !! q) as [[x| |t]|] eqn:Eq; try discriminate.
  - intros [= <-]. rewrite Eq. reflexivity.
  - destruct (f !! t) as [[x| |t']|] eqn:Et; try discriminate.
    intros [= <-]. rewrite Eq, Et. reflexivity.
  - intros [= <-]. rewrite lookup_insert_eq. reflexivity.
Qed.

Lemma mkdirSync_exists f p f' : mkdirSync f p = Ok f' -> existsSync f' p = true.
Proof.
  unfold mkdirSync. destruct (mkdir_all p f (ancestors p)) as [f1|e]; [|discriminate].
  apply mkdir_step_exists.
Qed.

Section NewSite.
Context `{H : Host}.



(** X14: what a successful creation leaves.  The request held the four
    required values and its name was free.  The site file reads as the
    generated text, for the root and the index the handler resolved;
    the registry holds the records it held and one more, whose hosts,
    ports and root are parsed from that text and whose flag is read from
    the link; the root and the index page in it exist; the draft is
    cleared. *)
Theorem newSite_press_done text s s' :
  newSite_press text s = (Done, s') ->
  exists d root index,
    yaml_parse_site text = Ok d
    /\ missing_required d = false
    /\ existsSync (files s) (path_in (sitesAvailable (config s)) (to_jstr (d_name d)))
       = false
    /\ resolve_root (files s) d = Ok root
    /\ resolve_index d = Ok index
    /\ readFileSync (files s') (path_in (sitesAvailable (config s)) (to_jstr (d_name d)))
       = Ok (config_text d root index)
    /\ nginxServers s'
       ≡ₚ nginxServers s
          ++ [ {| name := to_jstr (d_name d);
                  hosts := parse_hosts (config_text d root index);
                  port := parse_ports (config_text d root index);
                  root := parse_root (config_text d root index);
                  enabled := existsSync (files s')
                               (path_in (sitesEnabled (config s)) (to_jstr (d_name d))) |} ]
    /\ existsSync (files s') root = true
    /\ existsSync (files s') (path_in root index) = true
    /\ lastFailedNewSiteContent s' = None.
Proof.
  unfold newSite_press.
  destruct (decide (trim text = trim _)); [discriminate|].
  destruct (newSite_try text s) as [s1 [x|e1]] eqn:Ht; [|discriminate].
  intros [= <-]. unfold newSite_try in Ht.
  apply bind_ok in Ht as (s2 & d & Hd & Ht). apply lift_ok in Hd as [-> Hd].
  apply bind_ok in Ht as (s2 & [] & Hg & Ht). apply guard_ok in Hg as [Hm ->].
  apply bind_ok in Ht as (s2 & s0 & Hg & Ht). injection Hg as <- <-.
  apply bind_ok in Ht as (s2 & taken & Hg & Ht). injection Hg as <- <-.
  apply bind_ok in Ht as (s2 & [] & Hg & Ht). apply guard_ok in Hg as [Htaken ->].
  apply bind_ok in Ht as (s2 & root & Hg & Ht). apply fs_read_ok in Hg as [-> Hroot].
  apply bind_ok in Ht as (s2 & index & Hg & Ht). apply lift_ok in Hg as [-> Hindex].
  apply bind_ok in Ht as (s2 & [] & Hg & Ht). apply fs_write_ok in Hg as (f1 & Hf1 & ->).
  apply bind_ok in Ht as (s2 & [] & Hg & Ht). apply fs_write_ok in Hg as (f2 & Hf2 & ->).
  apply bind_ok in Ht as (s3 & [] & Hg & Ht). apply fs_write_ok in Hg as (f3 & Hf3 & ->).
  apply bind_ok in Ht as (s4 & server & Hg & Ht). apply fs_read_ok in Hg as [-> Hserver].
  apply bind_ok in Ht as (s5 & [] & Hg & Ht). injection Hg as <-.
  apply bind_ok in Ht as (s6 & [] & Hg & Ht). injection Hg as <-.
  apply bind_ok in Ht as (s7 & [] & Hg & Ht). injection Hg as <-.
  injection Ht as <-.
  exists d, root, index.
  cbn [files config nginxServers lastFailedNewSiteContent
       set_files set_servers set_lastFailed set_config] in *.
  pose proof (writeFileSync_read _ _ _ _ Hf3) as Hread.
  unfold createNginxServer, reload in Hserver.
  cbn [name] in Hserver. rewrite Hread in Hserver. injection Hserver as <-.
  split; [exact Hd|]. split; [exact Hm|]. split; [exact Htaken|].
  split; [exact Hroot|]. split; [exact Hindex|].
  split; [exact Hread|]. split; [|split; [|split; [|reflexivity]]].
  - rewrite !array_sort_perm. reflexivity.
  - eapply writeFileSync_keeps_exists; [exact Hf3|].
    eapply writeFileSync_keeps_exists; [exact Hf2|].
    exact (mkdirSync_exists _ _ _ Hf1).
  - eapply writeFileSync_keeps_exists; [exact Hf3|].
    exact (writeFileSync_exists _ _ _ _ Hf2).
Qed.

End NewSite.


Lemma newSite_press_done_blog :
  exists s',
    newSite_press (H := example_host) blog_text fresh_state = (Done, s')
    /\ readFileSync (files s') (u "/etc/nginx/sites-available/blog") = Ok blog_conf
    /\ existsSync (files s') (u "/var/www/html/blog/index.html") = true.
Proof.
  destruct (newSite_press (H := example_host) blog_text fresh_state) as [o s'] eqn:E.
  assert (Ho : o = Done) by (apply (f_equal fst) in E; vm_compute in E; congruence).
  subst o. exists s'. split; [reflexivity|].
  destruct (newSite_press_done (H := example_host) _ _ _ E)
    as (d & root & index & Hd & _ & _ & Hroot & Hindex & Hread & _ & _ & Hex & _).
  vm_compute in Hd. injection Hd as <-.
  vm_compute in Hroot. injection Hroot as <-.
  vm_compute in Hindex. injection Hindex as <-.
  split; [exact Hread|exact Hex].
Defined.

(** ** What [reload] reads from a file written by hand *)

(** The value of a directive when more text follows its last [;] on the
    line. *)
Lemma exec_dir_value_tail kw sp v w rest :
  sp <> [] -> forallb is_space sp = true ->
  v <> [] -> stops is_space v = true -> forallb is_dot v = true ->
  forallb is_dot w = true -> char_in w 59%N = false ->
  stops is_dot rest = true ->
  exec (dir_re kw) (kw ++ sp ++ v ++ u ";" ++ w ++ rest) = Some (w ++ rest, [v]).
Proof.
  intros Hne Hsp Hv Hhd Hdot Hw Hsemi Hrest. unfold exec, dir_re.
  apply rmatch_after_kw; try assumption.
  - destruct v; [congruence|exact Hhd].
  - destruct v as [|c v]; [congruence|]. simpl in Hdot.
    apply andb_true_iff in Hdot as [Hc Hdot].
    cbn [rmatch app cls_match]. rewrite Hc.
    apply star_app_some; [assumption|].
    change (u ";" ++ w ++ rest) with (59%N :: w ++ rest).
    cbn [star]. change (is_dot 59%N) with true. cbv iota.
    rewrite star_app_none; [| assumption | |].
    + change (strip_prefix (u ";") (59%N :: w ++ rest)) with (Some (w ++ rest)).
      cbv iota beta. do 2 f_equal. simpl app at 1. f_equal.
      change (c :: v ++ 59%N :: w ++ rest) with ((c :: v) ++ [59%N] ++ (w ++ rest)).
      change (59%N :: w ++ rest) with ([59%N] ++ (w ++ rest)).
      apply take_app_exact.
    + rewrite star_stops by assumption.
      destruct rest as [|d rest]; [reflexivity|].
      simpl in Hrest. change (u ";") with [59%N]. cbn [strip_prefix].
      destruct (N.eqb_spec 59 d) as [<-|]; [discriminate|reflexivity].
    + intros a1 a2 -> Hne2. destruct a2 as [|d a2]; [congruence|].
      unfold char_in in Hsemi. rewrite existsb_app in Hsemi.
      apply orb_false_iff in Hsemi as [_ Hsemi]. cbn [existsb] in Hsemi.
      apply orb_false_iff in Hsemi as [Hd _].
      change (u ";") with [59%N]. cbn [app strip_prefix]. rewrite Hd. reflexivity.
Qed.

Lemma search_first_directive kw pre sp v w rest :
  no_space kw = true -> contains kw pre = false ->
  sp <> [] -> forallb is_space sp = true ->
  v <> [] -> stops is_space v = true -> one_line v = true ->
  one_line w = true -> char_in w 59%N = false -> stops is_dot rest = true ->
  search (dir_re kw) (pre ++ kw ++ sp ++ v ++ u ";" ++ w ++ rest) = Some [v].
Proof.
  intros Hkw Hpre Hne Hsp Hv Hhd Hdot Hw Hsemi Hrest.
  unfold dir_re. rewrite search_skip by (apply hits_before_kw; assumption).
  eapply search_hit. apply exec_dir_value_tail; assumption.
Qed.

(** X15: of a file with several [server_name] directives only the first
    counts.  Where the text in front of it does not hold the word, the
    hosts are its value split at the spaces; the value runs from the end
    of the whitespace behind the keyword to the last [;] of that line,
    so a comment behind the directive is left out, and what follows the
    line, further directives included, is not read. *)
Theorem parse_hosts_first_directive pre sp v w rest :
  contains (u "server_name") pre = false ->
  sp <> [] -> forallb is_space sp = true ->
  v <> [] -> stops is_space v = true -> one_line v = true ->
  one_line w = true -> char_in w 59%N = false -> stops is_dot rest = true ->
  parse_hosts (pre ++ u "server_name" ++ sp ++ v ++ u ";" ++ w ++ rest)
  = split_char 32%N v.
Proof.
  intros. unfold parse_hosts.
  change re_server_name with (dir_re (u "server_name")).
  rewrite search_first_directive by (assumption || reflexivity). reflexivity.
Qed.

Lemma parse_hosts_first_directive_two :
  parse_hosts two_directives = [u "a.test"; u "b.test"].
Proof.
  apply (parse_hosts_first_directive (u "server {" ++ nl ++ u "  ") (u " ")
           (u "a.test b.test") (u " # main")
           (nl ++ u "  server_name c.test;" ++ nl ++ u "}"));
    solve [reflexivity | discriminate].
Defined.

(** X16: the root is the value of the first [root] that is followed by
    whitespace, wherever it stands: the expression does not ask for the
    beginning of a line or of a word, so a comment that holds the word
    in front of the directive is read in its place.  The value runs to
    the last [;] of the line. *)
Theorem parse_root_first_directive pre sp v w rest :
  contains (u "root") pre = false ->
  sp <> [] -> forallb is_space sp = true ->
  v <> [] -> stops is_space v = true -> one_line v = true ->
  one_line w = true -> char_in w 59%N = false -> stops is_dot rest = true ->
  parse_root (pre ++ u "root" ++ sp ++ v ++ u ";" ++ w ++ rest) = v.
Proof.
  intros. unfold parse_root.
  change re_root with (dir_re (u "root")).
  rewrite search_first_directive by (assumption || reflexivity). reflexivity.
Qed.

Lemma parse_root_first_directive_comment :
  parse_root root_in_comment = u "was /old".
Proof.
  apply (parse_root_first_directive (u "# the old ") (u " ") (u "was /old") []
           (nl ++ u "root /srv/x;" ++ nl));
    solve [reflexivity | discriminate].
Defined.

Lemma contains_no_kw_ws kw s : contains kw s = false -> occ (kw_ws kw) s = false.
Proof.
  rewrite contains_occ. apply occ_mono. apply kw_ws_starts_with.
Qed.

(** X17: a file that does not hold the word [listen] has no port, and
    one that does not hold the word [root] has the empty root. *)
Theorem no_directive_no_value content :
  (contains (u "listen") content = false -> parse_ports content = [])
  /\ (contains (u "root") content = false -> parse_root content = []).
Proof.
  split; intros Hc.
  - unfold parse_ports, matchAll. rewrite matchAll_listen_plain.
    unfold re_listen_plain. rewrite matchAll_from_none; [reflexivity|].
    apply contains_no_kw_ws. exact Hc.
  - unfold parse_root. change re_root with (dir_re (u "root")). unfold dir_re.
    rewrite search_no_keyword by exact Hc. reflexivity.
Qed.

Lemma split_char_nonempty sep s : split_char sep s <> [].
Proof.
  destruct s as [|c s]; [discriminate|]. cbn [split_char].
  destruct (N.eqb c sep); [discriminate|].
  destruct (split_char sep s); discriminate.
Qed.

Lemma join_cons sep x l : l <> [] -> join sep (x :: l) = x ++ sep ++ join sep l.
Proof. destruct l; [congruence|reflexivity]. Qed.

Lemma join_cons_head (sep : jstr) c h t :
  join sep ((c :: h) :: t) = c :: join sep (h :: t).
Proof. destruct t; reflexivity. Qed.

Lemma join_split_char sep s : join [sep] (split_char sep s) = s.
Proof.
  induction s as [|c s IH]; [reflexivity|]. cbn [split_char].
  destruct (N.eqb_spec c sep) as [->|Hne].
  - rewrite join_cons by apply split_char_nonempty. rewrite IH. reflexivity.
  - destruct (split_char sep s) as [|h t] eqn:Es.
    + exfalso. exact (split_char_nonempty _ _ Es).
    + rewrite join_cons_head, IH. reflexivity.
Qed.

Lemma split_char_pieces sep s :
  Forall (fun piece => char_in piece sep = false) (split_char sep s).
Proof.
  induction s as [|c s IH]; [repeat constructor|]. cbn [split_char].
  destruct (N.eqb_spec c sep) as [->|Hne].
  - constructor; [reflexivity|exact IH].
  - destruct (split_char sep s) as [|h t]; [repeat constructor|].
    + unfold char_in. cbn. apply orb_false_iff. split; [|reflexivity].
      apply N.eqb_neq. congruence.
    + inversion IH as [|? ? Hh Ht]; subst. constructor; [|exact Ht].
      unfold char_in in *. cbn. rewrite Hh, orb_false_r.
      apply N.eqb_neq. congruence.
Qed.

(** X18: the hosts of a record are never an empty list, none of them
    holds a space, and joined by single spaces they give back the value
    of the directive as it stands in the file: two spaces in a row, or a
    space at the end, give an empty host, and a tab does not separate. *)
Theorem hosts_join_back content :
  parse_hosts content <> []
  /\ join (u " ") (parse_hosts content)
     = first_capture (search re_server_name content)
  /\ Forall (fun h => char_in h 32%N = false) (parse_hosts content).
Proof.
  unfold parse_hosts. split; [apply split_char_nonempty|].
  split; [apply join_split_char|apply split_char_pieces].
Qed.

(** ** The index of a new site *)

Lemma trim_ends s :
  stops is_space (trim s) = true /\ stops is_space (rev (trim s)) = true.
Proof.
  unfold trim. rewrite rev_involutive. split; [|apply drop_while_stops].
  set (x := drop_while is_space s).
  pose proof (drop_while_stops is_space s) as Hx. fold x in Hx.
  pose proof (take_drop_while is_space (rev x)) as Hy.
  apply (f_equal (@rev char)) in Hy. rewrite rev_app_distr, rev_involutive in Hy.
  destruct (rev (drop_while is_space (rev x))) as [|c t] eqn:Et; [reflexivity|].
  rewrite <- Hy in Hx. exact Hx.
Qed.

(** X19: the index the handler resolves is never empty and neither
    begins nor ends with whitespace: a value that is absent, null or
    blank gives way to the default. *)
Theorem resolve_index_shape d index :
  resolve_index d = Ok index ->
  index <> []
  /\ stops is_space index = true
  /\ stops is_space (rev index) = true.
Proof.
  unfold resolve_index.
  assert (Hf : forall i, i = (if truthy (d_php d) then u "index.php" else u "index.html") ->
                 i <> [] /\ stops is_space i = true /\ stops is_space (rev i) = true).
  { intros i ->. destruct (truthy (d_php d)); repeat split; discriminate. }
  destruct (d_index d) as [| | | |i]; try discriminate; intros [= <-]; auto.
  destruct (trim i) as [|c t] eqn:Et; [auto|].
  rewrite <- Et. destruct (trim_ends i) as [Ha Hb].
  split; [rewrite Et; discriminate|auto].
Qed.

Lemma resolve_index_shape_blog :
  resolve_index blog = Ok (u "index.html") /\ u "index.html" <> [].
Proof.
  split; [reflexivity|].
  destruct (resolve_index_shape blog (u "index.html") eq_refl) as [Hne _]. exact Hne.
Defined.

(** ** [tempEditor] *)

(** The temporary file lies in [/tmp]: the time is printed without a
    [/], and so is the rest of the name when the extension holds none. *)
Lemma forallb_rev (p : char -> bool) (s : jstr) : forallb p (rev s) = forallb p s.
Proof.
  induction s as [|c s IH]; [reflexivity|].
  cbn [rev forallb]. rewrite forallb_app. cbn [forallb].
  rewrite IH, andb_true_r. apply andb_comm.
Qed.

Lemma forallb_drop_while (p q : char -> bool) (s : jstr) :
  forallb p s = true -> forallb p (drop_while q s) = true.
Proof.
  induction s as [|c s IH]; [reflexivity|]. cbn [drop_while].
  destruct (q c); [|trivial]. cbn [forallb]. intros Hs.
  apply andb_true_iff in Hs as [_ Hs]. exact (IH Hs).
Qed.

Lemma digits_no_slash y : forallb (fun c => negb (N.eqb c 47)) (digits y) = true.
Proof.
  apply (forallb_impl is_digit); [|apply digits_shape].
  intros c Hc. destruct (N.eqb_spec c 47) as [->|]; [discriminate|reflexivity].
Qed.

Lemma exponent_form_no_slash y :
  forallb (fun c => negb (N.eqb c 47)) (exponent_form y) = true.
Proof.
  unfold exponent_form.
  assert (Hl : forallb (fun c => negb (N.eqb c 47))
                 (rev (drop_while (N.eqb 48) (rev (digits y)))) = true).
  { rewrite forallb_rev. apply forallb_drop_while. rewrite forallb_rev.
    apply digits_no_slash. }
  destruct (rev (drop_while (N.eqb 48) (rev (digits y)))) as [|c [|c' ds]];
    [reflexivity| |].
  - rewrite !forallb_app, Hl, digits_no_slash. reflexivity.
  - assert (Hc : forallb (fun c => negb (N.eqb c 47)) [c] = true).
    { cbn [forallb] in Hl |- *. apply andb_true_iff in Hl as [-> _]. reflexivity. }
    assert (Hds : forallb (fun c => negb (N.eqb c 47)) (c' :: ds) = true).
    { cbn [forallb] in Hl |- *. apply andb_true_iff in Hl as [_ Hl]. exact Hl. }
    rewrite !forallb_app, Hc, Hds, digits_no_slash. reflexivity.
Qed.

Lemma number_to_jstr_no_slash x :
  forallb (fun c => negb (N.eqb c 47)) (number_to_jstr x) = true.
Proof.
  destruct x as [v|]; [|reflexivity]. cbn [number_to_jstr].
  destruct (v <? 2 ^ 53)%Z; [apply digits_no_slash|].
  destruct (v <? 10 ^ 21)%Z; [apply digits_no_slash|apply exponent_form_no_slash].
Qed.

Lemma Z_to_jstr_no_slash z : forallb (fun c => negb (N.eqb c 47)) (Z_to_jstr z) = true.
Proof.
  destruct z as [|p|p]; [reflexivity|apply number_to_jstr_no_slash|].
  cbn [Z_to_jstr]. rewrite forallb_app. apply number_to_jstr_no_slash.
Qed.

Lemma drop_while_app_all (p : char -> bool) (a b : jstr) :
  forallb p a = true -> drop_while p (a ++ b) = drop_while p b.
Proof.
  induction a as [|c a IH]; [reflexivity|]. cbn [forallb app drop_while].
  intros Ha. apply andb_true_iff in Ha as [-> Ha]. exact (IH Ha).
Qed.

Lemma dirname_app d x :
  d <> [] -> forallb (fun c => negb (N.eqb c 47)) x = true ->
  dirname (d ++ u "/" ++ x) = Some d.
Proof.
  intros Hd Hx. unfold dirname. change (u "/" ++ x) with (47%N :: x).
  rewrite rev_app_distr. cbn [rev]. rewrite <- app_assoc.
  rewrite drop_while_app_all by (rewrite forallb_rev; exact Hx).
  cbn [app drop_while]. change (negb (47 =? 47)%N) with false. cbv iota.
  destruct (rev d) as [|c l] eqn:E.
  - apply (f_equal (@rev _)) in E. rewrite rev_involutive in E. contradiction.
  - rewrite <- E, rev_involutive. reflexivity.
Qed.

Lemma dirname_tmp x :
  forallb (fun c => negb (N.eqb c 47)) x = true ->
  dirname (u "/tmp/" ++ x) = Some (u "/tmp").
Proof.
  intros Hx. change (u "/tmp/" ++ x) with (u "/tmp" ++ u "/" ++ x).
  apply dirname_app; [discriminate|exact Hx].
Qed.

Lemma tmpName_in_tmp now extension f :
  forallb (fun c => negb (N.eqb c 47)) (default [] extension) = true ->
  check_parent f (tmpName now extension) = Ok tt.
Proof.
  intros He. unfold check_parent, tmpName. rewrite dirname_tmp; [reflexivity|].
  rewrite forallb_app, Z_to_jstr_no_slash. cbn [andb].
  destruct extension as [[|c e]|]; try reflexivity.
  change (forallb (fun c => negb (N.eqb c 47)) (c :: e) = true) in He.
  rewrite !forallb_app, He. reflexivity.
Qed.

(** X20: the temporary file does not outlive the edit.  Whatever the
    editor does, when the promise resolves it resolves with the path of
    the temporary file, the editor has exited without an error, and
    nothing is left at that path.  With an editor that saves a text and
    touches nothing else, on a file system where the path is free, the
    file system afterwards is the one before in every case: the promise
    resolves with the saved text, or is rejected, with the error of the
    editor or with the error of a temporary file that cannot be made.
    It can be made whenever the extension holds no [/]: the file then
    lies in [/tmp]. *)
Theorem tempEditor_cleans_up now extension content err f :
  (forall editor file data f',
      tempEditor now extension content editor err f = (Resolved (file, data), f') ->
      file = tmpName now extension /\ err = None /\ f' !! file = None)
  /\ (forall text,
         f !! tmpName now extension = None ->
         tempEditor now extension content (saves text) err f
         = match check_parent f (tmpName now extension) with
           | Ok _ =>
               (match err with
                | Some e => Rejected e
                | None => Resolved (tmpName now extension, text)
                end, f)
           | Err e => (Rejected e, f)
           end)
  /\ (forallb (fun c => negb (N.eqb c 47)) (default [] extension) = true ->
      check_parent f (tmpName now extension) = Ok tt).
Proof.
  split; [|split].
  - intros editor file data f'. unfold tempEditor.
    destruct (writeFileSync f _ _) as [f1|]; [|discriminate].
    unfold readFileSync, rmSync.
    destruct (editor _ f1 !! tmpName now extension) as [[c| |t]|] eqn:Ep;
      try (destruct err; discriminate).
    + destruct err; [discriminate|]. intros [= <- <- <-].
      repeat split. apply lookup_delete_eq.
    + destruct (editor _ f1 !! t) as [[c| |t']|]; try (destruct err; discriminate).
      destruct err; [discriminate|]. intros [= <- <- <-].
      repeat split. apply lookup_delete_eq.
  - intros text Hf. unfold tempEditor, writeFileSync, create, saves. rewrite Hf.
    destruct (check_parent f (tmpName now extension)) as [[]|e]; [|reflexivity].
    unfold readFileSync, rmSync. rewrite lookup_insert_eq, insert_insert_eq.
    rewrite delete_insert_eq, delete_id by assumption. reflexivity.
  - apply tmpName_in_tmp.
Qed.

Lemma tempEditor_cleans_up_yaml :
  tempEditor 1700000000000 (Some (u "yaml")) (Some blog_text) (saves site_a_text) None
    fresh_files
  = (Resolved (u "/tmp/1700000000000.tmp.yaml", site_a_text), fresh_files).
Proof.
  destruct (tempEditor_cleans_up 1700000000000 (Some (u "yaml")) (Some blog_text) None
              fresh_files) as (_ & Hs & Hd).
  rewrite (Hs site_a_text eq_refl), (Hd eq_refl). reflexivity.
Defined.

(** X21: the "New Site" button from the click on, with an editor that
    saves a text and touches nothing else, on a file system where the
    path of the temporary file is free.  The click is the handler run on
    the saved text, on the state as it was: the temporary file leaves no
    trace.  When the editor exits with an error the handler stops and
    the state is as it was; when the saved text is the offered one up to
    whitespace at its ends, nothing happens. *)
Theorem newSite_click_saves `{H : Host} now text err s :
  files s !! tmpName now (Some (u "yaml")) = None ->
  newSite_click now (saves text) err s
  = match err with
    | Some _ => (None, s)
    | None => (Some (fst (newSite_press text s)), snd (newSite_press text s))
    end
  /\ (err = None -> trim text = trim (initialContent s) ->
      newSite_click now (saves text) err s = (Some Unchanged, s)).
Proof.
  intros Hf.
  assert (E : newSite_click now (saves text) err s
              = match err with
                | Some _ => (None, s)
                | None => (Some (fst (newSite_press text s)),
                           snd (newSite_press text s))
                end).
  { unfold newSite_click, tempEditor, writeFileSync, create, saves. rewrite Hf.
    rewrite tmpName_in_tmp by reflexivity.
    unfold readFileSync, rmSync. rewrite lookup_insert_eq, insert_insert_eq.
    rewrite delete_insert_eq, delete_id by assumption.
    assert (Hs : set_files (files s) s = s) by (destruct s; reflexivity).
    rewrite Hs. destruct err; [reflexivity|].
    destruct (newSite_press text s); reflexivity. }
  split; [exact E|]. intros -> Ht. rewrite E.
  unfold newSite_press. fold (initialContent s).
  rewrite decide_True by exact Ht. reflexivity.
Qed.

Lemma newSite_click_saves_template :
  newSite_click (H := example_host) 1700000000000 (saves (nl ++ initialContent fresh_state))
    None fresh_state
  = (Some Unchanged, fresh_state).
Proof.
  destruct (newSite_click_saves (H := example_host) 1700000000000
              (nl ++ initialContent fresh_state) None fresh_state eq_refl) as [_ Hc].
  apply Hc; [reflexivity|vm_compute; reflexivity].
Defined.

(** ** The start of the program *)

Lemma mkdir_step_ok code p f q f' :
  mkdir_step code p f q = Ok f' ->
  dir_ok f' q
  /\ (forall q', dir_ok f q' -> dir_ok f' q')
  /\ (forall k, k <> q -> f' !! k = f !! k).
Proof.
  unfold mkdir_step, dir_ok.
  destruct (f !! q) as [[x| |t]|] eqn:Eq; try discriminate.
  - intros [= <-]. auto.
  - destruct (f !! t) as [[x| |t']|] eqn:Et; try discriminate.
    intros [= <-]. split; [right; eauto|auto].
  - intros [= <-]. split; [left; apply lookup_insert_eq|]. split.
    + intros q' [Hd|(t & Hl & Hd)].
      * left. rewrite lookup_insert_ne by congruence. exact Hd.
      * right. exists t. rewrite !lookup_insert_ne by congruence. auto.
    + intros k Hk. apply lookup_insert_ne. congruence.
Qed.

Lemma mkdir_all_ok p f qs : forall f',
  mkdir_all p f qs = Ok f' ->
  Forall (dir_ok f') qs
  /\ (forall q', dir_ok f q' -> dir_ok f' q')
  /\ (forall k, k ∉ qs -> f' !! k = f !! k).
Proof.
  revert f. induction qs as [|q qs IH]; intros f f'; cbn [mkdir_all].
  - intros [= <-]. split; [constructor|auto].
  - destruct (mkdir_step ENOTDIR p f q) as [f1|] eqn:E1; [|discriminate].
    intros Ha. apply mkdir_step_ok in E1 as (Hq & Hk1 & Hf1).
    apply IH in Ha as (Hqs & Hk & Hf). split; [constructor; auto|]. split; [auto|].
    intros k Hn. apply not_elem_of_cons in Hn as [Hkq Hn].
    rewrite Hf, Hf1 by assumption. reflexivity.
Qed.

Lemma mkdirSync_ok f p f' :
  mkdirSync f p = Ok f' ->
  Forall (dir_ok f') (ancestors p) /\ dir_ok f' p
  /\ (forall k, k ∉ ancestors p -> k <> p -> f' !! k = f !! k).
Proof.
  unfold mkdirSync. destruct (mkdir_all p f (ancestors p)) as [f1|] eqn:Ea; [|discriminate].
  intros Hs. apply mkdir_all_ok in Ea as (Hqs & _ & Hf1).
  apply mkdir_step_ok in Hs as (Hp & Hk & Hf).
  split; [|split; [exact Hp|]].
  - eapply Forall_impl; [exact Hqs|]. exact Hk.
  - intros k Hn Hne. rewrite Hf, Hf1 by assumption. reflexivity.
Qed.

Lemma mkdir_step_there code p f q : dir_ok f q -> mkdir_step code p f q = Ok f.
Proof.
  unfold mkdir_step. intros [->|(t & -> & ->)]; reflexivity.
Qed.

Lemma mkdirSync_there f p :
  Forall (dir_ok f) (ancestors p) -> dir_ok f p -> mkdirSync f p = Ok f.
Proof.
  intros Hqs Hp. unfold mkdirSync.
  assert (Ha : mkdir_all p f (ancestors p) = Ok f).
  { induction Hqs as [|q qs Hq _ IH]; [reflexivity|]. cbn [mkdir_all].
    rewrite (mkdir_step_there _ _ _ _ Hq). exact IH. }
  rewrite Ha. apply mkdir_step_there. exact Hp.
Qed.

Lemma dir_ok_insert_file f k c q :
  (forall n, f !! k = Some n -> exists c', n = File c') ->
  dir_ok f q -> dir_ok (<[k := File c]> f) q.
Proof.
  intros Hk. assert (Hne : forall x n, f !! x = Some n -> (forall c', n <> File c') ->
                                       <[k := File c]> f !! x = Some n).
  { intros x n Hx Hn. rewrite lookup_insert_ne; [exact Hx|].
    intros ->. destruct (Hk _ Hx) as [c' ->]. exact (Hn c' eq_refl). }
  intros [Hd|(t & Hl & Hd)].
  - left. apply Hne; [exact Hd|discriminate].
  - right. exists t. split; apply Hne; try assumption; discriminate.
Qed.

Lemma mkdirSync_again f p f' k c :
  mkdirSync f p = Ok f' ->
  (forall n, f' !! k = Some n -> exists c', n = File c') ->
  mkdirSync (<[k := File c]> f') p = Ok (<[k := File c]> f').
Proof.
  intros Hm Hk. apply mkdirSync_ok in Hm as (Hqs & Hp & _).
  apply mkdirSync_there.
  - eapply Forall_impl; [exact Hqs|]. intros q. apply dir_ok_insert_file. exact Hk.
  - apply dir_ok_insert_file; assumption.
Qed.

Lemma mkdirSync_idem f p f' : mkdirSync f p = Ok f' -> mkdirSync f' p = Ok f'.
Proof.
  intros Hm. apply mkdirSync_ok in Hm as (Hqs & Hp & _).
  apply mkdirSync_there; assumption.
Qed.

(** The directories [mkdirSync] makes in front of [p] are paths that [p]
    goes through. *)
Lemma ancestors_from_prefix s : forall before q,
  q ∈ ancestors_from before s -> exists r1 r2, q = before ++ r1 /\ s = r1 ++ 47%N :: r2.
Proof.
  induction s as [|c s IH]; intros before q; cbn [ancestors_from]; [set_solver|].
  rewrite elem_of_app. intros [Hq|Hq].
  - destruct (N.eqb_spec c 47) as [->|]; [|set_solver].
    destruct before; [set_solver|].
    apply list_elem_of_singleton in Hq as ->.
    exists [], s. rewrite app_nil_r. auto.
  - apply IH in Hq as (r1 & r2 & -> & ->).
    exists (c :: r1), r2. rewrite <- app_assoc. auto.
Qed.

Lemma ancestors_prefix p q : q ∈ ancestors p -> exists r, p = q ++ 47%N :: r.
Proof.
  intros Hq. apply ancestors_from_prefix in Hq as (r1 & r2 & -> & ->). eauto.
Qed.

Section Boot.
Context `{H : Host}.

(** X22: when the interface comes up, the user is [root], each of the
    four settings is set, the configuration file exists, the registry
    lists the entries of [sitesAvailable] in the order of the listing,
    every record is what [reload] reads from the file system, and no
    draft is kept. *)
Theorem startup_up username f s :
  startup username f = Up s ->
  username = u "root"
  /\ populated (config s) = true
  /\ existsSync (files s) configPath = true
  /\ readdirSync (files s) (sitesAvailable (config s)) = Ok (map name (nginxServers s))
  /\ Forall (fun r => reload (config s) (files s) r = Ok r) (nginxServers s)
  /\ lastFailedNewSiteContent s = None.
Proof.
  unfold startup. destruct (bool_decide_reflect (username = u "root")) as [Hu|];
    [|discriminate]. cbn [negb].
  destruct (if existsSync f _ then _ else _) as [f1|]; [|discriminate].
  destruct (refreshConfig _) as [s1 [[]|]] eqn:Er; [|discriminate].
  destruct (loadNginxServers s1) as [s2 [[]|]] eqn:El; [|discriminate].
  intros [= <-].
  apply refreshConfig_ok in Er as (text & y & Hread & Hy & Hex & Hs1 & _).
  apply loadNginxServers_ok in El as (entries & servers & Hdir & Hc & ->).
  apply created_names in Hc as [-> Hr]. cbn.
  split; [exact Hu|].
  split; [rewrite Hs1; apply assign_config_populated|].
  split; [exact Hex|]. split; [exact Hdir|]. split; [exact Hr|].
  rewrite Hs1. reflexivity.
Qed.

(** The paths in the home directory that the start reads and makes. *)
Lemma home_not_made q :
  q = homedir ++ u "/.ngx" \/ q = configPath ->
  (q ∉ ancestors (homedir ++ u "/.config/ngx")) /\ q <> homedir ++ u "/.config/ngx".
Proof.
  unfold configPath. intros Hq. split.
  - intros Ha. apply ancestors_prefix in Ha as [r Hr].
    destruct Hq as [-> | ->]; rewrite <- !app_assoc in Hr;
      apply app_inv_head in Hr; discriminate.
  - destruct Hq as [-> | ->]; intros E; apply app_inv_head in E; discriminate.
Qed.

Lemma dirname_configPath : dirname configPath = Some (homedir ++ u "/.ngx").
Proof.
  unfold configPath.
  change (u "/.ngx/ngx.yaml") with (u "/.ngx" ++ u "/" ++ u "ngx.yaml").
  rewrite app_assoc. apply dirname_app; [|reflexivity].
  intros E. apply app_eq_nil in E as [_ E]. discriminate.
Qed.

Lemma home_not_fixed :
  bool_decide (homedir ++ u "/.ngx" = u "/") || bool_decide (homedir ++ u "/.ngx" = u "/tmp")
  = false.
Proof.
  apply orb_false_intro; apply bool_decide_eq_false; intros E;
    apply (f_equal (@rev _)) in E; rewrite rev_app_distr in E; discriminate.
Qed.

(** X23: the directory the start makes is not the directory of the
    configuration file.  On a machine that has nothing at [~/.ngx] and
    no configuration file, the start makes [~/.config/ngx], or fails at
    it, and the interface does not come up: the configuration file
    cannot be written, [~/.ngx] not being there, and the program exits.
    [~/.ngx] and the configuration file are missing afterwards as they
    were before. *)
Theorem startup_directory f :
  f !! (homedir ++ u "/.ngx") = None ->
  f !! configPath = None ->
  match startup (u "root") f with
  | Exit1 f1 =>
      mkdirSync f (homedir ++ u "/.config/ngx") = Ok f1
      /\ existsSync f1 (homedir ++ u "/.config/ngx") = true
      /\ f1 !! (homedir ++ u "/.ngx") = None
      /\ f1 !! configPath = None
  | Crash e f1 => mkdirSync f (homedir ++ u "/.config/ngx") = Err e /\ f1 = f
  | Up _ => False
  end.
Proof.
  intros Hg Hp. unfold startup. rewrite bool_decide_eq_true_2 by reflexivity. cbn [negb].
  assert (E1 : existsSync f (homedir ++ u "/.ngx") = false)
    by (unfold existsSync; rewrite Hg; reflexivity).
  rewrite E1.
  destruct (mkdirSync f (homedir ++ u "/.config/ngx")) as [f1|e] eqn:Em; [|auto].
  pose proof (mkdirSync_exists _ _ _ Em) as Hex.
  apply mkdirSync_ok in Em as (_ & _ & Hframe).
  assert (Hg1 : f1 !! (homedir ++ u "/.ngx") = None).
  { destruct (home_not_made (homedir ++ u "/.ngx")) as [Ha Hn]; [auto|].
    rewrite Hframe by assumption. exact Hg. }
  assert (Hp1 : f1 !! configPath = None).
  { destruct (home_not_made configPath) as [Ha Hn]; [auto|].
    rewrite Hframe by assumption. exact Hp. }
  assert (E3 : existsSync f1 configPath = false)
    by (unfold existsSync; rewrite Hp1; reflexivity).
  assert (E4 : writeFileSync f1 configPath (yaml_stringify default_raw_config)
               = Err (FsError ENOENT configPath)).
  { unfold writeFileSync, create, check_parent. rewrite Hp1, dirname_configPath.
    unfold is_directory. rewrite home_not_fixed, Hg1. reflexivity. }
  unfold refreshConfig, bind, fs_exists, fs_write, fs_read, lift, modify, ret.
  cbn [files]. rewrite E3. cbn [files]. rewrite E4. cbn [files].
  auto.
Qed.

(** X24: starting the program again changes nothing.  When the
    interface came up on a state, a start on the file system of that
    state comes up on the same state: the configuration file is there
    and is not written again, and the directory is there or is not
    missed. *)
Theorem startup_again username f s :
  startup username f = Up s -> startup username (files s) = Up s.
Proof.
  unfold startup. destruct (bool_decide_reflect (username = u "root")) as [Hu|];
    [|discriminate]. cbn [negb].
  destruct (if existsSync f _ then _ else _) as [f1|] eqn:Hstep; [|discriminate].
  destruct (refreshConfig _) as [s1 [[]|]] eqn:Er; [|discriminate].
  destruct (loadNginxServers s1) as [s2 [[]|]] eqn:El; [|discriminate].
  intros [= <-].
  pose proof (loadNginxServers_frame s1) as (Hlf & _). rewrite El in Hlf. cbn in Hlf.
  apply refreshConfig_ok in Er as (text & y & Hread & Hy & Hex & Hs1 & Hfiles).
  cbn [files config] in Hfiles, Hs1.
  rewrite Hlf.
  assert (Hdir : (if existsSync (files s1) (homedir ++ u "/.ngx") then Ok (files s1)
                  else mkdirSync (files s1) (homedir ++ u "/.config/ngx"))
                 = Ok (files s1)).
  { destruct (existsSync (files s1) (homedir ++ u "/.ngx")) eqn:Eg1; [reflexivity|].
    destruct (existsSync f (homedir ++ u "/.ngx")) eqn:Eg.
    - injection Hstep as <-. exfalso.
      destruct Hfiles as [Hf|(k & c & Hf & _)]; rewrite Hf in Eg1.
      + congruence.
      + rewrite insert_file_exists in Eg1 by exact Eg. discriminate.
    - destruct Hfiles as [->|(k & c & -> & Hk)].
      + exact (mkdirSync_idem _ _ _ Hstep).
      + exact (mkdirSync_again _ _ _ _ _ Hstep Hk). }
  rewrite Hdir.
  assert (Hagain : refreshConfig {| config := empty_config; files := files s1;
                                    nginxServers := [];
                                    lastFailedNewSiteContent := None |}
                   = (s1, Ok tt)).
  { unfold refreshConfig, bind, fs_exists, fs_read, lift, modify, ret.
    cbn [files]. rewrite Hex. cbn [files]. rewrite Hread, Hy.
    rewrite Hs1 at 3. reflexivity. }
  rewrite Hagain, El. reflexivity.
Qed.

End Boot.

Lemma startup_up_blog :
  startup (H := config_host) (u "root") home_files = Up configured_state
  /\ populated (config configured_state) = true.
Proof.
  assert (E : startup (H := config_host) (u "root") home_files = Up configured_state)
    by (vm_compute; reflexivity).
  split; [exact E|].
  destruct (startup_up (H := config_host) _ _ _ E) as (_ & Hp & _). exact Hp.
Defined.

Lemma startup_directory_fresh :
  startup (H := config_host) (u "root") fresh_files
  = Exit1 (<[u "/root/.config/ngx" := Dir]> (<[u "/root/.config" := Dir]> fresh_files))
  /\ existsSync
       (<[u "/root/.config/ngx" := Dir]> (<[u "/root/.config" := Dir]> fresh_files))
       (u "/root/.config/ngx") = true
  /\ (<[u "/root/.config/ngx" := Dir]> (<[u "/root/.config" := Dir]> fresh_files))
     !! u "/root/.ngx" = None.
Proof.
  assert (E : startup (H := config_host) (u "root") fresh_files
              = Exit1 (<[u "/root/.config/ngx" := Dir]>
                         (<[u "/root/.config" := Dir]> fresh_files)))
    by (vm_compute; reflexivity).
  split; [exact E|].
  assert (Hg : fresh_files !! (homedir (Host := config_host) ++ u "/.ngx") = None)
    by (vm_compute; reflexivity).
  assert (Hp : fresh_files !! configPath (H := config_host) = None)
    by (vm_compute; reflexivity).
  pose proof (startup_directory (H := config_host) fresh_files Hg Hp) as Hs.
  rewrite E in Hs. destruct Hs as (_ & Hex & Hn & _). split; [exact Hex|exact Hn].
Defined.

Lemma startup_again_blog :
  startup (H := config_host) (u "root") home_files = Up configured_state
  /\ startup (H := config_host) (u "root") (files configured_state)
     = Up configured_state.
Proof.
  assert (E : startup (H := config_host) (u "root") home_files = Up configured_state)
    by (vm_compute; reflexivity).
  split; [exact E|].
  exact (startup_again (H := config_host) _ _ _ E).
Defined.

(** ** Every match is a port *)

Lemma star_inv p s k res :
  star p s k = Some res ->
  exists a b, s = a ++ b /\ forallb p a = true /\ k b = Some res.
Proof.
  induction s as [|c s IH]; cbn [star].
  - intros Hk. exists [], []. auto.
  - destruct (p c) eqn:Hc.
    + destruct (star p s k) as [r|] eqn:Es.
      * intros [= <-]. destruct (IH eq_refl) as (a & b & -> & Ha & Hk).
        exists (c :: a), b. cbn. rewrite Hc, Ha. auto.
      * intros Hk. exists [], (c :: s). auto.
    + intros Hk. exists [], (c :: s). auto.
Qed.

(** What [(\d+)] captures is a run of digits, and not the empty one. *)
Lemma exec_listen_capture s rest caps :
  exec re_listen s = Some (rest, caps) ->
  exists ds, caps = [ds] /\ ds <> [] /\ forallb is_digit ds = true.
Proof.
  rewrite exec_listen_eq. intros Hs.
  apply star_inv in Hs as (a & b & -> & _ & Hb).
  unfold exec, re_listen_plain, after_kw in Hb. cbn [rmatch] in Hb.
  destruct (strip_prefix (u "listen") b) as [t|]; [|discriminate].
  destruct t as [|x t]; [discriminate|].
  destruct (cls_match CSpace x); [|discriminate].
  apply star_inv in Hb as (a1 & b1 & -> & _ & Hb).
  destruct b1 as [|y b1]; [discriminate|].
  cbn [cls_match] in Hb. destruct (is_digit y) eqn:Hy; [|discriminate].
  apply star_inv in Hb as (a2 & b2 & -> & Ha2 & Hb).
  injection Hb as <- <-. exists (y :: a2).
  split; [|split; [discriminate|cbn; rewrite Hy; exact Ha2]].
  cbn [app]. f_equal.
  exact (take_app_exact (y :: a2) [] b2).
Qed.

Lemma is_digit_cases c :
  is_digit c = true ->
  c = 48%N \/ c = 49%N \/ c = 50%N \/ c = 51%N \/ c = 52%N
  \/ c = 53%N \/ c = 54%N \/ c = 55%N \/ c = 56%N \/ c = 57%N.
Proof.
  unfold is_digit. intros Hd. apply andb_true_iff in Hd as [H1 H2].
  apply N.leb_le in H1, H2. lia.
Qed.

Lemma chars_uint_digits ds :
  forallb is_digit ds = true -> exists d, chars_uint ds = Some d.
Proof.
  induction ds as [|c ds IH]; [exists Decimal.Nil; reflexivity|].
  cbn [forallb]. intros Hd. apply andb_true_iff in Hd as [Hc Hd].
  destruct (IH Hd) as [d Hds]. cbn [chars_uint]. rewrite Hds.
  apply is_digit_cases in Hc.
  repeat (destruct Hc as [->|Hc]; [eauto|]). subst c. eauto.
Qed.

Lemma digits_to_number ds :
  forallb is_digit ds = true -> exists x, to_number ds = Some x.
Proof.
  intros Hd. unfold to_number.
  rewrite trim_no_space by (apply digits_no_space; exact Hd).
  destruct (chars_uint_digits _ Hd) as [d ->]. eauto.
Qed.

Lemma matchAll_listen_captures s : forall n,
  Forall (fun caps => exists ds, caps = [ds] /\ ds <> []
                                 /\ forallb is_digit ds = true)
    (matchAll_from re_listen s n).
Proof.
  induction s as [|c s IH]; intros [|n]; cbn [matchAll_from]; try constructor;
    try apply IH.
  destruct (exec re_listen (c :: s)) as [[rest caps]|] eqn:Ee; [|apply IH].
  constructor; [|apply IH]. exact (exec_listen_capture _ _ _ Ee).
Qed.

(** X27: whatever a site file holds, every match of the [listen]
    expression gives a port: what [(\d+)] captures is a run of digits,
    which [+] turns into a number, so the filter on [isNaN] never drops
    a match. *)
Theorem ports_are_numbers content :
  length (parse_ports content) = length (matchAll re_listen content).
Proof.
  unfold parse_ports, matchAll.
  induction (matchAll_listen_captures content 0) as [|caps l (ds & -> & _ & Hd) _ IHl];
    [reflexivity|].
  destruct (digits_to_number _ Hd) as (x & Hx).
  rewrite omap_cons. cbn [port_of_match]. rewrite Hx. cbn [length].
  f_equal. exact IHl.
Qed.

(** ** Edge cases of the buttons *)

(** X29: a root that is not a string.  A root such as [8080] or [true]
    passes the check of the required values, which asks for truthy
    values only, and the handler then throws a TypeError at
    [data.root.replace]: nothing was written, the registry is as it was,
    and the text is kept as the draft. *)
Theorem newSite_press_root_not_string `{H : Host} text s d :
  trim text <> trim (initialContent s) ->
  yaml_parse_site text = Ok d ->
  missing_required d = false ->
  existsSync (files s) (path_in (sitesAvailable (config s)) (to_jstr (d_name d)))
  = false ->
  (forall r, d_root d <> VStr r) ->
  newSite_press text s = (Failed TypeError, set_lastFailed (Some text) s).
Proof.
  intros Hne Hd Hm Hfree Hroot. rewrite newSite_press_changed by exact Hne.
  unfold newSite_try, bind, lift, get, fs_exists, fs_read, throw, ret.
  rewrite Hd, Hm. cbn [config files]. rewrite Hfree.
  unfold resolve_root, substitute_root.
  destruct (d_root d) as [| | | |r]; try reflexivity.
  exfalso. exact (Hroot r eq_refl).
Qed.

Lemma newSite_press_root_not_string_number :
  newSite_press (H := numeric_root_host) numeric_root_text fresh_state
  = (Failed TypeError, set_lastFailed (Some numeric_root_text) fresh_state).
Proof.
  apply (newSite_press_root_not_string (H := numeric_root_host)
           numeric_root_text fresh_state numeric_root).
  - intros E. vm_compute in E. discriminate.
  - vm_compute. reflexivity.
  - reflexivity.
  - vm_compute. reflexivity.
  - intros r E. discriminate.
Defined.
